(** * Bean.cpp: MIDI framing and the sleep sequence of the Bean core

    A shallow embedding of the MIDI ring buffer, the radio-packet encoder,
    the inbound decoder ([midiSend], [midiPacketSend], [midiRead]) and of the
    power sequencer ([attemptSleep], [sleep]) of
    [hardware/bean/avr/cores/bean/Bean.cpp], with the properties stated for
    them.

    Integers of the source are modelled as [Z] with the wrap-around of their
    C type written out; the target is an AVR, where [int] has 16 bits. *)

From Stdlib Require Import ZArith List Lia Bool.
From stdpp Require Import base list.
From Equations Require Import Equations.
Import ListNotations.

Local Open Scope Z_scope.

(** ** Fixed-width integers *)

(** Conversion to [uint8_t]. *)
Definition u8 (x : Z) : Z := x mod 256.

(** Conversion to [uint32_t]. *)
Definition u32 (x : Z) : Z := x mod 4294967296.

(** [_BV(bit)] of avr-libc: [1 << bit]. *)
Definition _BV (bit : Z) : Z := Z.shiftl 1 bit.

Definition is_u8 (x : Z) : Prop := 0 <= x < 256.
Definition is_u32 (x : Z) : Prop := 0 <= x < 4294967296.

(** Case analysis on a value that keeps the equation with its origin. *)
Definition inspect {A : Type} (a : A) : {b : A | a = b} := exist _ a eq_refl.

(** ** The MIDI framer *)

Module Midi.

Definition MIDI_BUFFER_SIZE : Z := 20.
Definition BLE_PACKET_SIZE : Z := 20.

(** [typedef struct { uint32_t timestamp; uint8_t status, byte1, byte2; }
    midiMessage]. *)
Record midiMessage : Type := MidiMessage {
  timestamp : Z;
  status : Z;
  byte1 : Z;
  byte2 : Z
}.

#[export] Instance midiMessage_inhabited : Inhabited midiMessage :=
  populate (MidiMessage 0 0 0 0).

#[export] Instance midiMessage_eq_dec : EqDecision midiMessage.
Proof. solve_decision. Defined.

(** The globals of the encode path: the ring [midiMessages], the packet
    buffer [midiPacket], the two cursors, and the messages handed to
    [Serial.write_message] so far (most recent last). *)
Record MidiState : Type := MkMidiState {
  midiMessages : list midiMessage;
  midiPacket : list Z;
  midiWriteOffset : Z;
  midiReadOffset : Z;
  written : list (list Z)
}.

Definition set_midiMessages (f : list midiMessage -> list midiMessage)
    (m : MidiState) : MidiState :=
  MkMidiState (f (midiMessages m)) (midiPacket m) (midiWriteOffset m)
    (midiReadOffset m) (written m).

Definition set_midiPacket (f : list Z -> list Z) (m : MidiState) : MidiState :=
  MkMidiState (midiMessages m) (f (midiPacket m)) (midiWriteOffset m)
    (midiReadOffset m) (written m).

Definition set_midiWriteOffset (w : Z) (m : MidiState) : MidiState :=
  MkMidiState (midiMessages m) (midiPacket m) w (midiReadOffset m) (written m).

Definition set_midiReadOffset (r : Z) (m : MidiState) : MidiState :=
  MkMidiState (midiMessages m) (midiPacket m) (midiWriteOffset m) r (written m).

Definition write_message (msg : list Z) (m : MidiState) : MidiState :=
  MkMidiState (midiMessages m) (midiPacket m) (midiWriteOffset m)
    (midiReadOffset m) (written m ++ [msg]).

(** [midiMessages[i]]; reading outside the array, undefined in C, gives the
    zero message here. *)
Definition message_at (m : MidiState) (i : Z) : midiMessage :=
  midiMessages m !!! Z.to_nat i.

(** [int BeanClass::midiSend(uint8_t status, uint8_t byte1, uint8_t byte2)].
    [millisec] is the value [millis()] returns at the call. *)
Definition midiSend (millisec : Z) (status byte1 byte2 : Z) (m : MidiState)
    : Z * MidiState :=
  if (midiWriteOffset m + 1) mod MIDI_BUFFER_SIZE =? midiReadOffset m
  then (1, m)
  else
    let m1 :=
      set_midiMessages
        (fun a => <[Z.to_nat (midiWriteOffset m) :=
                      MidiMessage millisec status byte1 byte2]> a) m in
    let m2 := set_midiWriteOffset (u8 (midiWriteOffset m1 + 1)) m1 in
    let m3 := set_midiWriteOffset (midiWriteOffset m2 mod MIDI_BUFFER_SIZE) m2 in
    (0, m3).

(** [midiPacket[byteOffset++] = v]: the new buffer and the new offset. *)
Definition put (v : Z) (mo : MidiState * Z) : MidiState * Z :=
  (set_midiPacket (fun p => <[Z.to_nat (snd mo) := v]> p) (fst mo),
   u8 (snd mo + 1)).

(** The body of the [while] loop of [midiPacketSend] up to the test for
    [break]: one message is written to the packet and the read cursor
    advances. *)
Definition midiPacketSend_body (m : MidiState) (byteOffset lastStatus lastTime : Z)
    : MidiState * Z :=
  let msg := message_at m (midiReadOffset m) in
  let mo :=
    if (lastStatus =? status msg) && (u32 lastTime =? timestamp msg)
    then put (byte2 msg) (put (byte1 msg) (m, byteOffset))
    else
      let msg_ts := u8 (timestamp msg) in
      let msg_ts := u8 (Z.lor msg_ts (Z.shiftl 1 7)) in
      put (byte2 msg) (put (byte1 msg) (put (status msg)
        (put msg_ts (m, byteOffset)))) in
  let m1 := set_midiReadOffset (u8 (midiReadOffset (fst mo) + 1)) (fst mo) in
  let m2 := set_midiReadOffset (midiReadOffset m1 mod MIDI_BUFFER_SIZE) m1 in
  (m2, snd mo).

(** The [while] loop of [midiPacketSend]. [lastStatus] and [lastTime] are
    the two locals the loop compares with; its body assigns neither. The
    loop ends because [byteOffset], a [uint8_t], grows by two or four in each
    round and a round that leaves it above 16 breaks. *)
Equations? midiPacketSend_loop (m : MidiState) (byteOffset lastStatus lastTime : Z)
    : MidiState * Z by wf (Z.to_nat ((16 - byteOffset) mod 256)) lt :=
  midiPacketSend_loop m byteOffset lastStatus lastTime
    with Z.eqb (midiReadOffset m) (midiWriteOffset m) => {
    | true := (m, byteOffset)
    | false with inspect (snd (midiPacketSend_body m byteOffset lastStatus lastTime)
                          + 4 >? BLE_PACKET_SIZE) => {
      | exist _ true _ := midiPacketSend_body m byteOffset lastStatus lastTime
      | exist _ false Hroom :=
          midiPacketSend_loop
            (fst (midiPacketSend_body m byteOffset lastStatus lastTime))
            (snd (midiPacketSend_body m byteOffset lastStatus lastTime))
            lastStatus lastTime } }.
Proof.
  unfold BLE_PACKET_SIZE in Hroom.
  rewrite Z.gtb_ltb in Hroom; apply Z.ltb_ge in Hroom.
  apply Z2Nat.inj_lt; try (apply Z.mod_pos_bound; lia).
  destruct (_ && _); cbn [snd fst put] in *; unfold u8 in *;
    revert Hroom; Z.div_mod_to_equations; lia.
Qed.

(** [int BeanClass::midiPacketSend()]: the byte count and the new state;
    the bytes handed to the transport are the first [byteOffset] bytes of
    [midiPacket]. *)
Definition midiPacketSend (m : MidiState) : Z * MidiState :=
  if midiReadOffset m =? midiWriteOffset m then (0, m)
  else
    let byteOffset := 0 in
    let millisec := timestamp (message_at m (midiReadOffset m)) in
    let head_ts := u8 (Z.shiftr millisec 7) in
    let head_ts := u8 (Z.lor head_ts (Z.shiftl 1 7)) in
    let head_ts := u8 (Z.land head_ts (Z.lnot (Z.shiftl 1 6))) in
    let mo := put head_ts (m, byteOffset) in
    let lastStatus := -1 in
    let lastTime := -1 in
    let mo := midiPacketSend_loop (fst mo) (snd mo) lastStatus lastTime in
    let m' := write_message (take (Z.to_nat (snd mo)) (midiPacket (fst mo)))
                (fst mo) in
    (snd mo, m').

(** *** The decode path *)

(** The decoder session of [BeanClass] ([midiPacketBegin], [lastStatus])
    with the inbound MIDI bytes the transport has buffered, oldest first. *)
Record Decoder : Type := MkDecoder {
  midiPacketBegin : bool;
  lastStatus : Z;
  inbound : list Z
}.

(** The caller's three variables behind the pointers [status], [byte1] and
    [byte2]. *)
Record Outs : Type := MkOuts {
  out_status : Z;
  out_byte1 : Z;
  out_byte2 : Z
}.

(** Modelled from the spec: [Serial.midiAvailable], [Serial.peekMidi] and
    [Serial.readMidi] belong to the transport, whose source is not part of
    the core file. The inbound bytes form a queue: [midiAvailable] counts
    the buffered bytes, [peekMidi] inspects the next byte without consuming
    it, [readMidi buffer n] consumes the next [n] bytes into [buffer]. *)
Definition midiAvailable (d : Decoder) : Z := Z.of_nat (length (inbound d)).

Definition peekMidi (d : Decoder) : Z := hd 0 (inbound d).

Definition readMidi (n : nat) (d : Decoder) : list Z * Decoder :=
  (take n (inbound d),
   MkDecoder (midiPacketBegin d) (lastStatus d) (drop n (inbound d))).

Definition set_midiPacketBegin (b : bool) (d : Decoder) : Decoder :=
  MkDecoder b (lastStatus d) (inbound d).

Definition set_lastStatus (s : Z) (d : Decoder) : Decoder :=
  MkDecoder (midiPacketBegin d) s (inbound d).

(** [buffer[i]] of the local [uint8_t buffer[8]]. *)
Definition buf (buffer : list Z) (i : nat) : Z := nth i buffer 0.

(** The first [if] of [midiRead]: at a packet boundary the header byte is
    consumed once more than four bytes are buffered. *)
Definition midiRead_header (d : Decoder) : Decoder :=
  if midiPacketBegin d then
    if midiAvailable d >? 4 then
      set_midiPacketBegin false (snd (readMidi 1 d))
    else d
  else d.

(** The second [if] of [midiRead] and the final [return 0]. *)
Definition midiRead_body (d : Decoder) (o : Outs) : Z * Outs * Decoder :=
  if negb (midiPacketBegin d) then
    if midiAvailable d >? 0 then
      let peek := u8 (peekMidi d) in
      if negb (Z.land peek (Z.shiftl 1 7) =? 0) then
        if midiAvailable d >=? 4 then
          let '(buffer, d) := readMidi 4 d in
          let timestamp := buf buffer 0 in
          let o := MkOuts (buf buffer 1) (out_byte1 o) (out_byte2 o) in
          let d := set_lastStatus (out_status o) d in
          let o := MkOuts (out_status o) (buf buffer 2) (out_byte2 o) in
          let o := MkOuts (out_status o) (out_byte1 o) (buf buffer 3) in
          if (timestamp =? 255) && (out_status o =? 255) &&
             (out_byte1 o =? 255) && (out_byte2 o =? 255)
          then (0, o, set_midiPacketBegin true d)
          else (peek, o, d)
        else (0, o, d)
      else
        if midiAvailable d >=? 2 then
          let '(buffer, d) := readMidi 2 d in
          let o := MkOuts (u8 (lastStatus d)) (out_byte1 o) (out_byte2 o) in
          let o := MkOuts (out_status o) (buf buffer 0) (out_byte2 o) in
          let o := MkOuts (out_status o) (out_byte1 o) (buf buffer 1) in
          (peek, o, d)
        else (0, o, d)
    else (0, o, d)
  else (0, o, d).

(** [int BeanClass::midiRead(uint8_t *status, uint8_t *byte1, uint8_t *byte2)]:
    the result, the caller's variables and the session after the call. *)
Definition midiRead (d : Decoder) (o : Outs) : Z * Outs * Decoder :=
  midiRead_body (midiRead_header d) o.

(** *** The ring buffer seen as a queue *)

(** The array has its declared size and both cursors are indices into it. *)
Record ring_ok (m : MidiState) : Prop := {
  ring_size : length (midiMessages m) = Z.to_nat MIDI_BUFFER_SIZE;
  ring_write : 0 <= midiWriteOffset m < MIDI_BUFFER_SIZE;
  ring_read : 0 <= midiReadOffset m < MIDI_BUFFER_SIZE
}.

(** The number of messages between the read and the write cursor. *)
Definition pending (m : MidiState) : nat :=
  Z.to_nat ((midiWriteOffset m - midiReadOffset m) mod MIDI_BUFFER_SIZE).

(** The unread messages, oldest first: the slots from the read cursor up to
    the write cursor, around the end of the array. *)
Definition queued (m : MidiState) : list midiMessage :=
  map (fun i : nat =>
         message_at m ((midiReadOffset m + Z.of_nat i) mod MIDI_BUFFER_SIZE))
      (seq 0 (pending m)).

(** A run of [midiSend] calls, each with its clock value and arguments given
    as a [midiMessage]: the results of the calls and the final state. *)
Fixpoint midiSendAll (calls : list midiMessage) (m : MidiState)
    : list Z * MidiState :=
  match calls with
  | [] => ([], m)
  | c :: calls' =>
      let '(r, m1) := midiSend (timestamp c) (status c) (byte1 c) (byte2 c) m in
      let '(rs, m2) := midiSendAll calls' m1 in
      (r :: rs, m2)
  end.

(** The ring is full when advancing the write cursor meets the read cursor. *)
Definition full (m : MidiState) : Prop :=
  (midiWriteOffset m + 1) mod MIDI_BUFFER_SIZE = midiReadOffset m.

(** The state at startup: the arrays are zero-initialised statics and both
    cursors are 0. *)
Definition startup : MidiState :=
  MkMidiState (replicate 20 (MidiMessage 0 0 0 0)) (replicate 20 0) 0 0 [].

(** [n] note-on messages with distinct keys and clock values [t0], [t0+1],
    ... *)
Definition notes (t0 : Z) (n : nat) : list midiMessage :=
  map (fun i : nat => MidiMessage (t0 + Z.of_nat i) 144 (Z.of_nat i) 100)
    (seq 0 n).

(** The claim on the ring capacity as it is worded, for a capacity of [N]
    messages: the call number [N+1] fails and the first [N] messages are
    retained. *)
Definition retains_first (N : nat) (calls : list midiMessage) (m : MidiState)
    : Prop :=
  nth N (fst (midiSendAll calls m)) 0 = 1 /\
  queued (snd (midiSendAll calls m)) = take N calls.

(** *** Well-formed states and the wire format *)

(** Every stored message holds values of its field types. *)
Definition msg_ok (e : midiMessage) : Prop :=
  is_u32 (timestamp e) /\ is_u8 (status e) /\ is_u8 (byte1 e) /\ is_u8 (byte2 e).

Definition messages_ok (m : MidiState) : Prop :=
  Forall msg_ok (midiMessages m).

(** [midiPacket] has its declared size. *)
Definition packet_ok (m : MidiState) : Prop :=
  length (midiPacket m) = Z.to_nat BLE_PACKET_SIZE.

(** The states of the encode path a program can bring about: from [startup]
    by calls of [midiSend], with arguments of its parameter types and a
    32-bit clock, and calls of [midiPacketSend]. *)
Inductive reachable : MidiState -> Prop :=
| reach_startup : reachable startup
| reach_send (t s a b : Z) (m : MidiState) :
    reachable m -> is_u32 t -> is_u8 s -> is_u8 a -> is_u8 b ->
    reachable (snd (midiSend t s a b m))
| reach_packet (m : MidiState) :
    reachable m -> reachable (snd (midiPacketSend m)).

(** The header byte of a packet whose oldest message is [e]. *)
Definition header (e : midiMessage) : Z :=
  u8 (Z.land (u8 (Z.lor (u8 (Z.shiftr (timestamp e) 7)) (Z.shiftl 1 7)))
        (Z.lnot (Z.shiftl 1 6))).

(** The timestamp byte of the four-byte record of [e]. *)
Definition ts_byte (e : midiMessage) : Z :=
  u8 (Z.lor (u8 (timestamp e)) (Z.shiftl 1 7)).

(** The four-byte record of [e]. *)
Definition timed_record (e : midiMessage) : list Z :=
  [ts_byte e; status e; byte1 e; byte2 e].

(** The messages a [midiPacketSend] call consumes: the queued messages the
    read cursor moves past. *)
Definition consumed (m : MidiState) : list midiMessage :=
  take (pending m - pending (snd (midiPacketSend m))) (queued m).

(** The bytes of the last message handed to the transport. *)
Definition last_written (m : MidiState) : list Z :=
  List.last (written m) [].

(** The end-of-packet marker of an inbound packet. *)
Definition sentinel : list Z := [255; 255; 255; 255].

(** [n] successive [midiRead] calls on one session, each with the caller's
    variables as the call before left them: the result and the variables
    after each call, and the session at the end. *)
Fixpoint pollMany (n : nat) (d : Decoder) (o : Outs)
    : list (Z * Outs) * Decoder :=
  match n with
  | O => ([], d)
  | S n' =>
      let '(r, o1, d1) := midiRead d o in
      let '(rs, d2) := pollMany n' d1 o1 in
      ((r, o1) :: rs, d2)
  end.

(** The calls that reported an event: those with a result other than 0. *)
Definition events (polls : list (Z * Outs)) : list (Z * Outs) :=
  List.filter (fun p => negb (fst p =? 0)) polls.

(** A decoder session at a packet boundary with [bytes] buffered. *)
Definition fresh (ls : Z) (bytes : list Z) : Decoder := MkDecoder true ls bytes.

(** What decoding should give for a message: its status and data bytes in
    the caller's variables, and as result the marker bit with the timestamp
    modulo 128, the seven bits the record carries. *)
Definition expected (e : midiMessage) : Z * Outs :=
  (128 + timestamp e mod 128, MkOuts (status e) (byte1 e) (byte2 e)).

(** The round trip for the ring [m]: some number of [midiRead] calls on a
    fresh session fed with the packet of [midiPacketSend] reports the
    consumed messages, in order. *)
Definition round_trip (m : MidiState) (ls : Z) (o : Outs) : Prop :=
  exists n,
    events (fst (pollMany n
      (fresh ls (last_written (snd (midiPacketSend m)))) o))
    = map expected (consumed m).

(** A ring whose oldest message is written as the bytes of the sentinel,
    followed by a note-on. *)
Definition ring_with_sentinel : MidiState :=
  snd (midiSendAll [MidiMessage 127 255 255 255; MidiMessage 128 144 60 100]
         startup).

End Midi.

(** ** The power sequencer *)

Module Power.

Definition MAX_SLEEP_POLL : Z := 30.
Definition MAX_DELAY : Z := 30000.
Definition MIN_SLEEP_TIME : Z := 10.

(** Bit numbers of [avr/io.h] for the ATmega328P. [ADEN], bit 7 of
    [ADCSRA], is "ADC Enable": the converter is on while the bit is set.
    [ACD], bit 7 of [ACSR], is "Analog Comparator Disable": the comparator
    is switched off while the bit is set. *)
Definition ADEN : Z := 7.
Definition ACD : Z := 7.

Inductive uart_sleep_mode : Type := UART_SLEEP_NORMAL | UART_SLEEP_NEVER.

Inductive int_mode : Type := LOW | CHANGE | RISING | FALLING.

(** The calls into the runtime, the transport and the processor that the
    sequencer makes. [SleepCpu] carries the contents of [ADCSRA] and [ACSR]
    at the moment the processor goes to sleep. *)
Inductive op : Type :=
| Delay (ms : Z)
| BTConfigUartSleep (mode : uart_sleep_mode)
| SerialSleep (duration_ms : Z)
| SerialFlush
| AttachInterrupt (interruptNum : Z) (mode : int_mode)
| DetachInterrupt (interruptNum : Z)
| SetSleepModePwrDown
| Cli
| SleepEnable
| SleepBodDisable
| Sei
| SleepCpu (adcsra acsr : Z)
| SleepDisable.

(** The registers the sequencer touches, the global interrupt flag
    [I_flag], the sleep-enable latch [SE], the number of reads of [PIND] made
    so far, and the calls made so far, oldest first. The model follows the
    runs in which the processor, once asleep, is woken again. *)
Record Mcu : Type := MkMcu {
  DDRD : Z;
  ADCSRA : Z;
  ACSR : Z;
  I_flag : bool;
  SE : bool;
  reads : nat;
  log : list op
}.

(** Code that runs on the microcontroller: a result and the state after. *)
Definition M (A : Type) : Type := Mcu -> A * Mcu.

#[export] Instance M_ret : MRet M := fun A (a : A) (s : Mcu) => (a, s).

#[export] Instance M_bind : MBind M :=
  fun A B (f : A -> M B) (c : M A) (s : Mcu) =>
    let '(a, s1) := c s in f a s1.

Definition emit (o : op) : M unit :=
  fun s => (tt, MkMcu (DDRD s) (ADCSRA s) (ACSR s) (I_flag s) (SE s) (reads s)
                  (log s ++ [o])).

Definition modify_DDRD (f : Z -> Z) : M unit :=
  fun s => (tt, MkMcu (u8 (f (DDRD s))) (ADCSRA s) (ACSR s) (I_flag s) (SE s)
                  (reads s) (log s)).

Definition modify_ADCSRA (f : Z -> Z) : M unit :=
  fun s => (tt, MkMcu (DDRD s) (u8 (f (ADCSRA s))) (ACSR s) (I_flag s) (SE s)
                  (reads s) (log s)).

Definition modify_ACSR (f : Z -> Z) : M unit :=
  fun s => (tt, MkMcu (DDRD s) (ADCSRA s) (u8 (f (ACSR s))) (I_flag s) (SE s)
                  (reads s) (log s)).

Definition set_I_flag (b : bool) : M unit :=
  fun s => (tt, MkMcu (DDRD s) (ADCSRA s) (ACSR s) b (SE s) (reads s) (log s)).

Definition set_SE (b : bool) : M unit :=
  fun s => (tt, MkMcu (DDRD s) (ADCSRA s) (ACSR s) (I_flag s) b (reads s) (log s)).

Definition read_ADCSRA : M Z := fun s => (ADCSRA s, s).
Definition read_ACSR : M Z := fun s => (ACSR s, s).

(** [bit_is_set(sfr, bit)] of avr-libc on a value read from [sfr]. *)
Definition bit_is_set (v : Z) (bit : Z) : bool := Z.testbit v bit.

(** [delay(ms)] and the transport calls are recorded. *)
Definition delay (ms : Z) : M unit := emit (Delay ms).

(** Modelled from the spec: [cli], [sei], [sleep_enable], [sleep_disable],
    [sleep_bod_disable], [sleep_cpu] and [set_sleep_mode] are macros of
    avr-libc and instructions of the processor. [cli] masks interrupts
    globally and [sei] unmasks them; [sleep_enable] arms the sleep-enable
    latch and [sleep_disable] disarms it; [sleep_cpu] enters the low-power
    mode and execution resumes behind it when the wake interrupt fires. *)
Definition cli : M unit := emit Cli ;; set_I_flag false.
Definition sei : M unit := emit Sei ;; set_I_flag true.
Definition sleep_enable : M unit := emit SleepEnable ;; set_SE true.
Definition sleep_disable : M unit := emit SleepDisable ;; set_SE false.
Definition sleep_bod_disable : M unit := emit SleepBodDisable.
Definition sleep_cpu : M unit :=
  fun s => emit (SleepCpu (ADCSRA s) (ACSR s)) s.

Definition when (b : bool) (c : M unit) : M unit := if b then c else mret tt.

Section WithSignal.

(** The level of port D seen by the program: [pind n] is the value the
    read number [n] of [PIND] returns. Bit 3 is the line on which the
    co-processor signals that it is ready to sleep. *)
Variable pind : nat -> Z.

Definition read_PIND : M Z :=
  fun s => (pind (reads s),
            MkMcu (DDRD s) (ADCSRA s) (ACSR s) (I_flag s) (SE s) (S (reads s))
              (log s)).

(** One round of the polling loop of [attemptSleep]: [delay(1)] and the
    test of the line. *)
Definition poll_once : M bool :=
  delay 1 ;;
  p ← read_PIND;
  mret (if Z.land p (_BV 3) >? 0 then true else false).

(** The [while] loop of [attemptSleep]. [pollCount] is a [uint8_t]; its
    increment is part of the loop test and happens only when
    [sleepLineSet] is false. *)
Equations? attemptSleep_loop (sleepLineSet : bool) (pollCount : Z) (s : Mcu)
    : bool * Mcu by wf (Z.to_nat (MAX_SLEEP_POLL - pollCount)) lt :=
  attemptSleep_loop true pollCount s := (true, s);
  attemptSleep_loop false pollCount s
    with inspect (pollCount <? MAX_SLEEP_POLL) => {
    | exist _ false _ := (false, s)
    | exist _ true Hlt :=
        attemptSleep_loop (fst (poll_once s)) (u8 (pollCount + 1))
          (snd (poll_once s)) }.
Proof.
  apply Z.ltb_lt in Hlt. unfold MAX_SLEEP_POLL, u8 in *.
  Z.div_mod_to_equations. lia.
Qed.

(** [bool BeanClass::attemptSleep(uint32_t duration_ms)]. *)
Definition attemptSleep (duration_ms : Z) : M bool :=
  modify_DDRD (fun v => Z.land v (Z.lnot (_BV 3))) ;;
  emit (SerialSleep duration_ms) ;;
  emit SerialFlush ;;
  attemptSleep_loop false 0.

(** The duration the retry loop of [sleep] passes to the next attempt. *)
Definition shorten (duration_ms : Z) : Z :=
  if duration_ms >=? MAX_SLEEP_POLL then u32 (duration_ms - MAX_SLEEP_POLL)
  else 0.

(** The retry loop of [sleep]:
    [while (duration_ms > 0 && false == sleeping)]. *)
Equations? sleep_retry (duration_ms : Z) (sleeping : bool) (s : Mcu)
    : (Z * bool) * Mcu by wf (Z.to_nat duration_ms) lt :=
  sleep_retry duration_ms sleeping s
    with inspect ((duration_ms >? 0) && negb sleeping) => {
    | exist _ false _ := ((duration_ms, sleeping), s)
    | exist _ true Hgo :=
        sleep_retry (shorten duration_ms)
          (fst (attemptSleep (shorten duration_ms) s))
          (snd (attemptSleep (shorten duration_ms) s)) }.
Proof.
  apply andb_true_iff in Hgo as [Hgo _].
  rewrite Z.gtb_ltb in Hgo. apply Z.ltb_lt in Hgo.
  unfold shorten, MAX_SLEEP_POLL, u32.
  destruct (Z.geb_spec duration_ms 30); [|lia].
  Z.div_mod_to_equations. lia.
Qed.

(** The deep-sleep entry of [sleep], from the snapshot of the analog
    peripherals to their restoration. *)
Definition deep_sleep : M unit :=
  adcsra ← read_ADCSRA;
  let adc_was_set := bit_is_set adcsra ADEN in
  when adc_was_set (modify_ADCSRA (fun v => Z.land v (Z.lnot (_BV ADEN)))) ;;
  acsr ← read_ACSR;
  let ac_was_set := bit_is_set acsr ACD in
  when ac_was_set (modify_ACSR (fun v => Z.land v (Z.lnot (_BV ACD)))) ;;
  emit (AttachInterrupt 1 LOW) ;;
  emit SetSleepModePwrDown ;;
  cli ;;
  p ← read_PIND;
  when (bit_is_set p 3)
    (sleep_enable ;; sleep_bod_disable ;; sei ;; sleep_cpu ;; sleep_disable) ;;
  sei ;;
  emit (DetachInterrupt 1) ;;
  when adc_was_set (modify_ADCSRA (fun v => Z.lor v (_BV ADEN))) ;;
  when ac_was_set (modify_ACSR (fun v => Z.lor v (_BV ACD))).

(** The negotiation of [sleep] after the first attempt: the retry loop for
    a long duration, the plain wait for a middle one; it gives the final
    value of [sleeping]. *)
Definition negotiate (duration_ms : Z) (sleeping : bool) : M bool :=
  if negb sleeping && (duration_ms >? MAX_DELAY) then
    r ← sleep_retry duration_ms sleeping; mret (snd r)
  else if negb sleeping && (duration_ms >? MAX_SLEEP_POLL) then
    delay (u32 (duration_ms - MAX_SLEEP_POLL)) ;; mret false
  else mret sleeping.

(** [void BeanClass::sleep(uint32_t duration_ms)]. *)
Definition sleep (duration_ms : Z) : M unit :=
  modify_DDRD (fun v => Z.land v (Z.lnot (_BV 3))) ;;
  emit (BTConfigUartSleep UART_SLEEP_NORMAL) ;;
  if duration_ms <? MIN_SLEEP_TIME then delay duration_ms
  else
    sleeping ← attemptSleep duration_ms;
    sleeping ← negotiate duration_ms sleeping;
    if negb sleeping then mret tt else deep_sleep.

End WithSignal.

(** *** Observations on states and logs *)

(** The contents of the two analog control registers at each [SleepCpu] of
    a log. *)
Definition asleep_with (l : list op) : list (Z * Z) :=
  flat_map (fun o => match o with
                     | SleepCpu adcsra acsr => [(adcsra, acsr)]
                     | _ => []
                     end) l.

(** The converter is on while [ADEN] is set. *)
Definition adc_enabled (adcsra : Z) : bool := Z.testbit adcsra ADEN.

(** The comparator is on while [ACD], its disable bit, is clear. *)
Definition comparator_enabled (acsr : Z) : bool := negb (Z.testbit acsr ACD).

(** Both analog control registers hold in [s'] what they hold in [s]. *)
Definition same_analog (s s' : Mcu) : Prop :=
  ADCSRA s' = ADCSRA s /\ ACSR s' = ACSR s.

(** The line reads "ready to sleep" in the polling loop. *)
Definition ready (p : Z) : bool := Z.land p (_BV 3) >? 0.

(** The sleep machinery is untouched between two states: the analog
    control registers, the interrupt flag and the sleep-enable latch. *)
Definition quiet (s s' : Mcu) : Prop :=
  ADCSRA s' = ADCSRA s /\ ACSR s' = ACSR s /\
  I_flag s' = I_flag s /\ SE s' = SE s.

(** [v] with bit [bit] cleared, and set, as the compound assignments of the
    source compute them on an 8-bit register. *)
Definition clear_bit (v bit : Z) : Z := u8 (Z.land v (Z.lnot (_BV bit))).

Definition set_bit (v bit : Z) : Z := u8 (Z.lor v (_BV bit)).

(** A line that is never asserted. *)
Definition line_low : nat -> Z := fun _ => 0.

(** A line that is asserted from the start. *)
Definition line_high : nat -> Z := fun _ => 8.

(** A state with the converter on and the comparator on. *)
Definition both_on : Mcu := MkMcu 255 135 0 true false 0 [].

(** A state with the converter on and the comparator switched off. *)
Definition comparator_off : Mcu := MkMcu 255 135 128 true false 0 [].

End Power.

(** ** Runs of the framer *)

Module MidiMore.
Import Midi.

(** The number of buffered bytes a [midiRead] call needs to do anything: at
    a packet boundary the header and a four-byte message, inside a packet
    the message that the next byte announces. *)
Definition needed (d : Decoder) : nat :=
  if midiPacketBegin d then 5%nat
  else match inbound d with
       | [] => 1%nat
       | p :: _ =>
           if negb (Z.land (u8 p) (Z.shiftl 1 7) =? 0) then 4%nat else 2%nat
       end.

(** The bytes a [midiRead] call takes from the buffer when it has the bytes
    it needs: the header when it starts at a packet boundary, and the message
    behind it, four bytes when its first byte has the high bit set, two
    otherwise. *)
Definition taken (d : Decoder) : nat :=
  let head := if midiPacketBegin d then 1%nat else 0%nat in
  let first := nth head (inbound d) 0 in
  let message :=
    if negb (Z.land (u8 first) (Z.shiftl 1 7) =? 0) then 4%nat else 2%nat in
  (head + message)%nat.

(** [n] successive calls of [midiPacketSend]. *)
Fixpoint drain (n : nat) (m : MidiState) : MidiState :=
  match n with
  | O => m
  | S n' => drain n' (snd (midiPacketSend m))
  end.

(** The records of a packet: its bytes behind the header. *)
Definition records (packet : list Z) : list Z := drop 1 packet.

End MidiMore.

(** ** The rest of the sequencer: [keepAwake] and what a log tells *)

Module PowerMore.
Import Midi Power.

(** The members of [BeanClass] that [keepAwake] writes, with the state of
    the microcontroller: the decoder session, [midiTimeStampDiff], and the
    registers and log. *)
Record Bean : Type := MkBean {
  session : Decoder;
  midiTimeStampDiff : Z;
  mcu : Mcu
}.

(** [void BeanClass::keepAwake(bool enable)]. *)
Definition keepAwake (enable : bool) (b : Bean) : Bean :=
  let d := set_lastStatus 0 (session b) in
  let diff := 0 in
  let d := set_midiPacketBegin true d in
  let m :=
    if enable
    then snd (emit (BTConfigUartSleep UART_SLEEP_NEVER) (mcu b))
    else snd (emit (BTConfigUartSleep UART_SLEEP_NORMAL) (mcu b)) in
  MkBean d diff m.

(** The milliseconds spent in [delay] by the calls of a log. *)
Definition waited (l : list op) : Z :=
  fold_right (fun o acc => match o with Delay ms => ms + acc | _ => acc end)
    0 l.

(** The calls of the negotiation with the co-processor: waits and transport
    calls, nothing of the deep-sleep entry. *)
Definition negotiation_op (o : op) : bool :=
  match o with
  | Delay _ | BTConfigUartSleep _ | SerialSleep _ | SerialFlush => true
  | _ => false
  end.

Definition is_uart_config (o : op) : bool :=
  match o with BTConfigUartSleep _ => true | _ => false end.

(** The UART sleep mode in force after a log: the mode of its last
    [BTConfigUartSleep]. *)
Definition uart_sleep_of (l : list op) : option uart_sleep_mode :=
  fold_left (fun acc o => match o with
                          | BTConfigUartSleep mode => Some mode
                          | _ => acc
                          end) l None.

(** The calls of the deep-sleep entry when the processor is put to sleep
    with [a] in [ADCSRA] and [c] in [ACSR], and when the re-check of the line
    fails. *)
Definition slept_ops (a c : Z) : list op :=
  [AttachInterrupt 1 LOW; SetSleepModePwrDown; Cli; SleepEnable;
   SleepBodDisable; Sei; SleepCpu a c; SleepDisable; Sei; DetachInterrupt 1].

Definition skipped_ops : list op :=
  [AttachInterrupt 1 LOW; SetSleepModePwrDown; Cli; Sei; DetachInterrupt 1].

(** A line that is asserted from read [k] on, and one that is asserted at
    read [k] only. *)
Definition line_from (k : nat) : nat -> Z :=
  fun n => if (k <=? n)%nat then 8 else 0.

Definition line_at (k : nat) : nat -> Z :=
  fun n => if (n =? k)%nat then 8 else 0.

Definition no_uart_config (o : op) : bool := negb (is_uart_config o).

(** The log grows from [s] to [s'] by calls other than
    [Serial.BTConfigUartSleep]. *)
Definition plain (s s' : Mcu) : Prop :=
  exists l, log s' = log s ++ l /\ forallb no_uart_config l = true.

End PowerMore.

(** ** Battery voltage *)

Module Battery.

(** Conversion to [uint16_t]. *)
Definition u16 (x : Z) : Z := x mod 65536.

(** [uint16_t BeanClass::getBatteryVoltage(void)], as a function of the
    value that [Serial.batteryRead] leaves in the local [level] (which is 0
    when the transport writes nothing). Every operand is a [uint32_t]. *)
Definition getBatteryVoltage (level : Z) : Z :=
  let actualVoltage :=
    u32 (u32 (u32 (u32 (u32 100 * u32 level) + u32 12426) * u32 100)
         / u32 6353) in
  u16 actualVoltage.

End Battery.

(** ** The scratch characteristics *)

Module Scratch.

Definition MAX_SCRATCH_SIZE : Z := 20.

(** [BT_SCRATCH_T]: the bank number and the 20 data bytes. *)
Record BT_SCRATCH_T : Type := MkScratch {
  number : Z;
  scratch : list Z
}.

(** A call [Serial.BTSetScratchChar(&scratch, length)]. *)
Record SetScratchCall : Type := MkSetScratch {
  set_scratch : BT_SCRATCH_T;
  set_length : Z
}.

(** [memcpy(dst, src, n)] on arrays given as lists; [src] and [dst] hold at
    least [n] bytes. *)
Definition memcpy (dst src : list Z) (n : Z) : list Z :=
  take (Z.to_nat n) src ++ drop (Z.to_nat n) dst.

(** [bool BeanClass::setScratchData(uint8_t bank, const uint8_t *data,
    uint8_t dataLength)]: the result and the transport call, if one is made.
    [junk] is what the local [scratch.scratch] holds before the copy. *)
Definition setScratchData (bank : Z) (data : list Z) (dataLength : Z)
    (junk : list Z) : bool * option SetScratchCall :=
  if dataLength <=? MAX_SCRATCH_SIZE then
    let sc := MkScratch bank (memcpy junk data dataLength) in
    (true, Some (MkSetScratch sc (u8 (dataLength + 1))))
  else (false, None).

(** [bool BeanClass::setScratchNumber(uint8_t bank, uint32_t data)]. *)
Definition setScratchNumber (bank : Z) (data : Z) (junk : list Z)
    : bool * option SetScratchCall :=
  let sc := junk in
  let sc := <[0%nat := u8 (Z.land data 255)]> sc in
  let sc := <[1%nat := u8 (Z.shiftr data 8)]> sc in
  let sc := <[2%nat := u8 (Z.shiftr data 16)]> sc in
  let sc := <[3%nat := u8 (Z.shiftr data 24)]> sc in
  (true, Some (MkSetScratch (MkScratch bank sc) (4 + 1))).

(** The bytes a [BTSetScratchChar] call passes on: the first [length] bytes
    of the struct, the bank byte and the data behind it (the length counts
    the bank byte, as the source notes at both calls). *)
Definition sent_bytes (c : SetScratchCall) : list Z :=
  take (Z.to_nat (set_length c)) (number (set_scratch c) :: scratch (set_scratch c)).

Definition sent (r : bool * option SetScratchCall) : list Z :=
  match snd r with
  | Some c => sent_bytes c
  | None => []
  end.

(** Conversion to [long], 32 bits in two's complement on the AVR. *)
Definition to_long (x : Z) : Z := (x + 2147483648) mod 4294967296 - 2147483648.

(** [long BeanClass::readScratchNumber(uint8_t bank)], as a function of the
    20 bytes [data] of the buffer after [Serial.BTGetScratchChar]; the
    buffer is zeroed before the call. *)
Definition readScratchNumber (data : list Z) : Z :=
  let returnNum := 0 in
  let returnNum :=
    to_long (Z.lor returnNum (Z.land (to_long (nth 0 data 0)) 255)) in
  let returnNum :=
    to_long (Z.lor returnNum (to_long (Z.shiftl (to_long (nth 1 data 0)) 8))) in
  let returnNum :=
    to_long (Z.lor returnNum (to_long (Z.shiftl (to_long (nth 2 data 0)) 16))) in
  let returnNum :=
    to_long (Z.lor returnNum (to_long (Z.shiftl (to_long (nth 3 data 0)) 24))) in
  returnNum.

(** The buffer of [readScratchNumber] when the transport delivers [bytes]:
    the zeroed 20 bytes with [bytes] written at the front. *)
Definition delivered (bytes : list Z) : list Z :=
  memcpy (replicate 20 0) bytes (Z.of_nat (length bytes)).

End Scratch.

(** ** Pin-change interrupts *)

Module PinChange.

(** Bit numbers of the ATmega328P ([avr/io.h]). *)
Definition PCIE0 : Z := 0.
Definition PCIE2 : Z := 2.
Definition PCINT1 : Z := 1.
Definition PCINT2 : Z := 2.
Definition PCINT3 : Z := 3.
Definition PCINT4 : Z := 4.
Definition PCINT5 : Z := 5.
Definition PCINT22 : Z := 6.

Section WithHandler.

(** The functions a sketch can pass as [userFunc]; [None] is [NULL]. *)
Variable handler : Type.

(** The three pin-change registers and the one handler [intFunc]. *)
Record Pcint : Type := MkPcint {
  PCICR : Z;
  PCMSK0 : Z;
  PCMSK2 : Z;
  intFunc : option handler
}.

Definition set_intFunc (f : option handler) (s : Pcint) : Pcint :=
  MkPcint (PCICR s) (PCMSK0 s) (PCMSK2 s) f.

(** [PCICR |= _BV(PCIE0); PCMSK0 |= _BV(bit);] *)
Definition attach0 (bit : Z) (s : Pcint) : Pcint :=
  MkPcint (u8 (Z.lor (PCICR s) (_BV PCIE0)))
          (u8 (Z.lor (PCMSK0 s) (_BV bit))) (PCMSK2 s) (intFunc s).

(** [PCICR |= _BV(PCIE2); PCMSK2 |= _BV(bit);] *)
Definition attach2 (bit : Z) (s : Pcint) : Pcint :=
  MkPcint (u8 (Z.lor (PCICR s) (_BV PCIE2))) (PCMSK0 s)
          (u8 (Z.lor (PCMSK2 s) (_BV bit))) (intFunc s).

(** [PCICR &= ~_BV(PCIE0); PCMSK0 &= ~_BV(bit);] *)
Definition detach0 (bit : Z) (s : Pcint) : Pcint :=
  MkPcint (u8 (Z.land (PCICR s) (Z.lnot (_BV PCIE0))))
          (u8 (Z.land (PCMSK0 s) (Z.lnot (_BV bit)))) (PCMSK2 s) (intFunc s).

(** [PCICR &= ~_BV(PCIE2); PCMSK2 &= ~_BV(bit);] *)
Definition detach2 (bit : Z) (s : Pcint) : Pcint :=
  MkPcint (u8 (Z.land (PCICR s) (Z.lnot (_BV PCIE2)))) (PCMSK0 s)
          (u8 (Z.land (PCMSK2 s) (Z.lnot (_BV bit)))) (intFunc s).

(** [void BeanClass::attachChangeInterrupt(uint8_t pin, userFunc)], with
    [userFunc] a pointer to a function without arguments or result. *)
Definition attachChangeInterrupt (pin : Z) (userFunc : option handler)
    (s : Pcint) : Pcint :=
  let s :=
    match pin with
    | 0 => attach2 PCINT22 s
    | 1 => attach0 PCINT1 s
    | 2 => attach0 PCINT2 s
    | 3 => attach0 PCINT3 s
    | 4 => attach0 PCINT4 s
    | 5 => attach0 PCINT5 s
    | _ => s
    end in
  set_intFunc userFunc s.

(** [void BeanClass::detachChangeInterrupt(uint8_t pin)] *)
Definition detachChangeInterrupt (pin : Z) (s : Pcint) : Pcint :=
  let s :=
    match pin with
    | 0 => detach2 PCINT22 s
    | 1 => detach0 PCINT1 s
    | 2 => detach0 PCINT2 s
    | 3 => detach0 PCINT3 s
    | 4 => detach0 PCINT4 s
    | 5 => detach0 PCINT5 s
    | _ => s
    end in
  set_intFunc None s.

(** A change on [pin] raises its pin-change interrupt: the group is enabled
    in [PCICR] and the pin's bit is set in the group's mask (pin 0 is
    PCINT22 of group 2, pins 1 to 5 are PCINT1 to PCINT5 of group 0). *)
Definition pin_enabled (s : Pcint) (pin : Z) : bool :=
  if pin =? 0 then Z.testbit (PCICR s) PCIE2 && Z.testbit (PCMSK2 s) PCINT22
  else Z.testbit (PCICR s) PCIE0 && Z.testbit (PCMSK0 s) pin.

End WithHandler.

Arguments MkPcint {handler}.
Arguments PCICR {handler}.
Arguments PCMSK0 {handler}.
Arguments PCMSK2 {handler}.
Arguments intFunc {handler}.
Arguments attachChangeInterrupt {handler}.
Arguments detachChangeInterrupt {handler}.
Arguments pin_enabled {handler}.

End PinChange.

(** ** Typing over HID *)

Module Hid.

(** Conversion to [int], 16 bits in two's complement on the AVR. *)
Definition to_int (x : Z) : Z := (x + 32768) mod 65536 - 32768.

(** Conversion to [unsigned int]. *)
Definition to_unsigned (x : Z) : Z := x mod 65536.

Section WithKeyboard.

(** What the [n]-th call of [BeanKeyboard.write] returns for a character. *)
Variable write_result : nat -> Z -> Z.

(** The status so far and the characters passed to [BeanKeyboard.write]. *)
Definition Typing : Type := (Z * list Z)%type.

(** The [for] loop of [HIDWrite], at index [i] with [count] rounds to go. *)
Fixpoint HIDWrite_loop (count : nat) (i : nat) (s : list Z) (t : Typing)
    : Typing :=
  match count with
  | O => t
  | S count' =>
      let c := nth i s 0 in
      HIDWrite_loop count' (S i) s
        (to_int (Z.lor (fst t) (write_result i c)), snd t ++ [c])
  end.

(** [int BeanClass::HIDWrite(String s)]: the result and the characters
    typed. *)
Definition HIDWrite (s : list Z) : Typing :=
  let status := 0 in
  let maxIndex := to_int (to_unsigned (Z.of_nat (length s)) - 1) in
  HIDWrite_loop (Z.to_nat maxIndex) 0 s (status, []).

End WithKeyboard.

End Hid.

(** ** The advertised name *)

Module BeanName.

Section WithSize.

(** [MAX_LOCAL_NAME_SIZE], the size of [config.local_name] and of the
    static buffer [myChar]. *)
Variable MAX_LOCAL_NAME_SIZE : Z.

(** The loop [for (int i = nameSize; i < MAX_LOCAL_NAME_SIZE; i++)
    myChar[i] = 0;] with [count] rounds to go. *)
Fixpoint terminate (count : nat) (i : nat) (myChar : list Z) : list Z :=
  match count with
  | O => myChar
  | S count' => terminate count' (S i) (<[i := 0]> myChar)
  end.

(** [const char *BeanClass::getBeanName(void)]: the buffer [myChar] after
    the call. [result], [local_name] and [local_name_size] are what
    [Serial.BTGetConfig] returns and leaves in [config]; [myChar] is the
    static buffer as the previous call left it. *)
Definition getBeanName (result : Z) (local_name : list Z)
    (local_name_size : Z) (myChar : list Z) : list Z :=
  let nameSize := MAX_LOCAL_NAME_SIZE in
  let '(nameSize, myChar) :=
    if negb (-1 =? result) then
      let nameSize :=
        if local_name_size <? MAX_LOCAL_NAME_SIZE then local_name_size
        else MAX_LOCAL_NAME_SIZE in
      (nameSize, Scratch.memcpy myChar local_name nameSize)
    else (nameSize, myChar) in
  terminate (Z.to_nat (MAX_LOCAL_NAME_SIZE - nameSize)) (Z.to_nat nameSize)
    myChar.

End WithSize.

End BeanName.

(** ** Motion events *)

Module Motion.

(** The constants of [Bean.h] and of the accelerometer's header that the
    motion functions use; their values are not part of this file. *)
Record Consts : Type := MkConsts {
  FLAT_EVENT : Z;
  ORIENT_EVENT : Z;
  SINGLE_TAP_EVENT : Z;
  DOUBLE_TAP_EVENT : Z;
  ANY_MOTION_EVENT : Z;
  HIGH_G_EVENT : Z;
  LOW_G_EVENT : Z;
  ENABLE_FLAT_INT : Z;
  ENABLE_ORIENT_INT : Z;
  ENABLE_SINGLE_TAP_INT : Z;
  ENABLE_DOUBLE_TAP_INT : Z;
  ENABLE_ANY_MOTION_INT : Z;
  ENABLE_HIGH_G_Z_INT : Z;
  ENABLE_HIGH_G_Y_INT : Z;
  ENABLE_HIGH_G_X_INT : Z;
  ENABLE_LOW_G_INT : Z;
  WAKE_FLAT_INT : Z;
  WAKE_ORIENT_INT : Z;
  WAKE_SINGLE_TAP_INT : Z;
  WAKE_DOUBLE_TAP_INT : Z;
  WAKE_ANY_MOTION_INT : Z;
  WAKE_HIGH_G_INT : Z;
  WAKE_LOW_G_INT : Z;
  REG_POWER_MODE_X11 : Z;
  REG_LATCH_CFG_X21 : Z;
  REG_INT_SETTING_X16 : Z;
  REG_INT_SETTING_X17 : Z;
  REG_INT_MAPPING_X19 : Z;
  REG_INT_STATUS_X09 : Z;
  VALUE_LATCHED : Z;
  VALUE_TEMPORARY_250MS : Z;
  VALUE_LOW_POWER_10MS : Z;
  VALUE_LOW_POWER_1S : Z;
  MASK_RESET_INT_LATCH : Z
}.

(** The calls made on the serial transport. *)
Inductive accel_op : Type :=
| AccelRegisterWrite (reg value : Z)
| AccelRegisterRead (reg length : Z)
| WakeOnAccel (enable : Z).

(** The two file-level statics and the calls made so far. *)
Record Accel : Type := MkAccel {
  enabledEvents : Z;
  triggeredEvents : Z;
  calls : list accel_op
}.

Definition call (o : accel_op) (s : Accel) : Accel :=
  MkAccel (enabledEvents s) (triggeredEvents s) (calls s ++ [o]).

Section WithConsts.

Variable K : Consts.

(** [void BeanClass::accelerometerConfig(uint16_t interrupts,
    uint8_t power_mode)] *)
Definition accelerometerConfig (interrupts power_mode : Z) (s : Accel)
    : Accel :=
  let s := call (AccelRegisterWrite (REG_POWER_MODE_X11 K) power_mode) s in
  let s := call (AccelRegisterWrite (REG_LATCH_CFG_X21 K) (VALUE_LATCHED K)) s in
  let s := call (AccelRegisterWrite (REG_INT_SETTING_X16 K)
                   (u8 (Z.shiftr interrupts 8))) s in
  call (AccelRegisterWrite (REG_INT_SETTING_X17 K)
          (u8 (Z.land interrupts 255))) s.

(** [void BeanClass::enableWakeOnAccelerometer(uint8_t sources)] *)
Definition enableWakeOnAccelerometer (sources : Z) (s : Accel) : Accel :=
  let s := call (AccelRegisterWrite (REG_LATCH_CFG_X21 K)
                   (VALUE_TEMPORARY_250MS K)) s in
  let s := call (AccelRegisterWrite (REG_INT_MAPPING_X19 K) sources) s in
  call (WakeOnAccel 1) s.

(** One [if (enabledEvents & EVENT) { enableRegister |= ENABLE;
    wakeRegister |= WAKE; }] on the pair of the two local registers. *)
Definition enable_if (enabled event enable wake : Z) (r : Z * Z) : Z * Z :=
  if negb (Z.land enabled event =? 0) then
    (Battery.u16 (Z.lor (fst r) enable), u8 (Z.lor (snd r) wake))
  else r.

(** The local [enableRegister] and [wakeRegister] of [enableMotionEvent]
    after its seven tests. *)
Definition motion_registers (enabled : Z) : Z * Z :=
  let r := (0, 0) in
  let r := enable_if enabled (FLAT_EVENT K) (ENABLE_FLAT_INT K)
             (WAKE_FLAT_INT K) r in
  let r := enable_if enabled (ORIENT_EVENT K) (ENABLE_ORIENT_INT K)
             (WAKE_ORIENT_INT K) r in
  let r := enable_if enabled (SINGLE_TAP_EVENT K) (ENABLE_SINGLE_TAP_INT K)
             (WAKE_SINGLE_TAP_INT K) r in
  let r := enable_if enabled (DOUBLE_TAP_EVENT K) (ENABLE_DOUBLE_TAP_INT K)
             (WAKE_DOUBLE_TAP_INT K) r in
  let r := enable_if enabled (ANY_MOTION_EVENT K) (ENABLE_ANY_MOTION_INT K)
             (WAKE_ANY_MOTION_INT K) r in
  let r := enable_if enabled (HIGH_G_EVENT K)
             (Z.lor (Z.lor (ENABLE_HIGH_G_Z_INT K) (ENABLE_HIGH_G_Y_INT K))
                    (ENABLE_HIGH_G_X_INT K))
             (WAKE_HIGH_G_INT K) r in
  enable_if enabled (LOW_G_EVENT K) (ENABLE_LOW_G_INT K)
    (WAKE_LOW_G_INT K) r.

(** [void BeanClass::enableMotionEvent(uint8_t events)] *)
Definition enableMotionEvent (events : Z) (s : Accel) : Accel :=
  let s := MkAccel (u8 (Z.lor (enabledEvents s) events))
                   (triggeredEvents s) (calls s) in
  let '(enableRegister, wakeRegister) := motion_registers (enabledEvents s) in
  let s := MkAccel (enabledEvents s)
                   (u8 (Z.land (triggeredEvents s) (Z.lnot events)))
                   (calls s) in
  let s := accelerometerConfig enableRegister (VALUE_LOW_POWER_10MS K) s in
  enableWakeOnAccelerometer wakeRegister s.

(** [void BeanClass::disableMotionEvents()] *)
Definition disableMotionEvents (s : Accel) : Accel :=
  let s := MkAccel 0 (triggeredEvents s) (calls s) in
  accelerometerConfig 0 (VALUE_LOW_POWER_1S K) s.

(** [uint8_t BeanClass::checkAccelInterrupts()]; [value] and [latch_cfg]
    are what the two register reads leave in the locals of these names. *)
Definition checkAccelInterrupts (value latch_cfg : Z) (s : Accel)
    : Z * Accel :=
  let s := call (AccelRegisterRead (REG_INT_STATUS_X09 K) 2) s in
  let s := call (AccelRegisterRead (REG_LATCH_CFG_X21 K) 1) s in
  let latch_cfg := u8 (Z.lor latch_cfg (MASK_RESET_INT_LATCH K)) in
  let s := call (AccelRegisterWrite (REG_LATCH_CFG_X21 K) latch_cfg) s in
  (value, s).

(** [bool BeanClass::checkMotionEvent(uint8_t events)] *)
Definition checkMotionEvent (events : Z) (value latch_cfg : Z) (s : Accel)
    : bool * Accel :=
  let '(v, s) := checkAccelInterrupts value latch_cfg s in
  let s := MkAccel (enabledEvents s) (u8 (Z.lor (triggeredEvents s) v))
                   (calls s) in
  let eventOccurred := negb (Z.land (triggeredEvents s) events =? 0) in
  let s := MkAccel (enabledEvents s)
                   (u8 (Z.land (triggeredEvents s) (Z.lnot events)))
                   (calls s) in
  (eventOccurred, s).

(** The value last written to the register [reg] by the calls [l]. *)
Fixpoint last_write (reg : Z) (l : list accel_op) (before : option Z)
    : option Z :=
  match l with
  | [] => before
  | AccelRegisterWrite r v :: l' =>
      last_write reg l' (if r =? reg then Some v else before)
  | _ :: l' => last_write reg l' before
  end.

End WithConsts.

(** A table of constants on which the definitions can be run: the register
    addresses are those their names carry, the events and masks one bit
    each. *)
Definition sample : Consts :=
  MkConsts 128 64 32 16 8 4 2
           32768 16384 8192 4096 7 4 2 1 8
           128 64 32 16 4 2 1
           17 33 22 23 25 9
           15 1 84 94 128.

End Motion.

(** ** Advertised services *)

Module Services.

(** [ADV_SWITCH_ENABLED_T]: the six switches this file names, and [rest]
    for whatever else the structure holds. *)
Record ADV_SWITCH_ENABLED_T : Type := MkServices {
  standard : Z;
  hid : Z;
  midi : Z;
  ancs : Z;
  custom : Z;
  ibeacon : Z;
  rest : Z
}.

(** [memset(&services, 0, sizeof(ADV_SWITCH_ENABLED_T))] *)
Definition zeroed : ADV_SWITCH_ENABLED_T := MkServices 0 0 0 0 0 0 0.

(** [ADV_SWITCH_ENABLED_T BeanClass::getServices(void)]; [result] is what
    [Serial.readGATT] returns and [read] what it leaves in [services]. *)
Definition getServices (result : Z) (read : ADV_SWITCH_ENABLED_T)
    : ADV_SWITCH_ENABLED_T :=
  if result =? 0 then read else zeroed.

(** [void BeanClass::setServices(ADV_SWITCH_ENABLED_T services)]: the
    structure passed to [Serial.writeGATT]. *)
Definition setServices (services : ADV_SWITCH_ENABLED_T)
    : ADV_SWITCH_ENABLED_T := services.

(** [void BeanClass::resetServices(void)] *)
Definition resetServices : ADV_SWITCH_ENABLED_T :=
  let services := zeroed in
  let services :=
    MkServices 1 (hid services) (midi services) (ancs services)
      (custom services) (ibeacon services) (rest services) in
  setServices services.

(** [void BeanClass::enableHID(void)] *)
Definition enableHID (result : Z) (read : ADV_SWITCH_ENABLED_T)
    : ADV_SWITCH_ENABLED_T :=
  let curServices := getServices result read in
  let curServices :=
    MkServices (standard curServices) 1 (midi curServices)
      (ancs curServices) (custom curServices) (ibeacon curServices)
      (rest curServices) in
  setServices curServices.

(** [void BeanClass::enableMidi(void)] *)
Definition enableMidi (result : Z) (read : ADV_SWITCH_ENABLED_T)
    : ADV_SWITCH_ENABLED_T :=
  let curServices := getServices result read in
  let curServices :=
    MkServices (standard curServices) (hid curServices) 1
      (ancs curServices) (custom curServices) (ibeacon curServices)
      (rest curServices) in
  setServices curServices.

(** [void BeanClass::enableANCS(void)] *)
Definition enableANCS (result : Z) (read : ADV_SWITCH_ENABLED_T)
    : ADV_SWITCH_ENABLED_T :=
  let curServices := getServices result read in
  let curServices :=
    MkServices (standard curServices) (hid curServices) (midi curServices)
      1 (custom curServices) (ibeacon curServices) (rest curServices) in
  setServices curServices.

(** [void BeanClass::enableCustom(void)] *)
Definition enableCustom (result : Z) (read : ADV_SWITCH_ENABLED_T)
    : ADV_SWITCH_ENABLED_T :=
  let curServices := getServices result read in
  let curServices :=
    MkServices (standard curServices) (hid curServices) (midi curServices)
      (ancs curServices) 1 (ibeacon curServices) (rest curServices) in
  setServices curServices.

(** [void BeanClass::enableiBeacon(void)] *)
Definition enableiBeacon (result : Z) (read : ADV_SWITCH_ENABLED_T)
    : ADV_SWITCH_ENABLED_T :=
  let curServices := getServices result read in
  let curServices :=
    MkServices (standard curServices) (hid curServices) (midi curServices)
      (ancs curServices) (custom curServices) 1 (rest curServices) in
  setServices curServices.

End Services.

(** * Auxiliary facts *)

(** A boolean property checked on every number below [n] holds below
    [n]; used for facts on bytes that are settled by evaluation. *)
Lemma below_cases (n : nat) (f : Z -> bool) :
  forallb f (map Z.of_nat (seq 0 n)) = true ->
  forall x, 0 <= x < Z.of_nat n -> f x = true.
Proof.
  intros H x Hx. rewrite forallb_forall in H. apply H.
  apply in_map_iff. exists (Z.to_nat x). split; [lia|].
  apply in_seq. lia.
Qed.

(** Splits a goal that is a chain of conjunctions, and nothing else. *)
Ltac conjs := repeat match goal with |- _ /\ _ => split end.

(** * The ring buffer as a queue *)

Module MidiQueue.
Import Midi.

Lemma queued_length m : length (queued m) = pending m.
Proof. unfold queued. now rewrite length_map, length_seq. Qed.

Lemma full_pending m :
  ring_ok m -> (full m <-> pending m = 19%nat).
Proof.
  intros [_ Hw Hr]. unfold full, pending, MIDI_BUFFER_SIZE in *.
  split; intros H; revert H; Z.div_mod_to_equations; lia.
Qed.

Lemma pending_bound m : ring_ok m -> (pending m <= 19)%nat.
Proof.
  intros [_ Hw Hr]. unfold pending, MIDI_BUFFER_SIZE in *.
  Z.div_mod_to_equations. lia.
Qed.

(** A send into a ring that is not full stores the message behind the
    queued ones. *)
Lemma midiSend_not_full t s a b m :
  ring_ok m -> ~ full m ->
  exists m', midiSend t s a b m = (0, m') /\ ring_ok m' /\
             midiReadOffset m' = midiReadOffset m /\
             queued m' = queued m ++ [MidiMessage t s a b].
Proof.
  intros Hok Hnf. pose proof Hok as [Hlen Hw Hr].
  unfold full in Hnf. unfold midiSend.
  destruct (Z.eqb_spec ((midiWriteOffset m + 1) mod MIDI_BUFFER_SIZE)
              (midiReadOffset m)) as [E|_]; [contradiction|].
  eexists; split; [reflexivity|].
  unfold MIDI_BUFFER_SIZE in *. cbn [set_midiWriteOffset set_midiMessages
    midiWriteOffset midiReadOffset midiMessages midiPacket written].
  assert (Hw' : u8 (midiWriteOffset m + 1) mod 20 = (midiWriteOffset m + 1) mod 20).
  { unfold u8. rewrite (Z.mod_small (_ + 1) 256) by lia. reflexivity. }
  rewrite Hw'.
  split; [|split; [reflexivity|]].
  - constructor; cbn; unfold MIDI_BUFFER_SIZE.
    + now rewrite length_insert.
    + apply Z.mod_pos_bound. lia.
    + lia.
  - unfold queued, pending, message_at, MIDI_BUFFER_SIZE. cbn.
    set (n := Z.to_nat ((midiWriteOffset m - midiReadOffset m) mod 20)).
    assert (Hn : Z.of_nat n = (midiWriteOffset m - midiReadOffset m) mod 20).
    { subst n. rewrite Z2Nat.id; [reflexivity|]. apply Z.mod_pos_bound. lia. }
    replace (Z.to_nat (((midiWriteOffset m + 1) mod 20 - midiReadOffset m) mod 20))
      with (S n).
    2:{ apply Nat2Z.inj. rewrite Nat2Z.inj_succ, Hn.
        rewrite Z2Nat.id by (apply Z.mod_pos_bound; lia).
        revert Hnf. Z.div_mod_to_equations. lia. }
    rewrite seq_S, map_app. cbn [map Nat.add]. f_equal.
    + apply map_ext_in. intros i Hi. apply in_seq in Hi.
      apply list_lookup_total_insert_ne. intros Heq.
      apply (f_equal Z.of_nat) in Heq.
      rewrite !Z2Nat.id in Heq by (try apply Z.mod_pos_bound; lia).
      assert (Hi' : Z.of_nat i < Z.of_nat n) by lia.
      revert Heq Hi' Hn. Z.div_mod_to_equations. lia.
    + f_equal.
      replace (Z.to_nat ((midiReadOffset m + Z.of_nat n) mod 20))
        with (Z.to_nat (midiWriteOffset m)).
      * apply list_lookup_total_insert_eq. lia.
      * f_equal. rewrite Hn. Z.div_mod_to_equations. lia.
Qed.

Lemma pending_empty m :
  ring_ok m -> midiReadOffset m = midiWriteOffset m -> pending m = 0%nat.
Proof.
  intros [_ Hw Hr] E. unfold pending. rewrite E, Z.sub_diag. reflexivity.
Qed.

Lemma full_dec m : {full m} + {~ full m}.
Proof. unfold full. apply Z.eq_dec. Qed.

(** A run of sends fills the free slots in order and rejects the rest. *)
Lemma midiSendAll_fill calls : forall m,
  ring_ok m ->
  exists m',
    midiSendAll calls m =
      (replicate (min (length calls) (19 - pending m)) 0 ++
       replicate (length calls - (19 - pending m)) 1, m') /\
    ring_ok m' /\
    queued m' = queued m ++ take (19 - pending m) calls.
Proof.
  induction calls as [|c calls IH]; intros m Hok.
  - exists m. cbn. rewrite take_nil, app_nil_r. auto.
  - pose proof (pending_bound m Hok) as Hb.
    cbn [midiSendAll]. destruct (full_dec m) as [Hf|Hnf].
    + pose proof (proj1 (full_pending m Hok) Hf) as Hp.
      unfold midiSend. unfold full in Hf.
      rewrite (proj2 (Z.eqb_eq _ _) Hf).
      destruct (IH m Hok) as (m' & E & Hok' & Hq). rewrite E.
      exists m'. rewrite Hp in *. cbn in *. rewrite Nat.min_0_r in *.
      cbn in *. rewrite Nat.sub_0_r in *. auto.
    + assert (Hp : (pending m < 19)%nat).
      { destruct (Nat.eq_dec (pending m) 19%nat) as [E|]; [|lia].
        apply (full_pending m Hok) in E. contradiction. }
      destruct (midiSend_not_full (timestamp c) (status c) (byte1 c) (byte2 c)
                  m Hok Hnf) as (m1 & E1 & Hok1 & _ & Hq1).
      rewrite E1.
      assert (Hp1 : pending m1 = S (pending m)).
      { rewrite <- !queued_length, Hq1, length_app. cbn. lia. }
      destruct (IH m1 Hok1) as (m' & E & Hok' & Hq). rewrite E.
      exists m'. rewrite Hp1, Hq1 in *. destruct c as [t st a b]. cbn [timestamp status byte1 byte2] in *.
      replace (19 - pending m)%nat with (S (19 - S (pending m))) by lia.
      cbn [length take Nat.min Nat.sub replicate app].
      rewrite <- app_assoc in Hq. auto.
Qed.

Lemma startup_ok : ring_ok startup.
Proof. constructor; cbn; unfold MIDI_BUFFER_SIZE; lia. Qed.

End MidiQueue.

(** * The encoder, step by step *)

Module MidiEncode.
Import Midi MidiQueue.

Lemma loop_unfold m b ls lt_ :
  midiPacketSend_loop m b ls lt_ =
  if midiReadOffset m =? midiWriteOffset m then (m, b)
  else if snd (midiPacketSend_body m b ls lt_) + 4 >? BLE_PACKET_SIZE
       then midiPacketSend_body m b ls lt_
       else midiPacketSend_loop (fst (midiPacketSend_body m b ls lt_))
              (snd (midiPacketSend_body m b ls lt_)) ls lt_.
Proof.
  rewrite midiPacketSend_loop_equation_1.
  destruct (midiReadOffset m =? midiWriteOffset m); [reflexivity|].
  unfold midiPacketSend_loop_unfold_clause_1.
  destruct (inspect (snd (midiPacketSend_body m b ls lt_) + 4 >? BLE_PACKET_SIZE))
    as [[|] H];
    unfold midiPacketSend_loop_unfold_clause_1_clause_2; rewrite H; reflexivity.
Qed.

(** One write to the packet buffer inside its bounds. *)
Lemma put_take v m (b : nat) :
  packet_ok m -> (b < 20)%nat ->
  exists m1,
    put v (m, Z.of_nat b) = (m1, Z.of_nat (S b)) /\
    packet_ok m1 /\
    midiMessages m1 = midiMessages m /\
    midiWriteOffset m1 = midiWriteOffset m /\
    midiReadOffset m1 = midiReadOffset m /\
    written m1 = written m /\
    take (S b) (midiPacket m1) = take b (midiPacket m) ++ [v].
Proof.
  intros Hp Hb. unfold packet_ok, BLE_PACKET_SIZE in *.
  eexists. split.
  - unfold put. cbn [fst snd]. f_equal. unfold u8.
    rewrite Z.mod_small by lia. lia.
  - cbn. rewrite Nat2Z.id, length_insert.
    repeat split; try assumption.
    erewrite take_S_r by (apply list_lookup_insert_eq; lia).
    now rewrite take_insert_ge by lia.
Qed.

Lemma message_at_ok m i :
  ring_ok m -> messages_ok m -> 0 <= i < MIDI_BUFFER_SIZE ->
  msg_ok (message_at m i).
Proof.
  intros [Hlen _ _] Hm Hi. unfold messages_ok, message_at in *.
  rewrite Forall_forall in Hm. apply Hm.
  apply list_elem_of_lookup_total_2.
  unfold MIDI_BUFFER_SIZE in *. lia.
Qed.

(** With the locals at -1 the comparison of the loop fails for a stored
    status, which is a byte. *)
Lemma never_running e t :
  is_u8 (status e) -> (-1 =? status e) && (t =? timestamp e) = false.
Proof.
  intros [H _]. destruct (Z.eqb_spec (-1) (status e)); [lia|reflexivity].
Qed.

(** One round of the loop under the locals of [midiPacketSend]: the oldest
    message is written as a four-byte record and the read cursor advances. *)
Lemma body_timed m (b : nat) :
  ring_ok m -> messages_ok m -> packet_ok m -> (b <= 16)%nat ->
  exists m1,
    midiPacketSend_body m (Z.of_nat b) (-1) (-1) = (m1, Z.of_nat (4 + b)) /\
    packet_ok m1 /\
    midiMessages m1 = midiMessages m /\
    midiWriteOffset m1 = midiWriteOffset m /\
    midiReadOffset m1 = (midiReadOffset m + 1) mod MIDI_BUFFER_SIZE /\
    written m1 = written m /\
    take (4 + b) (midiPacket m1) =
      take b (midiPacket m) ++ timed_record (message_at m (midiReadOffset m)).
Proof.
  intros Hok Hm Hp Hb. pose proof Hok as [_ _ Hr].
  pose proof (message_at_ok m (midiReadOffset m) Hok Hm Hr) as (_ & Hs & _).
  unfold midiPacketSend_body. rewrite (never_running _ _ Hs).
  set (e := message_at m (midiReadOffset m)).
  destruct (put_take (ts_byte e) m b Hp ltac:(lia))
    as (m1 & E1 & Hp1 & Hmm1 & Hw1 & Hr1 & Hwr1 & Ht1).
  destruct (put_take (status e) m1 (S b) Hp1 ltac:(lia))
    as (m2 & E2 & Hp2 & Hmm2 & Hw2 & Hr2 & Hwr2 & Ht2).
  destruct (put_take (byte1 e) m2 (S (S b)) Hp2 ltac:(lia))
    as (m3 & E3 & Hp3 & Hmm3 & Hw3 & Hr3 & Hwr3 & Ht3).
  destruct (put_take (byte2 e) m3 (S (S (S b))) Hp3 ltac:(lia))
    as (m4 & E4 & Hp4 & Hmm4 & Hw4 & Hr4 & Hwr4 & Ht4).
  fold (ts_byte e). rewrite E1, E2, E3, E4. cbn [fst snd].
  eexists. split; [reflexivity|].
  cbn [set_midiReadOffset midiMessages midiPacket midiWriteOffset
       midiReadOffset written packet_ok].
  unfold packet_ok in *. cbn [midiPacket].
  assert (Hu : u8 (midiReadOffset m4 + 1) = midiReadOffset m + 1).
  { unfold u8, MIDI_BUFFER_SIZE in *. rewrite Hr4, Hr3, Hr2, Hr1.
    apply Z.mod_small. lia. }
  rewrite Hu.
  repeat split; try congruence; try exact Hp4.
  change (4 + b)%nat with (S (S (S (S b)))).
  rewrite Ht4, Ht3, Ht2, Ht1. unfold timed_record.
  now rewrite <- !app_assoc.
Qed.

Lemma pending_zero m :
  ring_ok m -> (pending m = 0%nat <-> midiReadOffset m = midiWriteOffset m).
Proof.
  intros [_ Hw Hr]. unfold pending, MIDI_BUFFER_SIZE in *.
  split; intros H; revert H; Z.div_mod_to_equations; lia.
Qed.

(** Advancing the read cursor drops the oldest queued message. *)
Lemma queued_advance m m1 :
  ring_ok m -> midiReadOffset m <> midiWriteOffset m ->
  midiMessages m1 = midiMessages m ->
  midiWriteOffset m1 = midiWriteOffset m ->
  midiReadOffset m1 = (midiReadOffset m + 1) mod MIDI_BUFFER_SIZE ->
  ring_ok m1 /\ queued m = message_at m (midiReadOffset m) :: queued m1.
Proof.
  intros Hok Hne Hmm Hw1 Hr1. pose proof Hok as [Hlen Hw Hr].
  assert (Hok1 : ring_ok m1).
  { constructor; rewrite ?Hmm, ?Hw1, ?Hr1; try assumption.
    apply Z.mod_pos_bound. unfold MIDI_BUFFER_SIZE. lia. }
  split; [exact Hok1|].
  assert (Hp : pending m = S (pending m1)).
  { unfold pending. rewrite Hw1, Hr1. unfold MIDI_BUFFER_SIZE in *.
    revert Hne. Z.div_mod_to_equations. lia. }
  unfold queued. rewrite Hp. cbn [seq map]. f_equal.
  - f_equal. rewrite Z.add_0_r. apply Z.mod_small. exact Hr.
  - rewrite <- seq_shift, map_map. apply map_ext. intros i.
    unfold message_at. rewrite Hmm, Hr1. do 2 f_equal.
    unfold MIDI_BUFFER_SIZE in *. Z.div_mod_to_equations. lia.
Qed.

(** The loop under the locals of [midiPacketSend], entered with room for
    [rounds] more records: it writes the oldest [min rounds (pending m)]
    messages as four-byte records and advances the read cursor past them. *)
Lemma loop_timed (rounds : nat) : forall m (b : nat),
  ring_ok m -> messages_ok m -> packet_ok m ->
  (1 <= rounds)%nat -> (b + 4 * rounds = 17)%nat ->
  exists m',
    midiPacketSend_loop m (Z.of_nat b) (-1) (-1) =
      (m', Z.of_nat (b + 4 * min rounds (pending m))) /\
    ring_ok m' /\ packet_ok m' /\
    midiMessages m' = midiMessages m /\
    midiWriteOffset m' = midiWriteOffset m /\
    written m' = written m /\
    queued m' = drop (min rounds (pending m)) (queued m) /\
    take (b + 4 * min rounds (pending m)) (midiPacket m') =
      take b (midiPacket m) ++
      flat_map timed_record (take (min rounds (pending m)) (queued m)).
Proof.
  induction rounds as [|rounds IH]; intros m b Hok Hm Hp Hr Hb; [lia|].
  rewrite loop_unfold.
  destruct (Z.eqb_spec (midiReadOffset m) (midiWriteOffset m)) as [He|Hne].
  - apply (pending_zero m Hok) in He. rewrite He, Nat.min_0_r.
    exists m. cbn [Nat.mul]. rewrite !Nat.add_0_r, app_nil_r.
    conjs; auto.
  - destruct (body_timed m b Hok Hm Hp ltac:(lia))
      as (m1 & E1 & Hp1 & Hmm1 & Hw1 & Hr1 & Hwr1 & Ht1).
    destruct (queued_advance m m1 Hok Hne Hmm1 Hw1 Hr1) as [Hok1 Hq].
    assert (Hm1 : messages_ok m1) by (unfold messages_ok; now rewrite Hmm1).
    assert (Hpend : pending m = S (pending m1)).
    { rewrite <- !queued_length, Hq. reflexivity. }
    rewrite E1. cbn [fst snd]. rewrite Hq, Hpend. unfold BLE_PACKET_SIZE.
    destruct rounds as [|rounds'].
    + replace (Z.of_nat (4 + b) + 4 >? 20) with true
        by (symmetry; rewrite Z.gtb_ltb; apply Z.ltb_lt; lia).
      exists m1. cbn [Nat.min take drop flat_map].
      rewrite app_nil_r. replace (b + 4 * 1)%nat with (4 + b)%nat by lia.
      conjs; auto.
    + replace (Z.of_nat (4 + b) + 4 >? 20) with false
        by (symmetry; rewrite Z.gtb_ltb; apply Z.ltb_ge; lia).
      destruct (IH m1 (4 + b)%nat Hok1 Hm1 Hp1 ltac:(lia) ltac:(lia))
        as (m' & E & Hok' & Hp' & Hmm' & Hw' & Hwr' & Hq' & Ht').
      exists m'. rewrite E.
      change (Nat.min (S (S rounds')) (S (pending m1)))
        with (S (Nat.min (S rounds') (pending m1))).
      cbn [take drop flat_map].
      replace (b + 4 * S (Nat.min (S rounds') (pending m1)))%nat
        with (4 + b + 4 * Nat.min (S rounds') (pending m1))%nat by lia.
      rewrite Ht', Ht1, <- app_assoc.
      conjs; auto; congruence.
Qed.

(** What [midiPacketSend] does on a ring that is not empty: it consumes the
    oldest [min 4 (pending m)] messages and hands the transport the header
    byte followed by one four-byte record for each of them. *)
Lemma midiPacketSend_timed m :
  ring_ok m -> messages_ok m -> packet_ok m ->
  midiReadOffset m <> midiWriteOffset m ->
  exists m',
    midiPacketSend m = (Z.of_nat (1 + 4 * min 4 (pending m)), m') /\
    ring_ok m' /\ packet_ok m' /\
    midiMessages m' = midiMessages m /\
    midiWriteOffset m' = midiWriteOffset m /\
    queued m' = drop (min 4 (pending m)) (queued m) /\
    written m' = written m ++
      [header (message_at m (midiReadOffset m)) ::
       flat_map timed_record (take (min 4 (pending m)) (queued m))].
Proof.
  intros Hok Hm Hp Hne. unfold midiPacketSend.
  destruct (Z.eqb_spec (midiReadOffset m) (midiWriteOffset m)); [contradiction|].
  fold (header (message_at m (midiReadOffset m))).
  destruct (put_take (header (message_at m (midiReadOffset m))) m 0 Hp ltac:(lia))
    as (m0 & E0 & Hp0 & Hmm0 & Hw0 & Hr0 & Hwr0 & Ht0).
  change (Z.of_nat 0) with 0 in E0. rewrite E0. cbn [fst snd].
  assert (Hok0 : ring_ok m0).
  { destruct Hok. constructor; rewrite ?Hmm0, ?Hw0, ?Hr0; assumption. }
  assert (Hm0 : messages_ok m0) by (unfold messages_ok; now rewrite Hmm0).
  assert (Hq0 : queued m0 = queued m).
  { unfold queued, pending, message_at. now rewrite Hmm0, Hw0, Hr0. }
  assert (Hpend0 : pending m0 = pending m).
  { unfold pending. now rewrite Hw0, Hr0. }
  destruct (loop_timed 4 m0 1 Hok0 Hm0 Hp0 ltac:(lia) ltac:(lia))
    as (m' & E & Hok' & Hp' & Hmm' & Hw' & Hwr' & Hq' & Ht').
  rewrite Hq0, Hpend0 in *.
  rewrite E. cbn [fst snd].
  eexists. split; [reflexivity|].
  unfold write_message, packet_ok in *.
  cbn [midiMessages midiPacket midiWriteOffset midiReadOffset written].
  conjs; try congruence.
  - destruct Hok'. constructor; assumption.
  - unfold queued, pending, message_at in *.
    cbn [midiMessages midiWriteOffset midiReadOffset]. exact Hq'.
  - rewrite Nat2Z.id, Ht', Hwr', Hwr0. cbn [take app] in Ht0.
    now rewrite Ht0.
Qed.

Lemma consumed_timed m :
  ring_ok m -> messages_ok m -> packet_ok m ->
  midiReadOffset m <> midiWriteOffset m ->
  consumed m = take (min 4 (pending m)) (queued m) /\ consumed m <> [].
Proof.
  intros Hok Hm Hp Hne.
  destruct (midiPacketSend_timed m Hok Hm Hp Hne)
    as (m' & E & Hok' & _ & _ & _ & Hq & _).
  assert (Hpend : pending m <> 0%nat).
  { intros H. apply (pending_zero m Hok) in H. contradiction. }
  assert (Hc : consumed m = take (min 4 (pending m)) (queued m)).
  { unfold consumed. rewrite E. cbn [snd]. f_equal.
    rewrite <- (queued_length m'), Hq, length_drop, queued_length.
    lia. }
  split; [exact Hc|]. rewrite Hc. intros Hnil.
  apply (f_equal length) in Hnil.
  rewrite length_take, queued_length in Hnil. cbn [length] in Hnil. lia.
Qed.

(** Every reachable state is well formed, so the conditions of the facts
    above hold for the states the program is in. *)
Lemma reachable_ok m :
  reachable m -> ring_ok m /\ messages_ok m /\ packet_ok m.
Proof.
  induction 1 as [|t s a b m Hr (Hok & Hm & Hp) Ht Hs Ha Hb
                  |m Hr (Hok & Hm & Hp)].
  - conjs; [apply startup_ok | | reflexivity].
    unfold messages_ok. cbn [midiMessages startup].
    apply Forall_replicate. unfold msg_ok, is_u32, is_u8. cbn. lia.
  - destruct (full_dec m) as [Hf|Hnf].
    + unfold full in Hf. unfold midiSend.
      rewrite (proj2 (Z.eqb_eq _ _) Hf). auto.
    + destruct (midiSend_not_full t s a b m Hok Hnf) as (m' & E & Hok' & _).
      rewrite E. cbn [snd]. split; [exact Hok'|].
      unfold midiSend in E. unfold full in Hnf.
      destruct (Z.eqb_spec ((midiWriteOffset m + 1) mod MIDI_BUFFER_SIZE)
                  (midiReadOffset m)); [contradiction|].
      injection E as <-. unfold messages_ok, packet_ok in *.
      cbn [set_midiWriteOffset set_midiMessages midiMessages midiPacket].
      split; [|exact Hp].
      apply Forall_insert; [exact Hm|]. unfold msg_ok. auto.
  - destruct (Z.eq_dec (midiReadOffset m) (midiWriteOffset m)) as [He|Hne].
    + unfold midiPacketSend. rewrite (proj2 (Z.eqb_eq _ _) He). auto.
    + destruct (midiPacketSend_timed m Hok Hm Hp Hne)
        as (m' & E & Hok' & Hp' & Hmm & _).
      rewrite E. cbn [snd]. conjs; try assumption.
      unfold messages_ok. now rewrite Hmm.
Qed.

End MidiEncode.

(** * Properties of the MIDI ring buffer *)

Module MidiRing.
Import Midi MidiQueue.

(** C4. A [midiSend] into a full ring (advancing the write cursor would make
    it equal the read cursor) returns 1, the failure result, and leaves the
    whole state as it was: write cursor, read cursor and every stored
    message. *)
Theorem midiSend_full_unchanged (millisec status byte1 byte2 : Z) (m : MidiState) :
  full m ->
  midiSend millisec status byte1 byte2 m = (1, m).
Proof.
  unfold full, midiSend. intros Hf.
  now rewrite (proj2 (Z.eqb_eq _ _) Hf).
Qed.

Lemma midiSend_full_unchanged_witness :
  let m := snd (midiSendAll (notes 0 19) startup) in
  full m /\ midiSend 500 144 60 100 m = (1, m).
Proof.
  assert (Hf : full (snd (midiSendAll (notes 0 19) startup))) by reflexivity.
  split; [exact Hf | exact (midiSend_full_unchanged 500 144 60 100 _ Hf)].
Defined.

(** C3, as the code has it. The ring of [MIDI_BUFFER_SIZE] = 20 slots keeps
    one slot free: starting from an empty ring, in every run of at least 20
    [midiSend] calls the first 19 succeed, the 20th and all later ones fail,
    and the ring holds exactly the first 19 messages in order. *)
Theorem midiSend_capacity (calls : list midiMessage) (m : MidiState) :
  ring_ok m ->
  midiReadOffset m = midiWriteOffset m ->
  (20 <= length calls)%nat ->
  fst (midiSendAll calls m) =
    replicate 19 0 ++ replicate (length calls - 19) 1 /\
  queued (snd (midiSendAll calls m)) = take 19 calls.
Proof.
  intros Hok He Hlen.
  destruct (midiSendAll_fill calls m Hok) as (m' & E & _ & Hq).
  pose proof (pending_empty m Hok He) as Hp.
  rewrite E. cbn [fst snd]. rewrite Hq. unfold queued at 1.
  rewrite Hp. cbn [seq map app Nat.sub].
  replace (Nat.min (length calls) 19) with 19%nat by lia. auto.
Qed.

Lemma midiSend_capacity_witness :
  fst (midiSendAll (notes 0 21) startup) = replicate 19 0 ++ [1; 1] /\
  queued (snd (midiSendAll (notes 0 21) startup)) = notes 0 19.
Proof.
  apply (midiSend_capacity (notes 0 21) startup startup_ok eq_refl).
  cbn. lia.
Defined.

(** C3 as worded fails: after 21 calls on the empty ring the ring does not
    hold the first 20 messages. *)
Lemma retains_first_20_fails : ~ retains_first 20 (notes 0 21) startup.
Proof.
  intros [_ H]. vm_compute in H. discriminate H.
Qed.

End MidiRing.

(** * Properties of the decoder *)

Module MidiDecode.
Import Midi.

(** C9. A [midiRead] whose four-byte message is the sentinel
    {0xFF,0xFF,0xFF,0xFF} returns 0 and leaves the session at a packet
    boundary ([midiPacketBegin] true), with the four bytes consumed. The
    message of a call is what is buffered behind its header step: the call
    may start inside a packet or at a boundary with the header byte in
    front. The three variables of the caller hold 0xFF afterwards; the
    result 0 tells the caller that no event was decoded. *)
Theorem midiRead_sentinel (d : Decoder) (o : Outs) (rest : list Z) :
  midiPacketBegin (midiRead_header d) = false ->
  inbound (midiRead_header d) = sentinel ++ rest ->
  midiRead d o = (0, MkOuts 255 255 255, MkDecoder true 255 rest).
Proof.
  intros Hb Hin. unfold midiRead, midiRead_body.
  rewrite Hb. unfold midiAvailable, peekMidi, readMidi. rewrite Hin.
  cbn [sentinel app length hd negb].
  replace (Z.of_nat (S (S (S (S (length rest))))) >? 0) with true
    by (symmetry; rewrite Z.gtb_ltb; apply Z.ltb_lt; lia).
  replace (Z.of_nat (S (S (S (S (length rest))))) >=? 4) with true
    by (symmetry; rewrite Z.geb_leb; apply Z.leb_le; lia).
  reflexivity.
Qed.

Lemma midiRead_sentinel_witness :
  midiRead (MkDecoder false 144 [255; 255; 255; 255; 128; 144]) (MkOuts 1 2 3)
    = (0, MkOuts 255 255 255, MkDecoder true 255 [128; 144]) /\
  midiRead (MkDecoder true 144 [130; 255; 255; 255; 255]) (MkOuts 1 2 3)
    = (0, MkOuts 255 255 255, MkDecoder true 255 []).
Proof.
  split.
  - exact (midiRead_sentinel (MkDecoder false 144 [255; 255; 255; 255; 128; 144])
             (MkOuts 1 2 3) [128; 144] eq_refl eq_refl).
  - exact (midiRead_sentinel (MkDecoder true 144 [130; 255; 255; 255; 255])
             (MkOuts 1 2 3) [] eq_refl eq_refl).
Defined.

(** With nothing buffered [midiRead] returns 0 and changes nothing. *)
Lemma midiRead_no_data (b : bool) (ls : Z) (o : Outs) :
  midiRead (MkDecoder b ls []) o = (0, o, MkDecoder b ls []).
Proof. destruct b; reflexivity. Qed.

(** C10. A [midiRead] that takes the running-status branch (behind the
    header step the next byte [p] has its high bit clear and a second byte
    [q] is buffered) returns [p], consumes the two bytes and writes the
    status inherited from [lastStatus] and both data bytes to the caller's
    variables. For [p] = 0 the result is 0, the result of a call that found
    no event. *)
Theorem midiRead_running_status (d : Decoder) (o : Outs) (p q : Z) (rest : list Z) :
  midiPacketBegin (midiRead_header d) = false ->
  inbound (midiRead_header d) = p :: q :: rest ->
  0 <= p < 128 ->
  midiRead d o =
    (p, MkOuts (u8 (lastStatus d)) p q, MkDecoder false (lastStatus d) rest) /\
  (p = 0 -> fst (fst (midiRead d o)) = 0).
Proof.
  intros Hb Hin Hp.
  assert (Hls : lastStatus (midiRead_header d) = lastStatus d).
  { unfold midiRead_header. destruct (midiPacketBegin d); [|reflexivity].
    destruct (midiAvailable d >? 4); reflexivity. }
  assert (E : midiRead d o =
    (p, MkOuts (u8 (lastStatus d)) p q, MkDecoder false (lastStatus d) rest)).
  { unfold midiRead, midiRead_body.
    rewrite Hb. unfold midiAvailable, peekMidi, readMidi. rewrite Hin, Hls, Hb.
    cbn [length hd negb].
    replace (Z.of_nat (S (S (length rest))) >? 0) with true
      by (symmetry; rewrite Z.gtb_ltb; apply Z.ltb_lt; lia).
    replace (Z.of_nat (S (S (length rest))) >=? 2) with true
      by (symmetry; rewrite Z.geb_leb; apply Z.leb_le; lia).
    assert (Hu : u8 p = p) by (apply Z.mod_small; lia).
    rewrite Hu.
    assert (Hbit : Z.land p (Z.shiftl 1 7) = 0).
    { apply Z.eqb_eq.
      apply (below_cases 128 (fun p => Z.land p (Z.shiftl 1 7) =? 0));
        [vm_compute; reflexivity | exact Hp]. }
    rewrite Hbit. reflexivity. }
  split; [exact E|]. intros ->. rewrite E. reflexivity.
Qed.

Lemma midiRead_running_status_witness :
  midiRead (MkDecoder false 144 [0; 64; 9]) (MkOuts 1 2 3)
    = (0, MkOuts 144 0 64, MkDecoder false 144 [9]) /\
  (0 = 0 -> fst (fst (midiRead (MkDecoder false 144 [0; 64; 9]) (MkOuts 1 2 3))) = 0).
Proof.
  apply (midiRead_running_status (MkDecoder false 144 [0; 64; 9])
           (MkOuts 1 2 3) 0 64 [9] eq_refl eq_refl).
  lia.
Defined.

End MidiDecode.

(** * Encoding a packet and decoding it again *)

Module MidiRoundTrip.
Import Midi MidiQueue MidiEncode MidiDecode.

Lemma ts_byte_value e : ts_byte e = 128 + timestamp e mod 128.
Proof.
  unfold ts_byte.
  assert (Hx : 0 <= u8 (timestamp e) < Z.of_nat 256)
    by (apply Z.mod_pos_bound; lia).
  assert (Hm : timestamp e mod 128 = u8 (timestamp e) mod 128).
  { unfold u8. Z.div_mod_to_equations. lia. }
  rewrite Hm. apply Z.eqb_eq.
  apply (below_cases 256
           (fun x => u8 (Z.lor x (Z.shiftl 1 7)) =? 128 + x mod 128));
    [vm_compute; reflexivity | exact Hx].
Qed.

Lemma ts_byte_marked e :
  u8 (ts_byte e) = ts_byte e /\
  negb (Z.land (ts_byte e) (Z.shiftl 1 7) =? 0) = true.
Proof.
  rewrite ts_byte_value.
  assert (Hx : 0 <= timestamp e mod 128 < Z.of_nat 128)
    by (apply Z.mod_pos_bound; lia).
  revert Hx. generalize (timestamp e mod 128). intros x Hx.
  split.
  - apply Z.mod_small. lia.
  - apply (below_cases 128
             (fun x => negb (Z.land (128 + x) (Z.shiftl 1 7) =? 0)));
      [vm_compute; reflexivity | exact Hx].
Qed.

(** A [midiRead] whose message is the four-byte record of [e], not the
    sentinel, reports [e]. *)
Lemma midiRead_timed d o e rest :
  midiPacketBegin (midiRead_header d) = false ->
  inbound (midiRead_header d) = timed_record e ++ rest ->
  timed_record e <> sentinel ->
  midiRead d o =
    (ts_byte e, MkOuts (status e) (byte1 e) (byte2 e),
     MkDecoder false (status e) rest).
Proof.
  intros Hb Hin Hns. unfold midiRead, midiRead_body.
  rewrite Hb. unfold midiAvailable, peekMidi, readMidi. rewrite Hin, Hb.
  cbn [timed_record app length hd negb].
  destruct (ts_byte_marked e) as [Hu Hbit]. rewrite Hu, Hbit.
  replace (Z.of_nat (S (S (S (S (length rest))))) >? 0) with true
    by (symmetry; rewrite Z.gtb_ltb; apply Z.ltb_lt; lia).
  replace (Z.of_nat (S (S (S (S (length rest))))) >=? 4) with true
    by (symmetry; rewrite Z.geb_leb; apply Z.leb_le; lia).
  cbn [take drop buf nth out_status out_byte1 out_byte2 set_lastStatus
       midiPacketBegin lastStatus inbound].
  destruct (Z.eqb_spec (ts_byte e) 255) as [E0|]; [|reflexivity].
  destruct (Z.eqb_spec (status e) 255) as [E1|]; [|reflexivity].
  destruct (Z.eqb_spec (byte1 e) 255) as [E2|]; [|reflexivity].
  destruct (Z.eqb_spec (byte2 e) 255) as [E3|]; [|reflexivity].
  exfalso. apply Hns. unfold timed_record, sentinel. congruence.
Qed.

(** Inside a packet, one call for each record reports the messages in
    order and leaves what follows the records. *)
Lemma pollMany_records es : forall ls o rest,
  Forall (fun e => timed_record e <> sentinel) es ->
  fst (pollMany (length es)
         (MkDecoder false ls (flat_map timed_record es ++ rest)) o)
    = map expected es /\
  inbound (snd (pollMany (length es)
         (MkDecoder false ls (flat_map timed_record es ++ rest)) o)) = rest.
Proof.
  induction es as [|e es IH]; intros ls o rest Hns.
  - cbn. auto.
  - apply Forall_cons in Hns as [Hn Hns].
    cbn [length pollMany flat_map].
    rewrite (midiRead_timed _ o e (flat_map timed_record es ++ rest));
      [| reflexivity | cbn [midiRead_header midiPacketBegin inbound];
                       now rewrite <- app_assoc | exact Hn].
    destruct (IH (status e) (MkOuts (status e) (byte1 e) (byte2 e)) rest Hns)
      as [H1 H2].
    destruct (pollMany (length es) _ _) as [rs d2]. cbn [fst snd] in *.
    rewrite H1, H2. split; [|reflexivity]. cbn [map]. f_equal.
    unfold expected. now rewrite ts_byte_value.
Qed.

(** Once a call reports nothing and changes nothing, every later call does
    the same. *)
Lemma pollMany_stuck n : forall d o,
  midiRead d o = (0, o, d) -> fst (pollMany n d o) = replicate n (0, o).
Proof.
  induction n as [|n IH]; intros d o H; [reflexivity|].
  cbn [pollMany]. rewrite H.
  specialize (IH d o H). destruct (pollMany n d o) as [rs d2].
  cbn [fst replicate] in *. now rewrite IH.
Qed.

Lemma events_silent n o : events (replicate n (0, o)) = [].
Proof. induction n as [|n IH]; [reflexivity|exact IH]. Qed.

(** On the packet of [ring_with_sentinel] every call returns 0, however
    many are made, and the note-on never reaches the caller's variables. *)
Lemma sentinel_hides_note_on n :
  fst (pollMany n
         (fresh 0 (last_written (snd (midiPacketSend ring_with_sentinel))))
         (MkOuts 255 255 255))
  = replicate n (0, MkOuts 255 255 255).
Proof.
  change (last_written (snd (midiPacketSend ring_with_sentinel)))
    with [128; 255; 255; 255; 255; 128; 144; 60; 100].
  destruct n as [|n]; [reflexivity|].
  cbn [pollMany].
  change (midiRead (fresh 0 [128; 255; 255; 255; 255; 128; 144; 60; 100])
            (MkOuts 255 255 255))
    with (0, MkOuts 255 255 255, MkDecoder true 255 [128; 144; 60; 100]).
  cbv beta iota zeta.
  pose proof (pollMany_stuck n (MkDecoder true 255 [128; 144; 60; 100])
                (MkOuts 255 255 255) eq_refl) as Hs.
  destruct (pollMany n _ _) as [rs d2]. cbn [fst replicate] in *.
  now rewrite Hs.
Qed.

Lemma midiRead_header_fresh ls h a b c d rest :
  midiRead_header (fresh ls (h :: a :: b :: c :: d :: rest))
  = MkDecoder false ls (a :: b :: c :: d :: rest).
Proof.
  unfold midiRead_header, fresh, midiAvailable.
  cbn [midiPacketBegin inbound length].
  replace (Z.of_nat (S (S (S (S (S (length rest)))))) >? 4) with true
    by (symmetry; rewrite Z.gtb_ltb; apply Z.ltb_lt; lia).
  reflexivity.
Qed.

Lemma events_expected es : events (map expected es) = map expected es.
Proof.
  induction es as [|e es IH]; [reflexivity|].
  assert (H : (128 + timestamp e mod 128 =? 0) = false).
  { apply Z.eqb_neq. pose proof (Z.mod_pos_bound (timestamp e) 128). lia. }
  cbn [map]. unfold events in *. cbn [List.filter].
  change (fst (expected e)) with (128 + timestamp e mod 128).
  rewrite H. cbn [negb]. f_equal. exact IH.
Qed.

(** C1, as the code has it. For a ring that is not empty, [midiPacketSend]
    followed by one [midiRead] call for each consumed message, on a fresh
    session fed with the packet, reports the consumed messages in the order
    of their enqueueing: status and both data bytes in the caller's
    variables, and the timestamp modulo 128 in the result. This holds when
    no consumed message is written as the four bytes of the end-of-packet
    sentinel. *)
Theorem midiPacketSend_round_trip (m : MidiState) (ls : Z) (o : Outs) :
  ring_ok m -> messages_ok m -> packet_ok m ->
  midiReadOffset m <> midiWriteOffset m ->
  Forall (fun e => timed_record e <> sentinel) (consumed m) ->
  consumed m <> [] /\
  fst (pollMany (length (consumed m))
         (fresh ls (last_written (snd (midiPacketSend m)))) o)
    = map expected (consumed m) /\
  inbound (snd (pollMany (length (consumed m))
         (fresh ls (last_written (snd (midiPacketSend m)))) o)) = [] /\
  round_trip m ls o.
Proof.
  intros Hok Hm Hp Hne Hns.
  destruct (consumed_timed m Hok Hm Hp Hne) as [Hc Hnil].
  destruct (midiPacketSend_timed m Hok Hm Hp Hne)
    as (m' & E & _ & _ & _ & _ & _ & Hwr).
  assert (Hpk : last_written (snd (midiPacketSend m)) =
                header (message_at m (midiReadOffset m)) ::
                flat_map timed_record (consumed m)).
  { rewrite E, Hc. cbn [snd]. unfold last_written. rewrite Hwr.
    apply last_last. }
  assert (Hpolls :
    fst (pollMany (length (consumed m))
           (fresh ls (last_written (snd (midiPacketSend m)))) o)
      = map expected (consumed m) /\
    inbound (snd (pollMany (length (consumed m))
           (fresh ls (last_written (snd (midiPacketSend m)))) o)) = []).
  { rewrite Hpk. destruct (consumed m) as [|e es]; [contradiction|].
    apply Forall_cons in Hns as [Hn Hns'].
    cbn [length pollMany flat_map timed_record app].
    rewrite (midiRead_timed _ o e (flat_map timed_record es));
      [| now rewrite midiRead_header_fresh
       | now rewrite midiRead_header_fresh
       | exact Hn].
    destruct (pollMany_records es (status e)
                (MkOuts (status e) (byte1 e) (byte2 e)) [] Hns') as [H1 H2].
    rewrite app_nil_r in H1, H2.
    destruct (pollMany (length es) _ _) as [rs d2]. cbn [fst snd] in *.
    rewrite H1, H2. split; [|reflexivity]. cbn [map]. f_equal.
    unfold expected. now rewrite ts_byte_value. }
  destruct Hpolls as [H1 H2].
  conjs; try assumption.
  exists (length (consumed m)). rewrite H1. apply events_expected.
Qed.

Lemma midiPacketSend_round_trip_witness :
  fst (pollMany 3
         (fresh 0 (last_written
            (snd (midiPacketSend (snd (midiSendAll (notes 300 3) startup))))))
         (MkOuts 0 0 0))
  = [(172, MkOuts 144 0 100); (173, MkOuts 144 1 100); (174, MkOuts 144 2 100)].
Proof.
  assert (Hok : ring_ok (snd (midiSendAll (notes 300 3) startup))).
  { constructor; [reflexivity | | ];
      vm_compute; (split; [discriminate | reflexivity]). }
  assert (Hm : messages_ok (snd (midiSendAll (notes 300 3) startup))).
  { unfold messages_ok.
    let l := eval vm_compute in
      (midiMessages (snd (midiSendAll (notes 300 3) startup))) in
    change (Forall msg_ok l).
    repeat (apply List.Forall_cons;
            [unfold msg_ok, is_u32, is_u8;
             cbn [timestamp status byte1 byte2]; lia|]).
    apply List.Forall_nil. }
  assert (Hp : packet_ok (snd (midiSendAll (notes 300 3) startup)))
    by reflexivity.
  assert (Hne : midiReadOffset (snd (midiSendAll (notes 300 3) startup)) <>
                midiWriteOffset (snd (midiSendAll (notes 300 3) startup)))
    by (vm_compute; discriminate).
  assert (Hns : Forall (fun e => timed_record e <> sentinel)
                  (consumed (snd (midiSendAll (notes 300 3) startup)))).
  { change (consumed (snd (midiSendAll (notes 300 3) startup)))
      with (notes 300 3).
    repeat (apply List.Forall_cons; [discriminate|]). apply List.Forall_nil. }
  exact (proj1 (proj2 (midiPacketSend_round_trip
                         (snd (midiSendAll (notes 300 3) startup)) 0
                         (MkOuts 0 0 0) Hok Hm Hp Hne Hns))).
Defined.

(** C1 as worded fails on [ring_with_sentinel]: the first call takes the
    record of the oldest message for the end of the packet, and the session,
    back at a packet boundary with four bytes left, never reports the
    note-on behind it. *)
Lemma round_trip_sentinel_fails :
  ~ round_trip ring_with_sentinel 0 (MkOuts 0 0 0).
Proof.
  intros [n H].
  change (consumed ring_with_sentinel)
    with [MidiMessage 127 255 255 255; MidiMessage 128 144 60 100] in H.
  change (last_written (snd (midiPacketSend ring_with_sentinel)))
    with [128; 255; 255; 255; 255; 128; 144; 60; 100] in H.
  destruct n as [|n]; [discriminate H|].
  cbn [pollMany] in H.
  change (midiRead (fresh 0 [128; 255; 255; 255; 255; 128; 144; 60; 100])
            (MkOuts 0 0 0))
    with (0, MkOuts 255 255 255, MkDecoder true 255 [128; 144; 60; 100]) in H.
  cbv beta iota zeta in H.
  pose proof (pollMany_stuck n (MkDecoder true 255 [128; 144; 60; 100])
                (MkOuts 255 255 255) eq_refl) as Hs.
  destruct (pollMany n _ _) as [rs d2].
  cbn [fst] in H, Hs.
  change (events ((0, MkOuts 255 255 255) :: rs)) with (events rs) in H.
  rewrite Hs, events_silent in H. discriminate H.
Qed.

(** C2 at a concrete input: two queued messages with the same status and the
    same timestamp are both written as four-byte records; the packet has
    nine bytes, not seven. The comparison that selects the two-byte form
    tests the locals [lastStatus] and [lastTime], which stay at -1. *)
Theorem running_status_not_emitted :
  fst (midiPacketSend (snd (midiSendAll
         [MidiMessage 300 144 60 100; MidiMessage 300 144 64 100] startup)))
    = 9 /\
  last_written (snd (midiPacketSend (snd (midiSendAll
         [MidiMessage 300 144 60 100; MidiMessage 300 144 64 100] startup))))
    = [130; 172; 144; 60; 100; 172; 144; 64; 100].
Proof. split; vm_compute; reflexivity. Qed.

End MidiRoundTrip.

(** * Properties of the power sequencer *)

Module PowerProps.
Import Power.

Section WithSignal.

Variable pind : nat -> Z.

Lemma attemptSleep_loop_unfold b pc s :
  attemptSleep_loop pind b pc s =
  if b then (true, s)
  else if pc <? MAX_SLEEP_POLL then
         attemptSleep_loop pind (fst (poll_once pind s)) (u8 (pc + 1))
           (snd (poll_once pind s))
       else (false, s).
Proof.
  destruct b; [now rewrite attemptSleep_loop_equation_1|].
  rewrite attemptSleep_loop_equation_2.
  unfold attemptSleep_loop_unfold_clause_2.
  destruct (inspect (pc <? MAX_SLEEP_POLL)) as [[|] H]; rewrite H; reflexivity.
Qed.

Lemma sleep_retry_unfold d b s :
  sleep_retry pind d b s =
  if (d >? 0) && negb b then
    sleep_retry pind (shorten d) (fst (attemptSleep pind (shorten d) s))
      (snd (attemptSleep pind (shorten d) s))
  else ((d, b), s).
Proof.
  rewrite sleep_retry_equation_1. unfold sleep_retry_unfold_clause_1.
  destruct (inspect ((d >? 0) && negb b)) as [[|] H]; rewrite H; reflexivity.
Qed.

Lemma poll_once_eq s :
  poll_once pind s =
    (ready (pind (reads s)),
     MkMcu (DDRD s) (ADCSRA s) (ACSR s) (I_flag s) (SE s) (S (reads s))
       (log s ++ [Delay 1])).
Proof.
  unfold poll_once, ready, delay, emit, read_PIND, mbind, M_bind, mret, M_ret.
  cbn. destruct (Z.land (pind (reads s)) (_BV 3) >? 0); reflexivity.
Qed.

(** Polling a line that stays low uses up the poll budget. *)
Lemma attemptSleep_loop_never (k : nat) : forall pc s,
  0 <= pc -> pc + Z.of_nat k = MAX_SLEEP_POLL ->
  (forall i, (i < k)%nat -> ready (pind (reads s + i)) = false) ->
  attemptSleep_loop pind false pc s =
    (false, MkMcu (DDRD s) (ADCSRA s) (ACSR s) (I_flag s) (SE s)
              (reads s + k) (log s ++ replicate k (Delay 1))).
Proof.
  unfold MAX_SLEEP_POLL.
  induction k as [|k IH]; intros pc s Hpc Hk Hlow;
    rewrite attemptSleep_loop_unfold; unfold MAX_SLEEP_POLL.
  - replace (pc <? 30) with false by (symmetry; apply Z.ltb_ge; lia).
    destruct s. cbn. now rewrite Nat.add_0_r, app_nil_r.
  - replace (pc <? 30) with true by (symmetry; apply Z.ltb_lt; lia).
    rewrite poll_once_eq. cbn [fst snd].
    rewrite <- (Nat.add_0_r (reads s)) at 1. rewrite (Hlow 0%nat) by lia.
    assert (Hu : u8 (pc + 1) = pc + 1) by (apply Z.mod_small; lia).
    rewrite Hu, IH; cbn [DDRD ADCSRA ACSR I_flag SE reads log]; try lia.
    + rewrite <- app_assoc. cbn [app replicate].
      now rewrite Nat.add_succ_r.
    + intros i Hi. rewrite <- (Hlow (S i)) by lia. f_equal. f_equal. lia.
Qed.

(** An attempt whose line stays low for the whole poll budget fails after
    the request, the flush and thirty waits of one millisecond. *)
Lemma attemptSleep_never d s :
  (forall i, (i < 30)%nat -> ready (pind (reads s + i)) = false) ->
  attemptSleep pind d s =
    (false,
     MkMcu (u8 (Z.land (DDRD s) (Z.lnot (_BV 3)))) (ADCSRA s) (ACSR s)
       (I_flag s) (SE s) (reads s + 30)
       (log s ++ [SerialSleep d; SerialFlush] ++ replicate 30 (Delay 1))).
Proof.
  intros Hlow. unfold attemptSleep, mbind, M_bind, modify_DDRD, emit.
  rewrite (attemptSleep_loop_never 30); cbn [DDRD ADCSRA ACSR I_flag SE reads log];
    [| lia | reflexivity | exact Hlow].
  now rewrite <- !app_assoc.
Qed.

(** C8. [sleep(1000)] when the ready line is never seen asserted in the 30
    polls of the attempt: after the one request and its polls the call waits
    for 1000 - 30 = 970 ms with a plain [delay] and returns. It makes no
    second request, and nothing of the deep-sleep entry happens: no interrupt
    is attached, interrupts are not masked, the sleep-enable latch and the
    analog registers are as before. *)
Theorem sleep_1000_gives_up (s : Mcu) :
  (forall i, (i < 30)%nat -> ready (pind (reads s + i)) = false) ->
  log (snd (sleep pind 1000 s)) =
    log s ++ [BTConfigUartSleep UART_SLEEP_NORMAL; SerialSleep 1000; SerialFlush]
          ++ replicate 30 (Delay 1) ++ [Delay 970] /\
  reads (snd (sleep pind 1000 s)) = (reads s + 30)%nat /\
  ADCSRA (snd (sleep pind 1000 s)) = ADCSRA s /\
  ACSR (snd (sleep pind 1000 s)) = ACSR s /\
  I_flag (snd (sleep pind 1000 s)) = I_flag s /\
  SE (snd (sleep pind 1000 s)) = SE s.
Proof.
  intros Hlow.
  assert (E : sleep pind 1000 s =
    (tt, MkMcu (u8 (Z.land (u8 (Z.land (DDRD s) (Z.lnot (_BV 3))))
                       (Z.lnot (_BV 3))))
           (ADCSRA s) (ACSR s) (I_flag s) (SE s) (reads s + 30)
           (log s ++ [BTConfigUartSleep UART_SLEEP_NORMAL; SerialSleep 1000;
                      SerialFlush] ++ replicate 30 (Delay 1) ++ [Delay 970]))).
  { unfold sleep, mbind, M_bind, modify_DDRD, emit.
    change (1000 <? MIN_SLEEP_TIME) with false. cbv beta iota.
    cbn [DDRD ADCSRA ACSR I_flag SE reads log].
    rewrite attemptSleep_never by exact Hlow.
    unfold negotiate, mbind, M_bind, mret, M_ret, delay, emit.
    change (negb false && (1000 >? MAX_DELAY)) with false.
    change (negb false && (1000 >? MAX_SLEEP_POLL)) with true.
    cbv iota. cbn [negb DDRD ADCSRA ACSR I_flag SE reads log].
    change (u32 (1000 - MAX_SLEEP_POLL)) with 970.
    now rewrite <- !app_assoc. }
  rewrite E. cbn [snd DDRD ADCSRA ACSR I_flag SE reads log].
  conjs; reflexivity.
Qed.

Lemma quiet_refl s : quiet s s.
Proof. unfold quiet. auto. Qed.

Lemma quiet_trans s1 s2 s3 : quiet s1 s2 -> quiet s2 s3 -> quiet s1 s3.
Proof. unfold quiet. intuition congruence. Qed.

Lemma attemptSleep_loop_quiet (n : nat) : forall b pc s,
  Z.to_nat (MAX_SLEEP_POLL - pc) = n ->
  quiet s (snd (attemptSleep_loop pind b pc s)).
Proof.
  induction n as [n IH] using lt_wf_ind. intros b pc s Hn.
  rewrite attemptSleep_loop_unfold.
  destruct b; [apply quiet_refl|].
  destruct (Z.ltb_spec pc MAX_SLEEP_POLL) as [Hlt|_]; [|apply quiet_refl].
  apply quiet_trans with (snd (poll_once pind s)).
  - rewrite poll_once_eq. unfold quiet. cbn. auto.
  - apply (IH (Z.to_nat (MAX_SLEEP_POLL - u8 (pc + 1)))); [|reflexivity].
    subst n. unfold MAX_SLEEP_POLL, u8 in *. Z.div_mod_to_equations. lia.
Qed.

Lemma attemptSleep_quiet d s : quiet s (snd (attemptSleep pind d s)).
Proof.
  unfold attemptSleep, mbind, M_bind, modify_DDRD, emit. cbv beta iota.
  eapply quiet_trans; [|eapply attemptSleep_loop_quiet; reflexivity].
  unfold quiet. cbn. auto.
Qed.

Lemma sleep_retry_quiet (n : nat) : forall d b s,
  Z.to_nat d = n -> quiet s (snd (sleep_retry pind d b s)).
Proof.
  induction n as [n IH] using lt_wf_ind. intros d b s Hn.
  rewrite sleep_retry_unfold.
  destruct ((d >? 0) && negb b) eqn:Hgo; [|apply quiet_refl].
  apply andb_true_iff in Hgo as [Hgo _].
  rewrite Z.gtb_ltb in Hgo. apply Z.ltb_lt in Hgo.
  apply quiet_trans with (snd (attemptSleep pind (shorten d) s));
    [apply attemptSleep_quiet|].
  apply (IH (Z.to_nat (shorten d))); [|reflexivity].
  subst n. unfold shorten, MAX_SLEEP_POLL, u32.
  destruct (Z.geb_spec d 30); [|lia].
  Z.div_mod_to_equations. lia.
Qed.

Lemma negotiate_quiet d b s : quiet s (snd (negotiate pind d b s)).
Proof.
  unfold negotiate, mbind, M_bind, mret, M_ret, delay, emit.
  destruct (negb b && (d >? MAX_DELAY)).
  - pose proof (sleep_retry_quiet (Z.to_nat d) d b s eq_refl) as H.
    destruct (sleep_retry pind d b s) as [r s1]. exact H.
  - destruct (negb b && (d >? MAX_SLEEP_POLL)); [|apply quiet_refl].
    unfold quiet. cbn. auto.
Qed.

(** The deep-sleep entry in full: the state it leaves and the calls it
    makes. The line is read once, with interrupts masked; when it is
    asserted the processor sleeps, right behind the [Sei], with bit [ADEN]
    of [ADCSRA] and bit [ACD] of [ACSR] clear; the second [Sei] comes in
    either case. *)
Lemma deep_sleep_eq s :
  deep_sleep pind s =
    (tt,
     MkMcu (DDRD s)
       (if Z.testbit (ADCSRA s) ADEN
        then set_bit (clear_bit (ADCSRA s) ADEN) ADEN else ADCSRA s)
       (if Z.testbit (ACSR s) ACD
        then set_bit (clear_bit (ACSR s) ACD) ACD else ACSR s)
       true
       (if Z.testbit (pind (reads s)) 3 then false else SE s)
       (S (reads s))
       (log s ++ [AttachInterrupt 1 LOW; SetSleepModePwrDown; Cli] ++
        (if Z.testbit (pind (reads s)) 3
         then [SleepEnable; SleepBodDisable; Sei;
               SleepCpu
                 (if Z.testbit (ADCSRA s) ADEN
                  then clear_bit (ADCSRA s) ADEN else ADCSRA s)
                 (if Z.testbit (ACSR s) ACD
                  then clear_bit (ACSR s) ACD else ACSR s);
               SleepDisable]
         else []) ++
        [Sei; DetachInterrupt 1])).
Proof.
  destruct s as [ddrd adcsra acsr iflag se rd lg].
  cbv [deep_sleep mbind M_bind mret M_ret when modify_ADCSRA modify_ACSR
       emit cli sei sleep_enable sleep_disable sleep_bod_disable sleep_cpu
       set_I_flag set_SE read_ADCSRA read_ACSR read_PIND bit_is_set
       clear_bit set_bit].
  cbn [DDRD ADCSRA ACSR I_flag SE reads log].
  destruct (Z.testbit adcsra ADEN);
    cbn [DDRD ADCSRA ACSR I_flag SE reads log];
    destruct (Z.testbit acsr ACD);
    cbn [DDRD ADCSRA ACSR I_flag SE reads log];
    destruct (Z.testbit (pind rd) 3);
    cbn [DDRD ADCSRA ACSR I_flag SE reads log];
    rewrite <- ?app_assoc; reflexivity.
Qed.

Lemma restore_bit (v bit : Z) :
  is_u8 v -> 0 <= bit < 8 -> Z.testbit v bit = true ->
  set_bit (clear_bit v bit) bit = v.
Proof.
  intros Hv Hb Ht.
  pose (f := fun b x : Z =>
               implb (Z.testbit x b) (set_bit (clear_bit x b) b =? x)).
  assert (Hall : forallb (f bit) (map Z.of_nat (seq 0 256)) = true).
  { apply (below_cases 8
             (fun b => forallb (f b) (map Z.of_nat (seq 0 256))));
      [vm_compute; reflexivity | exact Hb]. }
  pose proof (below_cases 256 (f bit) Hall v Hv) as H.
  unfold f in H. rewrite Ht in H. cbn [implb] in H.
  now apply Z.eqb_eq.
Qed.

Lemma deep_sleep_analog s :
  is_u8 (ADCSRA s) -> is_u8 (ACSR s) ->
  same_analog s (snd (deep_sleep pind s)).
Proof.
  intros Ha Hc. rewrite deep_sleep_eq. unfold same_analog.
  cbn [snd ADCSRA ACSR]. split.
  - destruct (Z.testbit (ADCSRA s) ADEN) eqn:E; [|reflexivity].
    apply restore_bit; [exact Ha | unfold ADEN; lia | exact E].
  - destruct (Z.testbit (ACSR s) ACD) eqn:E; [|reflexivity].
    apply restore_bit; [exact Hc | unfold ACD; lia | exact E].
Qed.

Lemma cleared_bit_off (v : Z) :
  is_u8 v ->
  Z.testbit (if Z.testbit v 7 then clear_bit v 7 else v) 7 = false.
Proof.
  intros Hv. apply negb_true_iff.
  apply (below_cases 256
           (fun v => negb (Z.testbit
                             (if Z.testbit v 7 then clear_bit v 7 else v) 7)));
    [vm_compute; reflexivity | exact Hv].
Qed.

(** Whenever the deep-sleep entry puts the processor to sleep, the
    converter is off and the comparator is on for the sleep, whatever they
    were before: the entry clears [ADEN], the enable bit of the one, and
    [ACD], the disable bit of the other. *)
Lemma deep_sleep_asleep_with s :
  is_u8 (ADCSRA s) -> is_u8 (ACSR s) ->
  Z.testbit (pind (reads s)) 3 = true ->
  exists a c,
    asleep_with (log (snd (deep_sleep pind s))) =
      asleep_with (log s) ++ [(a, c)] /\
    adc_enabled a = false /\ comparator_enabled c = true.
Proof.
  intros Ha Hc Hline. rewrite deep_sleep_eq, Hline. cbn [snd log].
  eexists _, _. split.
  - unfold asleep_with. rewrite !flat_map_app. reflexivity.
  - unfold adc_enabled, comparator_enabled. change ADEN with 7.
    change ACD with 7. rewrite !cleared_bit_off by assumption. auto.
Qed.

(** C7. The contents of [ADCSRA] and [ACSR], and so whether the converter
    and the comparator are enabled, are the same after [sleep] returns as
    before the call: on the deep-sleep path, where bits cleared before the
    sleep are set again after it, and on every other path, where the
    registers are not written. The registers are 8-bit. *)
Theorem sleep_restores_analog (duration_ms : Z) (s : Mcu) :
  is_u8 (ADCSRA s) -> is_u8 (ACSR s) ->
  ADCSRA (snd (sleep pind duration_ms s)) = ADCSRA s /\
  ACSR (snd (sleep pind duration_ms s)) = ACSR s /\
  adc_enabled (ADCSRA (snd (sleep pind duration_ms s)))
    = adc_enabled (ADCSRA s) /\
  comparator_enabled (ACSR (snd (sleep pind duration_ms s)))
    = comparator_enabled (ACSR s).
Proof.
  intros Ha Hc.
  assert (H : same_analog s (snd (sleep pind duration_ms s))).
  { unfold sleep, mbind, M_bind, modify_DDRD, emit, delay, emit.
    cbv beta iota. cbn [DDRD ADCSRA ACSR I_flag SE reads log].
    destruct (duration_ms <? MIN_SLEEP_TIME).
    - unfold same_analog. cbn. auto.
    - match goal with
      | |- context [attemptSleep pind duration_ms ?s1] =>
          pose proof (attemptSleep_quiet duration_ms s1) as H1;
          destruct (attemptSleep pind duration_ms s1) as [b1 s2]
      end.
      pose proof (negotiate_quiet duration_ms b1 s2) as H2.
      destruct (negotiate pind duration_ms b1 s2) as [b2 s3].
      cbn [snd ADCSRA ACSR] in H1, H2.
      destruct H1 as (A1 & C1 & _), H2 as (A2 & C2 & _).
      cbn [ADCSRA ACSR] in A1, C1.
      destruct b2; cbn [negb].
      + pose proof (deep_sleep_analog s3) as [A3 C3];
          [congruence | congruence |].
        unfold same_analog. split; congruence.
      + unfold same_analog, mret, M_ret. cbn [snd]. split; congruence. }
  destruct H as [HA HC]. rewrite HA, HC. auto.
Qed.

End WithSignal.

End PowerProps.

(** * Concrete runs of the power sequencer *)

Module PowerRuns.
Import Power PowerProps.

Lemma sleep_1000_gives_up_witness :
  log (snd (sleep line_low 1000 both_on)) =
    [BTConfigUartSleep UART_SLEEP_NORMAL; SerialSleep 1000; SerialFlush]
      ++ replicate 30 (Delay 1) ++ [Delay 970].
Proof.
  exact (proj1 (sleep_1000_gives_up line_low both_on (fun i _ => eq_refl))).
Defined.

Lemma sleep_restores_analog_witness :
  ADCSRA (snd (sleep line_high 100 both_on)) = 135 /\
  ACSR (snd (sleep line_high 100 both_on)) = 0 /\
  asleep_with (log (snd (sleep line_high 100 both_on))) = [(7, 0)].
Proof.
  assert (Ha : is_u8 (ADCSRA both_on)) by (unfold is_u8; cbn; lia).
  assert (Hc : is_u8 (ACSR both_on)) by (unfold is_u8; cbn; lia).
  split; [|split].
  - exact (proj1 (sleep_restores_analog line_high 100 both_on Ha Hc)).
  - exact (proj1 (proj2 (sleep_restores_analog line_high 100 both_on Ha Hc))).
  - reflexivity.
Defined.

(** C6 at two concrete inputs. With the comparator enabled before the call
    ([ACD] clear) it is still enabled while the processor sleeps; with the
    comparator switched off before the call ([ACD] set) it is enabled for
    the sleep. The converter is off during the sleep in both runs. *)
Theorem comparator_on_during_sleep :
  comparator_enabled (ACSR both_on) = true /\
  map (fun p => (adc_enabled (fst p), comparator_enabled (snd p)))
      (asleep_with (log (snd (sleep line_high 100 both_on))))
    = [(false, true)] /\
  comparator_enabled (ACSR comparator_off) = false /\
  map (fun p => (adc_enabled (fst p), comparator_enabled (snd p)))
      (asleep_with (log (snd (sleep line_high 100 comparator_off))))
    = [(false, true)].
Proof. conjs; vm_compute; reflexivity. Qed.

End PowerRuns.

(** * More on the power sequencer *)

Module PowerMoreProps.
Import Midi Power PowerMore PowerProps.

Lemma waited_app l1 l2 : waited (l1 ++ l2) = waited l1 + waited l2.
Proof.
  induction l1 as [|o l1 IH]; [reflexivity|].
  cbn [app waited fold_right]. fold (waited (l1 ++ l2)). fold (waited l1).
  rewrite IH. destruct o; lia.
Qed.

Lemma waited_polls k : waited (replicate k (Delay 1)) = Z.of_nat k.
Proof.
  induction k as [|k IH]; [reflexivity|].
  cbn [replicate waited fold_right]. fold (waited (replicate k (Delay 1))).
  lia.
Qed.

Lemma negotiation_polls k : forallb negotiation_op (replicate k (Delay 1)) = true.
Proof. induction k as [|k IH]; [reflexivity|exact IH]. Qed.

(** The test of the polling loop and the test of the re-check agree on
    every value of [PIND]. *)
Lemma ready_testbit p : ready p = Z.testbit p 3.
Proof.
  unfold ready, _BV. change (Z.shiftl 1 3) with (2 ^ 3).
  assert (H : Z.land p (2 ^ 3) = if Z.testbit p 3 then 2 ^ 3 else 0).
  { apply Z.bits_inj'. intros n Hn.
    rewrite Z.land_spec, Z.pow2_bits_eqb by lia.
    destruct (Z.eqb_spec 3 n) as [<-|Hne].
    - destruct (Z.testbit p 3); [now rewrite Z.pow2_bits_eqb by lia|].
      now rewrite Z.bits_0.
    - rewrite andb_false_r.
      destruct (Z.testbit p 3); [|now rewrite Z.bits_0].
      rewrite Z.pow2_bits_eqb by lia. symmetry. now apply Z.eqb_neq. }
  rewrite H. destruct (Z.testbit p 3); reflexivity.
Qed.

Section WithSignal.

Variable pind : nat -> Z.

(** Polling a line that is first seen asserted at poll [k] takes [k+1]
    rounds. *)
Lemma attemptSleep_loop_first (k : nat) : forall pc s,
  0 <= pc -> pc + Z.of_nat k < MAX_SLEEP_POLL ->
  (forall i, (i < k)%nat -> ready (pind (reads s + i)) = false) ->
  ready (pind (reads s + k)) = true ->
  attemptSleep_loop pind false pc s =
    (true, MkMcu (DDRD s) (ADCSRA s) (ACSR s) (I_flag s) (SE s)
             (reads s + S k) (log s ++ replicate (S k) (Delay 1))).
Proof.
  unfold MAX_SLEEP_POLL.
  induction k as [|k IH]; intros pc s Hpc Hk Hlow Hhigh;
    rewrite attemptSleep_loop_unfold; unfold MAX_SLEEP_POLL;
    (replace (pc <? 30) with true by (symmetry; apply Z.ltb_lt; lia));
    rewrite poll_once_eq; cbn [fst snd].
  - rewrite Nat.add_0_r in Hhigh. rewrite Hhigh.
    rewrite attemptSleep_loop_unfold. cbn [replicate].
    now rewrite Nat.add_1_r.
  - rewrite <- (Nat.add_0_r (reads s)) at 1. rewrite (Hlow 0%nat) by lia.
    assert (Hu : u8 (pc + 1) = pc + 1) by (apply Z.mod_small; lia).
    rewrite Hu, IH; cbn [DDRD ADCSRA ACSR I_flag SE reads log]; try lia.
    + rewrite <- app_assoc. cbn [app replicate].
      replace (S (reads s) + S k)%nat with (reads s + S (S k))%nat by lia.
      reflexivity.
    + intros i Hi. rewrite <- (Hlow (S i)) by lia. f_equal. f_equal. lia.
    + rewrite <- Hhigh. f_equal. f_equal. lia.
Qed.

Lemma attemptSleep_first d k s :
  (k < 30)%nat ->
  (forall i, (i < k)%nat -> ready (pind (reads s + i)) = false) ->
  ready (pind (reads s + k)) = true ->
  attemptSleep pind d s =
    (true,
     MkMcu (u8 (Z.land (DDRD s) (Z.lnot (_BV 3)))) (ADCSRA s) (ACSR s)
       (I_flag s) (SE s) (reads s + S k)
       (log s ++ [SerialSleep d; SerialFlush] ++ replicate (S k) (Delay 1))).
Proof.
  intros Hk Hlow Hhigh. unfold attemptSleep, mbind, M_bind, modify_DDRD, emit.
  rewrite (attemptSleep_loop_first k);
    cbn [DDRD ADCSRA ACSR I_flag SE reads log];
    [| lia | unfold MAX_SLEEP_POLL; lia | exact Hlow | exact Hhigh].
  now rewrite <- !app_assoc.
Qed.

(** [sleep] when the line is first seen asserted at poll [k]: the log after
    the call, by the outcome of the re-check. *)
Lemma sleep_line_asserted d k s :
  MIN_SLEEP_TIME <= d -> (k < 30)%nat ->
  (forall i, (i < k)%nat -> ready (pind (reads s + i)) = false) ->
  ready (pind (reads s + k)) = true ->
  log (snd (sleep pind d s)) =
    log s ++ [BTConfigUartSleep UART_SLEEP_NORMAL; SerialSleep d; SerialFlush]
          ++ replicate (S k) (Delay 1)
          ++ (if Z.testbit (pind (reads s + S k)) 3
              then slept_ops
                     (if Z.testbit (ADCSRA s) ADEN
                      then clear_bit (ADCSRA s) ADEN else ADCSRA s)
                     (if Z.testbit (ACSR s) ACD
                      then clear_bit (ACSR s) ACD else ACSR s)
              else skipped_ops) /\
  I_flag (snd (sleep pind d s)) = true /\
  SE (snd (sleep pind d s)) =
    (if Z.testbit (pind (reads s + S k)) 3 then false else SE s) /\
  reads (snd (sleep pind d s)) = (reads s + k + 2)%nat.
Proof.
  intros Hd Hk Hlow Hhigh.
  unfold sleep, mbind, M_bind, modify_DDRD, emit.
  replace (d <? MIN_SLEEP_TIME) with false
    by (symmetry; apply Z.ltb_ge; exact Hd).
  cbv beta iota. cbn [DDRD ADCSRA ACSR I_flag SE reads log].
  rewrite (attemptSleep_first d k) by assumption.
  unfold negotiate, mret, M_ret. cbn [negb andb].
  rewrite deep_sleep_eq. cbn [snd DDRD ADCSRA ACSR I_flag SE reads log].
  conjs; try reflexivity; [|lia].
  destruct (Z.testbit (pind (reads s + S k)) 3);
    unfold slept_ops, skipped_ops; cbn [app];
    rewrite <- !app_assoc; reflexivity.
Qed.

(** X1. [sleep(d)], [d] at least 10, when the line is first seen asserted
    at poll [k] of the first attempt and is still asserted at the re-check:
    after the one request and [k+1] waits of 1 ms the wake interrupt is
    attached, interrupts are masked, the processor is put to sleep right
    behind the [Sei], and after the wake the latch is disarmed, interrupts
    are unmasked and the wake interrupt is detached. The requested duration
    is not waited for by the program itself. *)
Theorem sleep_enters_low_power (d : Z) (k : nat) (s : Mcu) :
  MIN_SLEEP_TIME <= d -> (k < 30)%nat ->
  (forall i, (i < k)%nat -> ready (pind (reads s + i)) = false) ->
  ready (pind (reads s + k)) = true ->
  Z.testbit (pind (reads s + S k)) 3 = true ->
  log (snd (sleep pind d s)) =
    log s ++ [BTConfigUartSleep UART_SLEEP_NORMAL; SerialSleep d; SerialFlush]
          ++ replicate (S k) (Delay 1)
          ++ slept_ops
               (if Z.testbit (ADCSRA s) ADEN
                then clear_bit (ADCSRA s) ADEN else ADCSRA s)
               (if Z.testbit (ACSR s) ACD
                then clear_bit (ACSR s) ACD else ACSR s) /\
  I_flag (snd (sleep pind d s)) = true /\
  SE (snd (sleep pind d s)) = false.
Proof.
  intros Hd Hk Hlow Hhigh Hre.
  destruct (sleep_line_asserted d k s Hd Hk Hlow Hhigh) as (Hl & Hi & Hs & _).
  rewrite Hre in Hl, Hs. auto.
Qed.

(** X2. [sleep(d)] when the line was seen asserted at poll [k] but reads low
    at the re-check made with interrupts masked: the processor is not put to
    sleep, the wake interrupt is attached and detached again, interrupts are
    enabled on return and the sleep-enable latch is as before. The call
    returns after [k+1] ms of waiting, whatever [d] is. *)
Theorem sleep_recheck_fails (d : Z) (k : nat) (s : Mcu) :
  MIN_SLEEP_TIME <= d -> (k < 30)%nat ->
  (forall i, (i < k)%nat -> ready (pind (reads s + i)) = false) ->
  ready (pind (reads s + k)) = true ->
  Z.testbit (pind (reads s + S k)) 3 = false ->
  log (snd (sleep pind d s)) =
    log s ++ [BTConfigUartSleep UART_SLEEP_NORMAL; SerialSleep d; SerialFlush]
          ++ replicate (S k) (Delay 1) ++ skipped_ops /\
  asleep_with (log (snd (sleep pind d s))) = asleep_with (log s) /\
  waited (log (snd (sleep pind d s))) = waited (log s) + Z.of_nat (S k) /\
  I_flag (snd (sleep pind d s)) = true /\
  SE (snd (sleep pind d s)) = SE s.
Proof.
  intros Hd Hk Hlow Hhigh Hre.
  destruct (sleep_line_asserted d k s Hd Hk Hlow Hhigh) as (Hl & Hi & Hs & _).
  rewrite Hre in Hl, Hs. conjs; try assumption.
  - rewrite Hl. unfold asleep_with. rewrite !flat_map_app.
    cbn [flat_map skipped_ops app].
    assert (H : forall n, flat_map
       (fun o => match o with SleepCpu a c => [(a, c)] | _ => [] end)
       (replicate n (Delay 1)) = []).
    { induction n as [|n IH]; [reflexivity|exact IH]. }
    rewrite H. now rewrite !app_nil_r.
  - rewrite Hl, !waited_app, waited_polls. cbn. lia.
Qed.

Hypothesis never_ready : forall n, ready (pind n) = false.

Lemma attemptSleep_unanswered d s :
  exists s',
    attemptSleep pind d s = (false, s') /\
    log s' = log s ++ [SerialSleep d; SerialFlush] ++ replicate 30 (Delay 1) /\
    quiet s s'.
Proof.
  eexists. split; [apply attemptSleep_never; intros; apply never_ready|].
  cbn [log]. split; [reflexivity|]. unfold quiet. cbn. auto.
Qed.

(** The retry loop against a line that is never asserted: it gives up with
    the duration at 0 after one attempt for every 30 ms of the duration. *)
Lemma sleep_retry_unanswered (n : nat) : forall d s,
  Z.to_nat d = n -> is_u32 d ->
  exists l s',
    sleep_retry pind d false s = ((0, false), s') /\
    log s' = log s ++ l /\
    forallb negotiation_op l = true /\
    waited l = 30 * ((d + 29) / 30) /\
    quiet s s'.
Proof.
  induction n as [n IH] using lt_wf_ind. intros d s Hn [Hd0 Hd1].
  rewrite sleep_retry_unfold. cbn [negb]. rewrite andb_true_r.
  destruct (Z.gtb_spec d 0) as [Hpos|Hz].
  - destruct (attemptSleep_unanswered (shorten d) s) as (s1 & E1 & Hl1 & Hq1).
    rewrite E1. cbn [fst snd].
    assert (Hsh : 0 <= shorten d /\ shorten d < d /\
                  (d + 29) / 30 = 1 + (shorten d + 29) / 30).
    { unfold shorten, MAX_SLEEP_POLL, u32.
      destruct (Z.geb_spec d 30).
      - rewrite Z.mod_small by lia. Z.div_mod_to_equations. lia.
      - Z.div_mod_to_equations. lia. }
    destruct Hsh as (Hs0 & Hs1 & Hdiv).
    destruct (IH (Z.to_nat (shorten d)) ltac:(lia) (shorten d) s1 eq_refl
                ltac:(unfold is_u32; lia))
      as (l & s' & E & Hl & Hneg & Hw & Hq).
    exists ([SerialSleep (shorten d); SerialFlush] ++ replicate 30 (Delay 1) ++ l),
           s'.
    rewrite E, Hl, Hl1. conjs.
    + reflexivity.
    + now rewrite <- !app_assoc.
    + cbn [app forallb negotiation_op andb]. rewrite forallb_app.
      now rewrite negotiation_polls, Hneg.
    + cbn [app waited fold_right].
      fold (waited (replicate 30 (Delay 1) ++ l)).
      rewrite waited_app, waited_polls, Hw, Hdiv. lia.
    + eapply quiet_trans; eassumption.
  - exists [], s. assert (d = 0) by lia. subst d.
    rewrite app_nil_r. conjs; try reflexivity. apply quiet_refl.
Qed.

(** [sleep] against a line that is never asserted, for every duration. *)
Lemma sleep_unanswered d s :
  is_u32 d ->
  exists l,
    log (snd (sleep pind d s)) = log s ++ l /\
    forallb negotiation_op l = true /\
    waited l =
      (if d <? MIN_SLEEP_TIME then d
       else if d <=? MAX_SLEEP_POLL then 30
       else if d <=? MAX_DELAY then d
       else 30 * ((d + 29) / 30 + 1)) /\
    quiet s (snd (sleep pind d s)).
Proof.
  intros Hd. pose proof Hd as [Hd0 Hd1].
  unfold sleep, mbind, M_bind, modify_DDRD, emit, delay, emit.
  cbv beta iota. cbn [DDRD ADCSRA ACSR I_flag SE reads log].
  unfold MIN_SLEEP_TIME, MAX_SLEEP_POLL, MAX_DELAY.
  destruct (Z.ltb_spec d 10) as [Hlt|Hge].
  - exists [BTConfigUartSleep UART_SLEEP_NORMAL; Delay d].
    cbn [snd log]. rewrite <- app_assoc. conjs; try reflexivity.
    + cbn. lia.
    + unfold quiet. cbn. auto.
  - match goal with
    | |- context [attemptSleep pind d ?s1] =>
        destruct (attemptSleep_unanswered d s1) as (s2 & E2 & Hl2 & Hq2)
    end.
    rewrite E2. cbn [log] in Hl2.
    unfold negotiate, mbind, M_bind, mret, M_ret, delay, emit.
    unfold MAX_SLEEP_POLL, MAX_DELAY. cbn [negb andb].
    destruct (Z.gtb_spec d 30000) as [Hlong|Hshort].
    + destruct (sleep_retry_unanswered (Z.to_nat d) d s2 eq_refl Hd)
        as (l & s3 & E3 & Hl3 & Hneg & Hw & Hq3).
      rewrite E3. cbn [snd negb].
      exists ([BTConfigUartSleep UART_SLEEP_NORMAL; SerialSleep d; SerialFlush]
              ++ replicate 30 (Delay 1) ++ l).
      rewrite Hl3, Hl2.
      replace (d <=? 30) with false by (symmetry; apply Z.leb_gt; lia).
      replace (d <=? 30000) with false by (symmetry; apply Z.leb_gt; lia).
      conjs.
      * now rewrite <- !app_assoc.
      * cbn [app forallb negotiation_op andb]. rewrite forallb_app.
        now rewrite negotiation_polls, Hneg.
      * cbn [app waited fold_right].
        fold (waited (replicate 30 (Delay 1) ++ l)).
        rewrite waited_app, waited_polls, Hw. lia.
      * eapply quiet_trans; [|exact Hq3].
        eapply quiet_trans; [|exact Hq2]. unfold quiet. cbn. auto.
    + replace (d <=? 30000) with true by (symmetry; apply Z.leb_le; lia).
      destruct (Z.gtb_spec d 30) as [Hmid|Hlow].
      * cbn [snd negb log].
        replace (d <=? 30) with false by (symmetry; apply Z.leb_gt; lia).
        exists ([BTConfigUartSleep UART_SLEEP_NORMAL; SerialSleep d;
                 SerialFlush] ++ replicate 30 (Delay 1) ++ [Delay (u32 (d - 30))]).
        rewrite Hl2. conjs.
        -- now rewrite <- !app_assoc.
        -- cbn [app forallb negotiation_op andb]. rewrite forallb_app.
           now rewrite negotiation_polls.
        -- cbn [app waited fold_right].
           fold (waited (replicate 30 (Delay 1) ++ [Delay (u32 (d - 30))])).
           rewrite waited_app, waited_polls. cbn [waited fold_right].
           unfold u32. rewrite Z.mod_small by lia. lia.
        -- eapply quiet_trans; [eapply quiet_trans; [|exact Hq2]|];
             unfold quiet; cbn; auto.
      * cbn [snd negb log].
        replace (d <=? 30) with true by (symmetry; apply Z.leb_le; lia).
        exists ([BTConfigUartSleep UART_SLEEP_NORMAL; SerialSleep d;
                 SerialFlush] ++ replicate 30 (Delay 1)).
        rewrite Hl2. conjs.
        -- now rewrite <- !app_assoc.
        -- cbn [app forallb negotiation_op andb]. apply negotiation_polls.
        -- cbn [app waited fold_right].
           fold (waited (replicate 30 (Delay 1))). rewrite waited_polls. lia.
        -- eapply quiet_trans; [|exact Hq2]. unfold quiet. cbn. auto.
Qed.

(** X3. When the co-processor never asserts the line, [sleep(d)] for any
    duration only waits and talks to the transport: the calls it makes are
    [delay], [Serial.sleep], [Serial.flush] and the UART configuration; it
    attaches no interrupt, never masks interrupts and never executes the
    sleep instruction, and the analog registers, the interrupt flag and the
    sleep-enable latch are as before. *)
Theorem sleep_unanswered_only_negotiates (d : Z) (s : Mcu) :
  is_u32 d ->
  exists l,
    log (snd (sleep pind d s)) = log s ++ l /\
    forallb negotiation_op l = true /\
    quiet s (snd (sleep pind d s)).
Proof.
  intros Hd. destruct (sleep_unanswered d s Hd) as (l & Hl & Hn & _ & Hq).
  exists l. auto.
Qed.

(** X4. The time [sleep(d)] spends in [delay] when the co-processor never
    asserts the line: [d] ms below the floor of 10 ms; 30 ms, the whole poll
    budget, for [d] from 10 to 30; [d] ms for [d] up to 30000; and for longer
    durations 30 ms for the first attempt and for each retry, one retry for
    every 30 ms of [d], which is between [d + 30] and [d + 59] ms. *)
Theorem sleep_unanswered_waits (d : Z) (s : Mcu) :
  is_u32 d ->
  waited (log (snd (sleep pind d s))) - waited (log s) =
    (if d <? MIN_SLEEP_TIME then d
     else if d <=? MAX_SLEEP_POLL then 30
     else if d <=? MAX_DELAY then d
     else 30 * ((d + 29) / 30 + 1)) /\
  (MAX_DELAY < d ->
   d + 30 <= waited (log (snd (sleep pind d s))) - waited (log s) <= d + 59).
Proof.
  intros Hd. destruct (sleep_unanswered d s Hd) as (l & Hl & _ & Hw & _).
  rewrite Hl, waited_app, <- Hw.
  split; [lia|]. intros Hlong. rewrite Hw. unfold MAX_DELAY in *.
  unfold MIN_SLEEP_TIME, MAX_SLEEP_POLL.
  replace (d <? 10) with false by (symmetry; apply Z.ltb_ge; lia).
  replace (d <=? 30) with false by (symmetry; apply Z.leb_gt; lia).
  replace (d <=? 30000) with false by (symmetry; apply Z.leb_gt; lia).
  Z.div_mod_to_equations. lia.
Qed.

End WithSignal.

Section AnySignal.

Variable pind : nat -> Z.

Lemma plain_refl s : plain s s.
Proof. exists []. now rewrite app_nil_r. Qed.

Lemma plain_trans s1 s2 s3 : plain s1 s2 -> plain s2 s3 -> plain s1 s3.
Proof.
  intros (l1 & E1 & H1) (l2 & E2 & H2). exists (l1 ++ l2).
  rewrite E2, E1, <- app_assoc, forallb_app, H1, H2. auto.
Qed.

Lemma plain_emit o s : no_uart_config o = true -> plain s (snd (emit o s)).
Proof. intros H. exists [o]. cbn. now rewrite H. Qed.

Lemma attemptSleep_loop_plain (n : nat) : forall b pc s,
  Z.to_nat (MAX_SLEEP_POLL - pc) = n ->
  plain s (snd (attemptSleep_loop pind b pc s)).
Proof.
  induction n as [n IH] using lt_wf_ind. intros b pc s Hn.
  rewrite attemptSleep_loop_unfold.
  destruct b; [apply plain_refl|].
  destruct (Z.ltb_spec pc MAX_SLEEP_POLL) as [Hlt|_]; [|apply plain_refl].
  apply plain_trans with (snd (poll_once pind s)).
  - rewrite poll_once_eq. exists [Delay 1]. auto.
  - apply (IH (Z.to_nat (MAX_SLEEP_POLL - u8 (pc + 1)))); [|reflexivity].
    subst n. unfold MAX_SLEEP_POLL, u8 in *. Z.div_mod_to_equations. lia.
Qed.

Lemma attemptSleep_plain d s : plain s (snd (attemptSleep pind d s)).
Proof.
  unfold attemptSleep, mbind, M_bind, modify_DDRD, emit. cbv beta iota.
  eapply plain_trans; [|eapply attemptSleep_loop_plain; reflexivity].
  exists [SerialSleep d; SerialFlush]. cbn. now rewrite <- app_assoc.
Qed.

Lemma sleep_retry_plain (n : nat) : forall d b s,
  Z.to_nat d = n -> plain s (snd (sleep_retry pind d b s)).
Proof.
  induction n as [n IH] using lt_wf_ind. intros d b s Hn.
  rewrite sleep_retry_unfold.
  destruct ((d >? 0) && negb b) eqn:Hgo; [|apply plain_refl].
  apply andb_true_iff in Hgo as [Hgo _].
  rewrite Z.gtb_ltb in Hgo. apply Z.ltb_lt in Hgo.
  apply plain_trans with (snd (attemptSleep pind (shorten d) s));
    [apply attemptSleep_plain|].
  apply (IH (Z.to_nat (shorten d))); [|reflexivity].
  subst n. unfold shorten, MAX_SLEEP_POLL, u32.
  destruct (Z.geb_spec d 30); [|lia].
  Z.div_mod_to_equations. lia.
Qed.

Lemma negotiate_plain d b s : plain s (snd (negotiate pind d b s)).
Proof.
  unfold negotiate, mbind, M_bind, mret, M_ret, delay.
  destruct (negb b && (d >? MAX_DELAY)).
  - pose proof (sleep_retry_plain (Z.to_nat d) d b s eq_refl) as H.
    destruct (sleep_retry pind d b s) as [r s1]. exact H.
  - destruct (negb b && (d >? MAX_SLEEP_POLL)); [|apply plain_refl].
    pose proof (plain_emit (Delay (u32 (d - MAX_SLEEP_POLL))) s eq_refl) as H.
    destruct (emit _ s) as [u s1]. exact H.
Qed.

Lemma deep_sleep_plain s : plain s (snd (deep_sleep pind s)).
Proof.
  rewrite deep_sleep_eq. cbn [snd log]. eexists. split; [reflexivity|].
  destruct (Z.testbit (pind (reads s)) 3); reflexivity.
Qed.

Lemma uart_sleep_of_last l1 mode l2 :
  forallb no_uart_config l2 = true ->
  uart_sleep_of (l1 ++ BTConfigUartSleep mode :: l2) = Some mode.
Proof.
  intros H. unfold uart_sleep_of. rewrite fold_left_app. cbn [fold_left].
  induction l2 as [|o l2 IH]; [reflexivity|].
  cbn [forallb] in H. apply andb_true_iff in H as [Ho H].
  cbn [fold_left]. destruct o; try discriminate Ho; now apply IH.
Qed.

(** Every [sleep] configures the UART sleep mode once, first of all, to
    NORMAL. *)
Lemma sleep_uart_config d s :
  exists l,
    log (snd (sleep pind d s)) =
      log s ++ BTConfigUartSleep UART_SLEEP_NORMAL :: l /\
    forallb no_uart_config l = true.
Proof.
  unfold sleep, mbind, M_bind, modify_DDRD, emit.
  cbv beta iota. cbn [DDRD ADCSRA ACSR I_flag SE reads log].
  match goal with
  | |- context [MkMcu ?a ?b ?c ?e ?f ?g (log s ++ [?o])] =>
      set (s1 := MkMcu a b c e f g (log s ++ [o]))
  end.
  assert (H : plain s1
    (snd ((if d <? MIN_SLEEP_TIME then delay d
           else fun s0 => let '(a, s2) := attemptSleep pind d s0 in
                  let '(a0, s3) := negotiate pind d a s2 in
                  (if negb a0 then mret tt else deep_sleep pind) s3) s1))).
  { destruct (d <? MIN_SLEEP_TIME).
    - apply plain_emit. reflexivity.
    - pose proof (attemptSleep_plain d s1) as H1.
      destruct (attemptSleep pind d s1) as [b1 s2].
      pose proof (negotiate_plain d b1 s2) as H2.
      destruct (negotiate pind d b1 s2) as [b2 s3]. cbn [snd] in *.
      eapply plain_trans; [exact H1|]. eapply plain_trans; [exact H2|].
      destruct b2; cbn [negb]; [apply deep_sleep_plain|apply plain_refl]. }
  destruct H as (l & Hl & Hn). exists l.
  destruct (d <? MIN_SLEEP_TIME); rewrite Hl; subst s1; cbn [log];
    rewrite <- app_assoc; auto.
Qed.

(** X5. After [keepAwake(true)] the UART sleep mode in force is NEVER; a
    [sleep] of any duration, whatever the line does, leaves it at NORMAL:
    [sleep] configures NORMAL before anything else and nothing it does
    later configures the mode again. *)
Theorem sleep_undoes_keepAwake (d : Z) (b : Bean) :
  uart_sleep_of (log (mcu (keepAwake true b))) = Some UART_SLEEP_NEVER /\
  uart_sleep_of (log (snd (sleep pind d (mcu (keepAwake true b)))))
    = Some UART_SLEEP_NORMAL.
Proof.
  split.
  - unfold keepAwake, emit. cbn [mcu snd log].
    change (log (mcu b) ++ [BTConfigUartSleep UART_SLEEP_NEVER])
      with (log (mcu b) ++ BTConfigUartSleep UART_SLEEP_NEVER :: []).
    now apply uart_sleep_of_last.
  - destruct (sleep_uart_config d (mcu (keepAwake true b))) as (l & Hl & Hn).
    rewrite Hl. now apply uart_sleep_of_last.
Qed.

End AnySignal.

End PowerMoreProps.

(** * More on the MIDI framer *)

Module MidiMoreProps.
Import Midi MidiMore MidiQueue MidiEncode.

Lemma midiSendAll_reachable calls : forall m,
  reachable m -> Forall msg_ok calls ->
  reachable (snd (midiSendAll calls m)).
Proof.
  induction calls as [|c calls IH]; intros m Hr Hc; [exact Hr|].
  apply Forall_cons in Hc as [(Ht & Hs & Ha & Hb) Hc].
  cbn [midiSendAll].
  pose proof (reach_send _ _ _ _ m Hr Ht Hs Ha Hb) as H1.
  destruct (midiSend (timestamp c) (status c) (byte1 c) (byte2 c) m)
    as [r m1]. cbn [snd] in H1.
  specialize (IH m1 H1 Hc).
  destruct (midiSendAll calls m1) as [rs m2]. exact IH.
Qed.

(** X6. A [midiSend] into a ring that is not full returns 0 and puts the
    message, with the clock value of the call, behind the messages already
    queued; the read cursor and what was handed to the transport are
    untouched. *)
Theorem midiSend_appends (millisec status byte1 byte2 : Z) (m : MidiState) :
  ring_ok m -> ~ full m ->
  fst (midiSend millisec status byte1 byte2 m) = 0 /\
  queued (snd (midiSend millisec status byte1 byte2 m)) =
    queued m ++ [MidiMessage millisec status byte1 byte2] /\
  midiReadOffset (snd (midiSend millisec status byte1 byte2 m))
    = midiReadOffset m /\
  written (snd (midiSend millisec status byte1 byte2 m)) = written m.
Proof.
  intros Hok Hnf.
  destruct (midiSend_not_full millisec status byte1 byte2 m Hok Hnf)
    as (m' & E & _ & Hr & Hq).
  rewrite E. cbn [fst snd]. conjs; try assumption; try reflexivity.
  unfold midiSend in E. unfold full in Hnf.
  destruct (Z.eqb_spec ((midiWriteOffset m + 1) mod MIDI_BUFFER_SIZE)
              (midiReadOffset m)); [contradiction|].
  now injection E as <-.
Qed.

Lemma midiSend_appends_witness :
  queued (snd (midiSend 7 144 60 100 (snd (midiSendAll (notes 0 2) startup))))
  = notes 0 2 ++ [MidiMessage 7 144 60 100].
Proof.
  assert (Hok : ring_ok (snd (midiSendAll (notes 0 2) startup))).
  { constructor; [reflexivity | | ];
      vm_compute; (split; [discriminate | reflexivity]). }
  assert (Hnf : ~ full (snd (midiSendAll (notes 0 2) startup)))
    by (vm_compute; discriminate).
  exact (proj1 (proj2 (midiSend_appends 7 144 60 100 _ Hok Hnf))).
Defined.

(** X7. For every state the program can reach, [midiPacketSend] returns 0
    exactly when the ring is empty, and then sends nothing; otherwise it
    consumes the oldest [min 4 pending] messages and returns 1 + 4 times
    that number, between 5 and 17, which is also the length of the packet
    handed to the transport, so a packet never exceeds the 20 bytes of
    [midiPacket]. The messages not consumed stay queued in their order. *)
Theorem midiPacketSend_fits (m : MidiState) :
  reachable m ->
  fst (midiPacketSend m) =
    (if (pending m =? 0)%nat then 0
     else Z.of_nat (1 + 4 * min 4 (pending m))) /\
  fst (midiPacketSend m) <= 17 /\
  queued (snd (midiPacketSend m)) = drop (min 4 (pending m)) (queued m) /\
  written (snd (midiPacketSend m)) =
    (if (pending m =? 0)%nat then written m
     else written m ++
          [header (message_at m (midiReadOffset m)) ::
           flat_map timed_record (take (min 4 (pending m)) (queued m))]).
Proof.
  intros Hr. destruct (reachable_ok m Hr) as (Hok & Hm & Hp).
  destruct (Nat.eqb_spec (pending m) 0) as [He|Hne].
  - apply (pending_zero m Hok) in He as Hrw.
    unfold midiPacketSend. rewrite (proj2 (Z.eqb_eq _ _) Hrw).
    cbn [fst snd]. rewrite He. cbn [Nat.min drop]. conjs; auto. lia.
  - assert (Hrw : midiReadOffset m <> midiWriteOffset m).
    { intros H. apply (pending_zero m Hok) in H. contradiction. }
    destruct (midiPacketSend_timed m Hok Hm Hp Hrw)
      as (m' & E & _ & _ & _ & _ & Hq & Hw).
    rewrite E. cbn [fst snd]. conjs; auto. lia.
Qed.

Lemma midiPacketSend_fits_witness :
  fst (midiPacketSend (snd (midiSendAll (notes 0 6) startup))) = 17.
Proof.
  assert (Hr : reachable (snd (midiSendAll (notes 0 6) startup))).
  { apply midiSendAll_reachable; [apply reach_startup|].
    cbn [notes seq map].
    repeat (apply List.Forall_cons;
            [unfold msg_ok, is_u32, is_u8;
             cbn [timestamp status byte1 byte2]; lia|]).
    apply List.Forall_nil. }
  exact (proj1 (midiPacketSend_fits _ Hr)).
Defined.

(** X8. The header byte has bit 7 set and bit 6 clear and carries bits 7 to
    12 of the timestamp of the oldest message; with the low seven bits in
    the timestamp byte of the first record, a packet carries that timestamp
    modulo 8192 ms. *)
Theorem header_carries_timestamp (e : midiMessage) :
  header e = 128 + (timestamp e / 128) mod 64 /\
  128 <= header e < 192 /\
  (header e - 128) * 128 + (ts_byte e - 128) = timestamp e mod 8192.
Proof.
  assert (Hh : header e = 128 + (timestamp e / 128) mod 64).
  { unfold header. rewrite Z.shiftr_div_pow2 by lia. change (2 ^ 7) with 128.
    assert (Hx : 0 <= u8 (timestamp e / 128) < Z.of_nat 256)
      by (apply Z.mod_pos_bound; lia).
    assert (Hm : (timestamp e / 128) mod 64 = u8 (timestamp e / 128) mod 64).
    { unfold u8. Z.div_mod_to_equations. lia. }
    rewrite Hm. apply Z.eqb_eq.
    apply (below_cases 256
             (fun x => u8 (Z.land (u8 (Z.lor x (Z.shiftl 1 7)))
                             (Z.lnot (Z.shiftl 1 6))) =? 128 + x mod 64));
      [vm_compute; reflexivity | exact Hx]. }
  assert (Ht : ts_byte e = 128 + timestamp e mod 128).
  { unfold ts_byte.
    assert (Hx : 0 <= u8 (timestamp e) < Z.of_nat 256)
      by (apply Z.mod_pos_bound; lia).
    assert (Hm : timestamp e mod 128 = u8 (timestamp e) mod 128).
    { unfold u8. Z.div_mod_to_equations. lia. }
    rewrite Hm. apply Z.eqb_eq.
    apply (below_cases 256
             (fun x => u8 (Z.lor x (Z.shiftl 1 7)) =? 128 + x mod 128));
      [vm_compute; reflexivity | exact Hx]. }
  rewrite Hh, Ht. conjs; try reflexivity; Z.div_mod_to_equations; lia.
Qed.

(** Draining a well-formed ring with [n] calls, four messages a call. *)
Lemma drain_all (n : nat) : forall m,
  ring_ok m -> messages_ok m -> packet_ok m ->
  (pending m <= 4 * n)%nat ->
  exists packets,
    written (drain n m) = written m ++ packets /\
    flat_map records packets = flat_map timed_record (queued m) /\
    Forall (fun p => (length p <= 17)%nat) packets /\
    queued (drain n m) = [].
Proof.
  induction n as [|n IH]; intros m Hok Hm Hp Hn.
  - exists []. cbn [drain]. rewrite app_nil_r.
    assert (H0 : pending m = 0%nat) by lia.
    unfold queued. rewrite H0. cbn. auto.
  - cbn [drain].
    destruct (Z.eq_dec (midiReadOffset m) (midiWriteOffset m)) as [He|Hne].
    + unfold midiPacketSend. rewrite (proj2 (Z.eqb_eq _ _) He). cbn [snd].
      apply IH; try assumption.
      apply (pending_zero m Hok) in He. lia.
    + destruct (midiPacketSend_timed m Hok Hm Hp Hne)
        as (m' & E & Hok' & Hp' & Hmm & _ & Hq & Hw).
      rewrite E. cbn [snd].
      assert (Hm' : messages_ok m') by (unfold messages_ok; now rewrite Hmm).
      assert (Hpend : (pending m' <= 4 * n)%nat).
      { rewrite <- (queued_length m'), Hq, length_drop, queued_length. lia. }
      destruct (IH m' Hok' Hm' Hp' Hpend) as (ps & Hws & Hrec & Hlen & Hq0).
      eexists (_ :: ps). rewrite Hws, Hw, <- app_assoc. cbn [app].
      conjs; [reflexivity | | | exact Hq0].
      * cbn [flat_map records drop]. rewrite drop_0, Hrec, Hq, <- flat_map_app.
        now rewrite take_drop.
      * apply Forall_cons. split; [|exact Hlen].
        cbn [length]. rewrite length_flat_map.
        assert (Hsum : forall es : list midiMessage,
                  list_sum (map (fun x => length (timed_record x)) es)
                  = (4 * length es)%nat).
        { induction es as [|x es IHes]; [reflexivity|].
          unfold list_sum in *. cbn [map fold_right].
          rewrite IHes. cbn [length timed_record]. lia. }
        rewrite Hsum, length_take. lia.
Qed.

(** X9. A ring the program can reach is emptied by [midiPacketSend] calls,
    one call for every four queued messages: the calls hand the transport
    packets of at most 17 bytes whose records, in the order of the packets,
    are the four-byte records of the queued messages in the order of their
    enqueueing, and the ring is empty afterwards. *)
Theorem drain_sends_all_in_order (n : nat) (m : MidiState) :
  reachable m ->
  (pending m <= 4 * n)%nat ->
  exists packets,
    written (drain n m) = written m ++ packets /\
    flat_map records packets = flat_map timed_record (queued m) /\
    Forall (fun p => (length p <= 17)%nat) packets /\
    queued (drain n m) = [].
Proof.
  intros Hr Hn. destruct (reachable_ok m Hr) as (Hok & Hm & Hp).
  now apply drain_all.
Qed.

Lemma drain_sends_all_in_order_witness :
  exists packets,
    written (drain 2 (snd (midiSendAll (notes 0 6) startup))) = [] ++ packets /\
    flat_map records packets = flat_map timed_record (notes 0 6) /\
    Forall (fun p => (length p <= 17)%nat) packets /\
    queued (drain 2 (snd (midiSendAll (notes 0 6) startup))) = [].
Proof.
  assert (Hr : reachable (snd (midiSendAll (notes 0 6) startup))).
  { apply midiSendAll_reachable; [apply reach_startup|].
    cbn [notes seq map].
    repeat (apply List.Forall_cons;
            [unfold msg_ok, is_u32, is_u8;
             cbn [timestamp status byte1 byte2]; lia|]).
    apply List.Forall_nil. }
  assert (Hn : (pending (snd (midiSendAll (notes 0 6) startup)) <= 4 * 2)%nat)
    by (vm_compute; lia).
  exact (drain_sends_all_in_order 2 _ Hr Hn).
Defined.

Lemma geb_of_nat_true (n : nat) (k : Z) :
  k <= Z.of_nat n -> (Z.of_nat n >=? k) = true.
Proof. intros H. rewrite Z.geb_leb. apply Z.leb_le. lia. Qed.

Lemma geb_of_nat_false (n : nat) (k : Z) :
  Z.of_nat n < k -> (Z.of_nat n >=? k) = false.
Proof. intros H. rewrite Z.geb_leb. apply Z.leb_gt. lia. Qed.

Lemma gtb_of_nat_true (n : nat) (k : Z) :
  k < Z.of_nat n -> (Z.of_nat n >? k) = true.
Proof. intros H. rewrite Z.gtb_ltb. apply Z.ltb_lt. lia. Qed.

Lemma gtb_of_nat_false (n : nat) (k : Z) :
  Z.of_nat n <= k -> (Z.of_nat n >? k) = false.
Proof. intros H. rewrite Z.gtb_ltb. apply Z.ltb_ge. lia. Qed.

(** Inside a packet: the call on a buffer that starts with [p]. *)
Lemma midiRead_inside ls p rest o :
  midiRead (MkDecoder false ls (p :: rest)) o =
  if negb (Z.land (u8 p) (Z.shiftl 1 7) =? 0) then
    if (3 <=? length rest)%nat then
      let o' := MkOuts (nth 0 rest 0) (nth 1 rest 0) (nth 2 rest 0) in
      if (p =? 255) && (nth 0 rest 0 =? 255) && (nth 1 rest 0 =? 255)
         && (nth 2 rest 0 =? 255)
      then (0, o', MkDecoder true (nth 0 rest 0) (drop 3 rest))
      else (u8 p, o', MkDecoder false (nth 0 rest 0) (drop 3 rest))
    else (0, o, MkDecoder false ls (p :: rest))
  else
    if (1 <=? length rest)%nat then
      (u8 p, MkOuts (u8 ls) p (nth 0 rest 0), MkDecoder false ls (drop 1 rest))
    else (0, o, MkDecoder false ls (p :: rest)).
Proof.
  unfold midiRead, midiRead_header, midiRead_body, midiAvailable, peekMidi,
    readMidi.
  cbn [midiPacketBegin inbound lastStatus negb hd length].
  rewrite (gtb_of_nat_true (S (length rest)) 0) by lia.
  destruct (negb (Z.land (u8 p) (Z.shiftl 1 7) =? 0)).
  - destruct (Nat.leb_spec 3 (length rest)) as [H|H].
    + rewrite (geb_of_nat_true (S (length rest)) 4) by lia.
      destruct rest as [|a [|b [|c rest]]]; cbn [length] in H; try lia.
      reflexivity.
    + now rewrite (geb_of_nat_false (S (length rest)) 4) by lia.
  - destruct (Nat.leb_spec 1 (length rest)) as [H|H].
    + rewrite (geb_of_nat_true (S (length rest)) 2) by lia.
      destruct rest as [|a rest]; cbn [length] in H; try lia.
      reflexivity.
    + now rewrite (geb_of_nat_false (S (length rest)) 2) by lia.
Qed.

(** At a packet boundary with more than four bytes buffered the call drops
    the header and goes on as inside a packet. *)
Lemma midiRead_boundary ls h rest o :
  (4 <= length rest)%nat ->
  midiRead (MkDecoder true ls (h :: rest)) o =
  midiRead (MkDecoder false ls rest) o.
Proof.
  intros H. unfold midiRead at 1 2, midiRead_header, midiAvailable, readMidi.
  cbn [midiPacketBegin inbound lastStatus length snd drop set_midiPacketBegin].
  now rewrite (gtb_of_nat_true (S (length rest)) 4) by lia.
Qed.

(** X10. A [midiRead] that finds fewer bytes buffered than it needs returns
    0 and changes nothing: no byte is consumed, the caller's variables and
    the session are as before. It needs five bytes at a packet boundary,
    four inside a packet when the next byte has its high bit set, two
    when it has not. *)
Theorem midiRead_stalls (d : Decoder) (o : Outs) :
  (length (inbound d) < needed d)%nat ->
  midiRead d o = (0, o, d).
Proof.
  destruct d as [[|] ls inb]; unfold needed;
    cbn [midiPacketBegin inbound].
  - intros H. unfold midiRead, midiRead_header, midiRead_body, midiAvailable.
    cbn [midiPacketBegin inbound].
    now rewrite gtb_of_nat_false by lia.
  - destruct inb as [|p rest]; [reflexivity|].
    intros H. rewrite midiRead_inside.
    destruct (negb (Z.land (u8 p) (Z.shiftl 1 7) =? 0)); cbn [length] in H.
    + destruct (Nat.leb_spec 3 (length rest)); [lia|reflexivity].
    + destruct (Nat.leb_spec 1 (length rest)); [lia|reflexivity].
Qed.

Lemma midiRead_stalls_witness :
  midiRead (MkDecoder true 0 [130; 172; 144; 60]) (MkOuts 1 2 3)
    = (0, MkOuts 1 2 3, MkDecoder true 0 [130; 172; 144; 60]) /\
  midiRead (MkDecoder false 0 [172; 144; 60]) (MkOuts 1 2 3)
    = (0, MkOuts 1 2 3, MkDecoder false 0 [172; 144; 60]).
Proof.
  split.
  - apply midiRead_stalls. vm_compute. lia.
  - apply midiRead_stalls. vm_compute. lia.
Defined.

(** X11. A [midiRead] that finds the bytes it needs consumes whole units
    from the front of the buffer and nothing else: the header byte when it
    starts at a packet boundary, and the message behind it, four bytes or
    two. What stays buffered is the rest of the buffer. *)
Theorem midiRead_takes_whole_message (d : Decoder) (o : Outs) :
  (needed d <= length (inbound d))%nat ->
  inbound (snd (midiRead d o)) = drop (taken d) (inbound d) /\
  (taken d = 2 \/ taken d = 3 \/ taken d = 4 \/ taken d = 5)%nat.
Proof.
  assert (Hin : forall ls p rest,
    (needed (MkDecoder false ls (p :: rest)) <= S (length rest))%nat ->
    inbound (snd (midiRead (MkDecoder false ls (p :: rest)) o)) =
      drop (if negb (Z.land (u8 p) (Z.shiftl 1 7) =? 0) then 4 else 2)
        (p :: rest)).
  { intros ls p rest H. rewrite midiRead_inside.
    unfold needed in H. cbn [midiPacketBegin inbound] in H.
    destruct (negb (Z.land (u8 p) (Z.shiftl 1 7) =? 0)).
    - destruct (Nat.leb_spec 3 (length rest)); [|lia].
      cbv zeta. destruct (_ && _); reflexivity.
    - destruct (Nat.leb_spec 1 (length rest)); [|lia]. reflexivity. }
  destruct d as [[|] ls inb]; unfold needed, taken;
    cbn [midiPacketBegin inbound]; intros H.
  - destruct inb as [|h [|p rest]]; cbn [length] in H; try lia.
    rewrite midiRead_boundary by (cbn [length]; lia).
    cbn [nth Nat.add]. split.
    + rewrite Hin.
      * destruct (negb (Z.land (u8 p) (Z.shiftl 1 7) =? 0)); reflexivity.
      * unfold needed. cbn [midiPacketBegin inbound].
        destruct (negb (Z.land (u8 p) (Z.shiftl 1 7) =? 0)); lia.
    + destruct (negb (Z.land (u8 p) (Z.shiftl 1 7) =? 0)); auto.
  - destruct inb as [|p rest]; cbn [length] in H; [lia|].
    cbn [nth Nat.add]. split.
    + apply Hin. unfold needed. cbn [midiPacketBegin inbound]. exact H.
    + destruct (negb (Z.land (u8 p) (Z.shiftl 1 7) =? 0)); auto.
Qed.

Lemma midiRead_takes_whole_message_witness :
  inbound (snd (midiRead (MkDecoder true 0 [130; 172; 144; 60; 100; 61])
                  (MkOuts 0 0 0))) = [61].
Proof.
  apply (midiRead_takes_whole_message
           (MkDecoder true 0 [130; 172; 144; 60; 100; 61]) (MkOuts 0 0 0)).
  vm_compute. lia.
Defined.

Lemma high_bit_set t :
  128 <= t < 256 -> u8 t = t /\ negb (Z.land (u8 t) (Z.shiftl 1 7) =? 0) = true.
Proof.
  intros H. assert (Hu : u8 t = t) by (apply Z.mod_small; lia).
  rewrite Hu. split; [reflexivity|].
  assert (Hx : 0 <= t - 128 < Z.of_nat 128) by lia.
  pose proof (below_cases 128
                (fun x => negb (Z.land (128 + x) (Z.shiftl 1 7) =? 0))
                eq_refl (t - 128) Hx) as Hb.
  cbv beta in Hb. now replace (128 + (t - 128)) with t in Hb by lia.
Qed.

Lemma high_bit_clear p :
  0 <= p < 128 -> u8 p = p /\ negb (Z.land (u8 p) (Z.shiftl 1 7) =? 0) = false.
Proof.
  intros H. assert (Hu : u8 p = p) by (apply Z.mod_small; lia).
  rewrite Hu. split; [reflexivity|].
  assert (Hx : 0 <= p < Z.of_nat 128) by lia.
  pose proof (below_cases 128 (fun x => Z.land x (Z.shiftl 1 7) =? 0)
                eq_refl p Hx) as Hb.
  cbv beta in Hb. now rewrite Hb.
Qed.

(** X12. Running status on the decode path: inside a packet, a four-byte
    message [t], [st], [a], [b] that is not the sentinel, followed by two
    data bytes [p], [q] with the high bit of [p] clear, is reported by two
    calls as the event ([st], [a], [b]) and the event ([st], [p], [q]): the
    second event inherits the status of the first. *)
Theorem running_status_inherits (ls t st a b p q : Z) (rest : list Z) (o : Outs) :
  128 <= t < 256 -> is_u8 st -> 0 <= p < 128 ->
  [t; st; a; b] <> sentinel ->
  pollMany 2 (MkDecoder false ls (t :: st :: a :: b :: p :: q :: rest)) o =
    ([(t, MkOuts st a b); (p, MkOuts st p q)], MkDecoder false st rest).
Proof.
  intros Ht Hst Hp Hns. cbn [pollMany].
  rewrite midiRead_inside.
  destruct (high_bit_set t Ht) as [Hu Hb]. rewrite Hb, Hu.
  cbn [length Nat.leb nth drop]. cbv zeta.
  assert (Hs : (t =? 255) && (st =? 255) && (a =? 255) && (b =? 255) = false).
  { destruct (Z.eqb_spec t 255) as [E0|]; [|reflexivity].
    destruct (Z.eqb_spec st 255) as [E1|]; [|reflexivity].
    destruct (Z.eqb_spec a 255) as [E2|]; [|reflexivity].
    destruct (Z.eqb_spec b 255) as [E3|]; [|reflexivity].
    exfalso. apply Hns. unfold sentinel. congruence. }
  rewrite Hs. rewrite midiRead_inside.
  destruct (high_bit_clear p Hp) as [Hup Hbp]. rewrite Hbp, Hup.
  cbn [length Nat.leb nth drop].
  assert (Hust : u8 st = st) by (apply Z.mod_small; exact Hst).
  now rewrite Hust.
Qed.

Lemma running_status_inherits_witness :
  pollMany 2 (MkDecoder false 0 [172; 144; 60; 100; 64; 90; 7]) (MkOuts 0 0 0)
  = ([(172, MkOuts 144 60 100); (64, MkOuts 144 64 90)], MkDecoder false 144 [7]).
Proof.
  apply (running_status_inherits 0 172 144 60 100 64 90 [7] (MkOuts 0 0 0)).
  - lia.
  - unfold is_u8. lia.
  - lia.
  - discriminate.
Defined.

End MidiMoreProps.

(** * [keepAwake] and the decoder session *)

Module KeepAwakeProps.
Import Midi MidiMore Power PowerMore MidiMoreProps.

(** X13. [keepAwake] puts the decoder session back to a packet boundary
    with the remembered status at 0, whatever it was doing: with five or more
    bytes buffered, the next [midiRead] discards the first as a header, and
    two data bytes behind it are reported with status 0, not with the status
    of the message decoded before [keepAwake]. *)
Theorem keepAwake_resets_decoder (enable : bool) (b : Bean) (o : Outs)
    (h p q r1 r2 : Z) (rest : list Z) :
  inbound (session b) = h :: p :: q :: r1 :: r2 :: rest ->
  0 <= p < 128 ->
  midiRead (session (keepAwake enable b)) o =
    (p, MkOuts 0 p q, MkDecoder false 0 (r1 :: r2 :: rest)).
Proof.
  intros Hin Hp. unfold keepAwake. cbn [session].
  unfold set_midiPacketBegin, set_lastStatus.
  cbn [midiPacketBegin lastStatus inbound]. rewrite Hin.
  rewrite midiRead_boundary by (cbn [length]; lia).
  rewrite midiRead_inside.
  destruct (high_bit_clear p Hp) as [Hu Hb]. rewrite Hb, Hu.
  reflexivity.
Qed.

Lemma keepAwake_resets_decoder_witness :
  midiRead
    (session (keepAwake true
       (MkBean (MkDecoder false 144 [64; 90; 65; 91; 66; 92]) 0
          (MkMcu 0 0 0 true false 0 []))))
    (MkOuts 0 0 0)
  = (90, MkOuts 0 90 65, MkDecoder false 0 [91; 66; 92]).
Proof.
  apply (keepAwake_resets_decoder true _ (MkOuts 0 0 0) 64 90 65 91 66 [92]).
  - reflexivity.
  - lia.
Defined.


End KeepAwakeProps.

(** * More concrete runs of the power sequencer *)

Module PowerMoreRuns.
Import Power PowerMore PowerProps PowerMoreProps.

Lemma sleep_enters_low_power_witness :
  log (snd (sleep line_high 100 both_on)) =
    [BTConfigUartSleep UART_SLEEP_NORMAL; SerialSleep 100; SerialFlush;
     Delay 1] ++ slept_ops 7 0 /\
  I_flag (snd (sleep line_high 100 both_on)) = true /\
  SE (snd (sleep line_high 100 both_on)) = false.
Proof.
  apply (sleep_enters_low_power line_high 100 0 both_on).
  - unfold MIN_SLEEP_TIME. lia.
  - lia.
  - intros i Hi. lia.
  - reflexivity.
  - reflexivity.
Defined.

Lemma sleep_recheck_fails_witness :
  log (snd (sleep (line_at 2) 100 both_on)) =
    [BTConfigUartSleep UART_SLEEP_NORMAL; SerialSleep 100; SerialFlush;
     Delay 1; Delay 1; Delay 1] ++ skipped_ops.
Proof.
  apply (sleep_recheck_fails (line_at 2) 100 2 both_on).
  - unfold MIN_SLEEP_TIME. lia.
  - lia.
  - intros i Hi. destruct i as [|[|i]]; [reflexivity | reflexivity | lia].
  - reflexivity.
  - reflexivity.
Defined.

Lemma sleep_unanswered_only_negotiates_witness :
  exists l,
    log (snd (sleep line_low 20 both_on)) = [] ++ l /\
    forallb negotiation_op l = true /\
    quiet both_on (snd (sleep line_low 20 both_on)).
Proof.
  apply (sleep_unanswered_only_negotiates line_low (fun n => eq_refl) 20 both_on).
  unfold is_u32. lia.
Defined.

Lemma sleep_unanswered_waits_witness :
  waited (log (snd (sleep line_low 30061 both_on))) - waited (log both_on)
  = 30120.
Proof.
  apply (sleep_unanswered_waits line_low (fun n => eq_refl) 30061 both_on).
  unfold is_u32. lia.
Defined.

End PowerMoreRuns.

(** * Battery voltage and scratch numbers *)

Module BatteryProps.
Import Battery.

(** X14. For every battery level the transport can report (a byte),
    [getBatteryVoltage] is the documented conversion rounded down,
    (10000 * level + 1242600) / 6353 hundredths of a volt: the 32-bit
    arithmetic does not wrap and the cast to 16 bits cuts nothing. The
    result lies between 195 (level 0, also when the read fails) and 596,
    and at most 353 for a level up to 100. *)
Theorem getBatteryVoltage_exact (level : Z) :
  is_u8 level ->
  getBatteryVoltage level = (10000 * level + 1242600) / 6353 /\
  195 <= getBatteryVoltage level <= 596 /\
  (level <= 100 -> getBatteryVoltage level <= 353).
Proof.
  intros [H0 H1].
  assert (E : getBatteryVoltage level = (10000 * level + 1242600) / 6353).
  { unfold getBatteryVoltage, u16, u32.
    rewrite (Z.mod_small 100), (Z.mod_small level), (Z.mod_small 12426),
      (Z.mod_small 6353) by lia.
    rewrite (Z.mod_small (100 * level)) by lia.
    rewrite (Z.mod_small (100 * level + 12426)) by lia.
    rewrite (Z.mod_small ((100 * level + 12426) * 100)) by lia.
    replace ((100 * level + 12426) * 100) with (10000 * level + 1242600)
      by lia.
    assert (Hq : 0 <= (10000 * level + 1242600) / 6353 < 65536).
    { split; [apply Z.div_pos; lia|].
      apply Z.div_lt_upper_bound; lia. }
    rewrite (Z.mod_small _ 4294967296) by lia.
    now rewrite Z.mod_small by lia. }
  rewrite E. split; [reflexivity|]. split.
  - split.
    + apply Z.div_le_lower_bound; lia.
    + apply Z.lt_succ_r. apply Z.div_lt_upper_bound; lia.
  - intros Hl. apply Z.lt_succ_r. apply Z.div_lt_upper_bound; lia.
Qed.

Lemma getBatteryVoltage_exact_witness :
  getBatteryVoltage 100 = (10000 * 100 + 1242600) / 6353 /\
  195 <= getBatteryVoltage 100 <= 596 /\
  (100 <= 100 -> getBatteryVoltage 100 <= 353).
Proof.
  apply (getBatteryVoltage_exact 100). unfold is_u8. lia.
Defined.

(** X15. [getBatteryVoltage] is monotone in the level: a higher level never
    reads as a lower voltage. *)
Theorem getBatteryVoltage_monotone (l1 l2 : Z) :
  is_u8 l1 -> is_u8 l2 -> l1 <= l2 ->
  getBatteryVoltage l1 <= getBatteryVoltage l2.
Proof.
  intros [A0 A1] [B0 B1] Hle.
  unfold getBatteryVoltage, u16, u32.
  rewrite (Z.mod_small 100), (Z.mod_small l1), (Z.mod_small l2),
    (Z.mod_small 12426), (Z.mod_small 6353) by lia.
  rewrite (Z.mod_small (100 * l1)), (Z.mod_small (100 * l2)) by lia.
  rewrite (Z.mod_small (100 * l1 + 12426)),
    (Z.mod_small (100 * l2 + 12426)) by lia.
  rewrite (Z.mod_small ((100 * l1 + 12426) * 100)),
    (Z.mod_small ((100 * l2 + 12426) * 100)) by lia.
  assert (Hq : forall l, 0 <= l < 256 ->
            0 <= ((100 * l + 12426) * 100) / 6353 < 65536).
  { intros l Hl. split; [apply Z.div_pos; lia|].
    apply Z.div_lt_upper_bound; lia. }
  pose proof (Hq l1 ltac:(lia)). pose proof (Hq l2 ltac:(lia)).
  rewrite !(Z.mod_small _ 4294967296) by lia.
  rewrite !(Z.mod_small _ 65536) by lia.
  apply Z.div_le_mono; lia.
Qed.

Lemma getBatteryVoltage_monotone_witness :
  getBatteryVoltage 40 <= getBatteryVoltage 41.
Proof.
  apply getBatteryVoltage_monotone; unfold is_u8; lia.
Defined.

End BatteryProps.

Module ScratchProps.
Import Scratch.

Lemma lor_disjoint (a c k : Z) :
  0 <= k -> 0 <= a < 2 ^ k -> Z.lor a (c * 2 ^ k) = a + c * 2 ^ k.
Proof.
  intros Hk Ha.
  assert (E : Z.land a (c * 2 ^ k) = 0).
  { apply Z.bits_inj'. intros n Hn.
    rewrite Z.land_spec, Z.bits_0.
    destruct (Z.lt_ge_cases n k) as [Hlt|Hge].
    - rewrite Z.mul_pow2_bits_low by assumption. apply andb_false_r.
    - rewrite <- (Z.mod_small a (2 ^ k)) by assumption.
      rewrite Z.mod_pow2_bits_high by lia. reflexivity. }
  pose proof (Z.add_lor_land a (c * 2 ^ k)) as H.
  rewrite E in H. lia.
Qed.

Lemma to_long_small (x : Z) :
  -2147483648 <= x < 2147483648 -> to_long x = x.
Proof.
  intros H. unfold to_long. rewrite Z.mod_small; lia.
Qed.

Lemma take_memcpy (dst src : list Z) (n : Z) :
  (Z.to_nat n <= length src)%nat ->
  take (Z.to_nat n) (memcpy dst src n) = take (Z.to_nat n) src.
Proof.
  intros H. unfold memcpy.
  rewrite take_app_le by (rewrite length_take; lia).
  rewrite take_take. f_equal. lia.
Qed.

Lemma setScratchData_small (bank : Z) (data : list Z) (dataLength : Z)
    (junk : list Z) :
  0 <= dataLength <= 20 ->
  (Z.to_nat dataLength <= length data)%nat ->
  fst (setScratchData bank data dataLength junk) = true /\
  sent (setScratchData bank data dataLength junk)
    = bank :: take (Z.to_nat dataLength) data.
Proof.
  intros Hn Hlen. unfold setScratchData, MAX_SCRATCH_SIZE.
  destruct (Z.leb_spec dataLength 20) as [_|Hgt]; [|lia].
  split; [reflexivity|].
  unfold sent, sent_bytes. cbn [snd set_length set_scratch number scratch].
  unfold u8. rewrite Z.mod_small by lia.
  replace (Z.to_nat (dataLength + 1)) with (S (Z.to_nat dataLength)) by lia.
  cbn [take]. f_equal. apply take_memcpy. assumption.
Qed.

Lemma number_bytes (data : Z) :
  0 <= data < 4294967296 ->
  u8 (Z.land data 255) = data mod 256 /\
  u8 (Z.shiftr data 8) = (data / 256) mod 256 /\
  u8 (Z.shiftr data 16) = (data / 65536) mod 256 /\
  u8 (Z.shiftr data 24) = data / 16777216.
Proof.
  intros H. unfold u8.
  change 255 with (Z.ones 8). rewrite Z.land_ones by lia.
  rewrite !Z.shiftr_div_pow2 by lia.
  change (2 ^ 8) with 256. change (2 ^ 16) with 65536.
  change (2 ^ 24) with 16777216.
  rewrite Z.mod_mod by lia.
  repeat split.
  apply Z.mod_small. split.
  - apply Z.div_pos; lia.
  - apply Z.div_lt_upper_bound; lia.
Qed.

Lemma readScratchNumber_bytes (b0 b1 b2 b3 : Z) (rest : list Z) :
  0 <= b0 < 256 -> 0 <= b1 < 256 -> 0 <= b2 < 256 -> 0 <= b3 < 256 ->
  readScratchNumber (b0 :: b1 :: b2 :: b3 :: rest)
    = to_long (b0 + b1 * 256 + b2 * 65536 + b3 * 16777216).
Proof.
  intros H0 H1 H2 H3. unfold readScratchNumber. cbn [nth].
  rewrite (to_long_small b0), (to_long_small b1), (to_long_small b2),
    (to_long_small b3) by lia.
  change 255 with (Z.ones 8). rewrite Z.land_ones by lia.
  change (2 ^ 8) with 256. rewrite (Z.mod_small b0) by lia.
  rewrite Z.lor_0_l, (to_long_small b0) by lia.
  rewrite !Z.shiftl_mul_pow2 by lia.
  rewrite (to_long_small (b1 * 2 ^ 8)) by lia.
  rewrite (lor_disjoint b0 b1 8) by lia.
  rewrite (to_long_small (b0 + b1 * 2 ^ 8)) by lia.
  rewrite (to_long_small (b2 * 2 ^ 16)) by lia.
  rewrite (lor_disjoint (b0 + b1 * 2 ^ 8) b2 16) by lia.
  rewrite (to_long_small (b0 + b1 * 2 ^ 8 + b2 * 2 ^ 16)) by lia.
  set (acc := b0 + b1 * 2 ^ 8 + b2 * 2 ^ 16).
  assert (Hacc : 0 <= acc < 2 ^ 24) by (unfold acc; lia).
  assert (E : to_long (b3 * 2 ^ 24)
              = (if b3 <? 128 then b3 else b3 - 256) * 2 ^ 24).
  { unfold to_long. destruct (Z.ltb_spec b3 128).
    - rewrite Z.mod_small; lia.
    - replace (b3 * 2 ^ 24 + 2147483648)
        with (b3 * 2 ^ 24 - 2147483648 + 1 * 4294967296) by lia.
      rewrite Z.mod_add by lia. rewrite Z.mod_small; lia. }
  rewrite E. rewrite lor_disjoint by lia.
  rewrite (to_long_small (acc + _)) by (destruct (b3 <? 128) eqn:Hb;
    [apply Z.ltb_lt in Hb|apply Z.ltb_ge in Hb]; lia).
  unfold acc. change (2 ^ 8) with 256. change (2 ^ 16) with 65536.
  change (2 ^ 24) with 16777216.
  unfold to_long. destruct (Z.ltb_spec b3 128).
  - rewrite Z.mod_small; lia.
  - replace (b0 + b1 * 256 + b2 * 65536 + b3 * 16777216 + 2147483648)
      with (b0 + b1 * 256 + b2 * 65536 + b3 * 16777216 - 2147483648
            + 1 * 4294967296) by lia.
    rewrite Z.mod_add by lia. rewrite Z.mod_small; lia.
Qed.

(** X16. [setScratchData] passes on the bank byte followed by exactly the
    first [dataLength] bytes of [data], whatever the local struct held
    before, when [dataLength] is at most 20 (an empty write included); a
    longer write returns false and makes no transport call. *)
Theorem setScratchData_sends_prefix (bank : Z) (data : list Z)
    (dataLength : Z) (junk : list Z) :
  is_u8 dataLength ->
  (Z.to_nat dataLength <= length data)%nat ->
  (dataLength <= 20 ->
     fst (setScratchData bank data dataLength junk) = true /\
     sent (setScratchData bank data dataLength junk)
       = bank :: take (Z.to_nat dataLength) data) /\
  (20 < dataLength ->
     setScratchData bank data dataLength junk = (false, None)).
Proof.
  intros [H0 H1] Hlen. split.
  - intros Hle. apply setScratchData_small; [lia|assumption].
  - intros Hgt. unfold setScratchData, MAX_SCRATCH_SIZE.
    destruct (Z.leb_spec dataLength 20); [lia|reflexivity].
Qed.

Lemma setScratchData_sends_prefix_witness :
  (2 <= 20 ->
     fst (setScratchData 3 [10; 11; 12] 2 (replicate 20 85)) = true /\
     sent (setScratchData 3 [10; 11; 12] 2 (replicate 20 85))
       = 3 :: take (Z.to_nat 2) [10; 11; 12]) /\
  (20 < 2 ->
     setScratchData 3 [10; 11; 12] 2 (replicate 20 85) = (false, None)).
Proof.
  apply (setScratchData_sends_prefix 3 [10; 11; 12] 2 (replicate 20 85)).
  - unfold is_u8. lia.
  - cbn. lia.
Defined.

(** X17. [setScratchNumber] passes on five bytes, the bank and the four
    bytes of the number with the least significant first, and
    [readScratchNumber] on a buffer holding these four bytes returns the
    number converted to a signed 32-bit [long]: the number itself below
    2^31, and the number minus 2^32 from there on. *)
Theorem scratch_number_round_trip (bank data : Z) (junk : list Z) :
  is_u32 data ->
  (4 <= length junk)%nat ->
  sent (setScratchNumber bank data junk)
    = [bank; data mod 256; (data / 256) mod 256; (data / 65536) mod 256;
       data / 16777216] /\
  readScratchNumber (delivered (drop 1 (sent (setScratchNumber bank data junk))))
    = to_long data /\
  to_long data = (if data <? 2147483648 then data else data - 4294967296).
Proof.
  intros [H0 H1] Hlen.
  destruct junk as [|j0 [|j1 [|j2 [|j3 rest]]]]; cbn [length] in Hlen;
    try lia.
  destruct (number_bytes data ltac:(lia)) as (E0 & E1 & E2 & E3).
  assert (Es : sent (setScratchNumber bank data (j0 :: j1 :: j2 :: j3 :: rest))
    = [bank; data mod 256; (data / 256) mod 256; (data / 65536) mod 256;
       data / 16777216]).
  { unfold sent, sent_bytes, setScratchNumber.
    cbn [snd set_length set_scratch number scratch].
    change (Z.to_nat (4 + 1)) with 5%nat.
    cbn. rewrite take_0. unfold u8 in *. rewrite E0, E1, E2, E3.
    reflexivity. }
  rewrite Es. split; [reflexivity|]. split.
  - cbn [drop]. unfold delivered, memcpy. cbn [length].
    rewrite Nat2Z.id. cbn [take drop replicate app].
    rewrite readScratchNumber_bytes.
    + f_equal. Z.div_mod_to_equations. lia.
    + apply Z.mod_pos_bound; lia.
    + apply Z.mod_pos_bound; lia.
    + apply Z.mod_pos_bound; lia.
    + split; [apply Z.div_pos; lia|apply Z.div_lt_upper_bound; lia].
  - unfold to_long. destruct (Z.ltb_spec data 2147483648).
    + rewrite Z.mod_small; lia.
    + replace (data + 2147483648)
        with (data - 2147483648 + 1 * 4294967296) by lia.
      rewrite Z.mod_add by lia. rewrite Z.mod_small; lia.
Qed.

Lemma scratch_number_round_trip_witness :
  sent (setScratchNumber 2 305419896 (replicate 20 85))
    = [2; 305419896 mod 256; (305419896 / 256) mod 256;
       (305419896 / 65536) mod 256; 305419896 / 16777216] /\
  readScratchNumber
    (delivered (drop 1 (sent (setScratchNumber 2 305419896 (replicate 20 85)))))
    = to_long 305419896 /\
  to_long 305419896
    = (if 305419896 <? 2147483648 then 305419896
       else 305419896 - 4294967296).
Proof.
  apply (scratch_number_round_trip 2 305419896 (replicate 20 85)).
  - unfold is_u32. lia.
  - cbn. lia.
Defined.

End ScratchProps.

(** * Motion events *)

Module MotionProps.
Import Motion.

Lemma u8_testbit (x n : Z) :
  0 <= n -> Z.testbit (u8 x) n = (n <? 8) && Z.testbit x n.
Proof.
  intros Hn. unfold u8. change 256 with (2 ^ 8).
  destruct (Z.ltb_spec n 8).
  - now rewrite Z.mod_pow2_bits_low.
  - now rewrite Z.mod_pow2_bits_high by lia.
Qed.

Ltac bitwise :=
  apply Z.bits_inj'; intros n Hn;
  repeat first
    [ rewrite Z.land_spec | rewrite Z.lor_spec
    | rewrite Z.lnot_spec by assumption
    | rewrite u8_testbit by assumption
    | rewrite Z.bits_0 ].

Lemma checkMotionEvent_eq (K : Consts) (events value latch_cfg : Z)
    (s : Accel) :
  fst (checkMotionEvent K events value latch_cfg s)
    = negb (Z.land (u8 (Z.lor (triggeredEvents s) value)) events =? 0) /\
  triggeredEvents (snd (checkMotionEvent K events value latch_cfg s))
    = u8 (Z.land (u8 (Z.lor (triggeredEvents s) value)) (Z.lnot events)) /\
  enabledEvents (snd (checkMotionEvent K events value latch_cfg s))
    = enabledEvents s.
Proof.
  repeat split.
Qed.

Lemma cleared_then_new (t e v : Z) :
  Z.land (u8 (Z.lor (u8 (Z.land t (Z.lnot e))) v)) e = Z.land (u8 v) e.
Proof.
  bitwise.
  destruct (n <? 8), (Z.testbit t n), (Z.testbit e n), (Z.testbit v n);
    reflexivity.
Qed.

Lemma disjoint_bits (a b n : Z) :
  Z.land a b = 0 -> Z.testbit a n && Z.testbit b n = false.
Proof.
  intros H. rewrite <- Z.land_spec, H. apply Z.bits_0.
Qed.

Lemma cleared_other (t e1 e2 v v2 : Z) :
  Z.land e1 e2 = 0 ->
  Z.land (u8 (Z.lor (u8 (Z.land (u8 (Z.lor t v)) (Z.lnot e1))) v2)) e2
    = Z.land (u8 (Z.lor t (Z.lor v v2))) e2.
Proof.
  intros H. bitwise.
  pose proof (disjoint_bits e1 e2 n H) as D.
  destruct (n <? 8), (Z.testbit t n), (Z.testbit e1 n), (Z.testbit e2 n),
    (Z.testbit v n), (Z.testbit v2 n); cbn in *; congruence.
Qed.

(** X18. A motion event is reported once: after [checkMotionEvent(events)]
    a second call for the same events reports only what the accelerometer
    has flagged in between, and nothing when it has flagged nothing. *)
Theorem checkMotionEvent_reports_once (K : Consts)
    (events v1 l1 v2 l2 : Z) (s : Accel) :
  fst (checkMotionEvent K events v2 l2
         (snd (checkMotionEvent K events v1 l1 s)))
    = negb (Z.land (u8 v2) events =? 0) /\
  fst (checkMotionEvent K events 0 l2
         (snd (checkMotionEvent K events v1 l1 s))) = false.
Proof.
  assert (E : forall v,
    fst (checkMotionEvent K events v l2
           (snd (checkMotionEvent K events v1 l1 s)))
      = negb (Z.land (u8 v) events =? 0)).
  { intros v.
    destruct (checkMotionEvent_eq K events v l2
                (snd (checkMotionEvent K events v1 l1 s))) as (E1 & _).
    destruct (checkMotionEvent_eq K events v1 l1 s) as (_ & E2 & _).
    rewrite E1, E2, cleared_then_new. reflexivity. }
  split; [apply E|]. rewrite E. reflexivity.
Qed.

(** X19. Checking for some events keeps the flags of the others: for
    events [e2] disjoint from [e1], a check for [e2] after a check for [e1]
    answers as a single check for [e2] that sees the interrupt flags of
    both reads. *)
Theorem checkMotionEvent_keeps_others (K : Consts)
    (e1 e2 v1 l1 v2 l2 : Z) (s : Accel) :
  Z.land e1 e2 = 0 ->
  fst (checkMotionEvent K e2 v2 l2 (snd (checkMotionEvent K e1 v1 l1 s)))
    = fst (checkMotionEvent K e2 (Z.lor v1 v2) l1 s).
Proof.
  intros H.
  destruct (checkMotionEvent_eq K e2 v2 l2
              (snd (checkMotionEvent K e1 v1 l1 s))) as (E1 & _).
  destruct (checkMotionEvent_eq K e1 v1 l1 s) as (_ & E2 & _).
  destruct (checkMotionEvent_eq K e2 (Z.lor v1 v2) l1 s) as (E3 & _).
  rewrite E1, E2, E3, cleared_other by assumption. reflexivity.
Qed.

Lemma checkMotionEvent_keeps_others_witness :
  fst (checkMotionEvent sample 8 0 0
         (snd (checkMotionEvent sample 32 40 0 (MkAccel 0 0 []))))
    = fst (checkMotionEvent sample 8 (Z.lor 40 0) 0 (MkAccel 0 0 [])).
Proof.
  apply (checkMotionEvent_keeps_others sample 32 8 40 0 0 0 (MkAccel 0 0 [])).
  reflexivity.
Defined.

Lemma enableMotionEvent_eq (K : Consts) (events : Z) (s : Accel) :
  enabledEvents (enableMotionEvent K events s)
    = u8 (Z.lor (enabledEvents s) events) /\
  triggeredEvents (enableMotionEvent K events s)
    = u8 (Z.land (triggeredEvents s) (Z.lnot events)) /\
  calls (enableMotionEvent K events s)
    = calls s ++
      [AccelRegisterWrite (REG_POWER_MODE_X11 K) (VALUE_LOW_POWER_10MS K);
       AccelRegisterWrite (REG_LATCH_CFG_X21 K) (VALUE_LATCHED K);
       AccelRegisterWrite (REG_INT_SETTING_X16 K)
         (u8 (Z.shiftr
                (fst (motion_registers K (u8 (Z.lor (enabledEvents s) events))))
                8));
       AccelRegisterWrite (REG_INT_SETTING_X17 K)
         (u8 (Z.land
                (fst (motion_registers K (u8 (Z.lor (enabledEvents s) events))))
                255));
       AccelRegisterWrite (REG_LATCH_CFG_X21 K) (VALUE_TEMPORARY_250MS K);
       AccelRegisterWrite (REG_INT_MAPPING_X19 K)
         (snd (motion_registers K (u8 (Z.lor (enabledEvents s) events))));
       WakeOnAccel 1].
Proof.
  unfold enableMotionEvent. cbn [enabledEvents triggeredEvents calls].
  destruct (motion_registers K (u8 (Z.lor (enabledEvents s) events)))
    as [er wr].
  repeat split. cbn [fst snd].
  unfold enableWakeOnAccelerometer, accelerometerConfig, call.
  cbn [enabledEvents triggeredEvents calls].
  rewrite <- !app_assoc. reflexivity.
Qed.

Lemma last_write_app (reg : Z) (l1 l2 : list accel_op) (b : option Z) :
  last_write reg (l1 ++ l2) b = last_write reg l2 (last_write reg l1 b).
Proof.
  revert b. induction l1 as [|o l1 IH]; intros b; [reflexivity|].
  destruct o; cbn [app last_write]; apply IH.
Qed.

(** X20. [enableMotionEvent(events)] discards what was triggered for these
    events before: the next check for them reports only what the
    accelerometer flags at that check. [disableMotionEvents] clears
    nothing: a check after it answers as the same check without it. *)
Theorem enableMotionEvent_discards_stale (K : Consts)
    (events v l : Z) (s : Accel) :
  fst (checkMotionEvent K events v l (enableMotionEvent K events s))
    = negb (Z.land (u8 v) events =? 0) /\
  fst (checkMotionEvent K events v l (disableMotionEvents K s))
    = fst (checkMotionEvent K events v l s).
Proof.
  split.
  - destruct (checkMotionEvent_eq K events v l
                (enableMotionEvent K events s)) as (E1 & _).
    destruct (enableMotionEvent_eq K events s) as (_ & E2 & _).
    rewrite E1, E2, cleared_then_new. reflexivity.
  - reflexivity.
Qed.

(** X21. When the interrupt registers are not the latch register,
    [enableMotionEvent] leaves the latch configuration at
    [VALUE_TEMPORARY_250MS]: the [VALUE_LATCHED] that [accelerometerConfig]
    writes is overwritten by [enableWakeOnAccelerometer] in the same call.
    [disableMotionEvents] leaves it at [VALUE_LATCHED]. *)
Theorem enableMotionEvent_latch (K : Consts) (events : Z) (s : Accel)
    (before : option Z) :
  REG_INT_SETTING_X16 K <> REG_LATCH_CFG_X21 K ->
  REG_INT_SETTING_X17 K <> REG_LATCH_CFG_X21 K ->
  REG_INT_MAPPING_X19 K <> REG_LATCH_CFG_X21 K ->
  last_write (REG_LATCH_CFG_X21 K) (calls (enableMotionEvent K events s))
    before = Some (VALUE_TEMPORARY_250MS K) /\
  last_write (REG_LATCH_CFG_X21 K) (calls (disableMotionEvents K s))
    before = Some (VALUE_LATCHED K).
Proof.
  intros H16 H17 H19.
  apply Z.eqb_neq in H16, H17, H19. split.
  - destruct (enableMotionEvent_eq K events s) as (_ & _ & E).
    rewrite E, last_write_app. cbn [last_write].
    rewrite !Z.eqb_refl, H19. reflexivity.
  - unfold disableMotionEvents, accelerometerConfig, call.
    cbn [enabledEvents triggeredEvents calls].
    rewrite <- !app_assoc, last_write_app. cbn [app last_write].
    rewrite !Z.eqb_refl, H16, H17. reflexivity.
Qed.

Lemma enableMotionEvent_latch_witness :
  last_write (REG_LATCH_CFG_X21 sample)
    (calls (enableMotionEvent sample 8 (MkAccel 0 0 []))) None
    = Some (VALUE_TEMPORARY_250MS sample) /\
  last_write (REG_LATCH_CFG_X21 sample)
    (calls (disableMotionEvents sample (MkAccel 0 0 []))) None
    = Some (VALUE_LATCHED sample).
Proof.
  apply (enableMotionEvent_latch sample 8 (MkAccel 0 0 []) None);
    vm_compute; discriminate.
Defined.

Lemma enabled_twice (t e1 e2 : Z) :
  u8 (Z.lor (u8 (Z.lor t e1)) e2) = u8 (Z.lor t (Z.lor e1 e2)).
Proof.
  bitwise.
  destruct (n <? 8), (Z.testbit t n), (Z.testbit e1 n), (Z.testbit e2 n);
    reflexivity.
Qed.

Lemma cleared_twice (t e1 e2 : Z) :
  u8 (Z.land (u8 (Z.land t (Z.lnot e1))) (Z.lnot e2))
    = u8 (Z.land t (Z.lnot (Z.lor e1 e2))).
Proof.
  bitwise.
  destruct (n <? 8), (Z.testbit t n), (Z.testbit e1 n), (Z.testbit e2 n);
    reflexivity.
Qed.

(** X22. Enabling motion events is cumulative: [enableMotionEvent(e1)]
    followed by [enableMotionEvent(e2)] leaves the same enabled and
    triggered flags as one [enableMotionEvent(e1 | e2)], and the second
    call makes the transport calls that the combined call would make. *)
Theorem enableMotionEvent_cumulative (K : Consts) (e1 e2 : Z) (s : Accel) :
  enabledEvents (enableMotionEvent K e2 (enableMotionEvent K e1 s))
    = enabledEvents (enableMotionEvent K (Z.lor e1 e2) s) /\
  triggeredEvents (enableMotionEvent K e2 (enableMotionEvent K e1 s))
    = triggeredEvents (enableMotionEvent K (Z.lor e1 e2) s) /\
  calls (enableMotionEvent K e2 (enableMotionEvent K e1 s))
    = calls (enableMotionEvent K e1 s)
      ++ drop (length (calls s))
           (calls (enableMotionEvent K (Z.lor e1 e2) s)).
Proof.
  destruct (enableMotionEvent_eq K e2 (enableMotionEvent K e1 s))
    as (A1 & A2 & A3).
  destruct (enableMotionEvent_eq K e1 s) as (B1 & B2 & _).
  destruct (enableMotionEvent_eq K (Z.lor e1 e2) s) as (C1 & C2 & C3).
  rewrite A1, A2, A3, C1, C2, C3, B1, B2.
  rewrite enabled_twice, cleared_twice.
  rewrite drop_app_length. repeat split.
Qed.

End MotionProps.

(** * Pin-change interrupts *)

Module PinChangeProps.
Import PinChange MotionProps.

Lemma set_testbit (v k n : Z) :
  0 <= k -> 0 <= n < 8 ->
  Z.testbit (u8 (Z.lor v (_BV k))) n = Z.testbit v n || (k =? n).
Proof.
  intros Hk Hn. rewrite u8_testbit by lia.
  destruct (Z.ltb_spec n 8); [|lia]. cbn [andb].
  unfold _BV. rewrite Z.lor_spec, Z.shiftl_1_l, Z.pow2_bits_eqb by lia.
  reflexivity.
Qed.

Lemma clear_testbit (v k n : Z) :
  0 <= k -> 0 <= n < 8 ->
  Z.testbit (u8 (Z.land v (Z.lnot (_BV k)))) n
    = Z.testbit v n && negb (k =? n).
Proof.
  intros Hk Hn. rewrite u8_testbit by lia.
  destruct (Z.ltb_spec n 8); [|lia]. cbn [andb].
  unfold _BV. rewrite Z.land_spec, Z.lnot_spec, Z.shiftl_1_l,
    Z.pow2_bits_eqb by lia.
  reflexivity.
Qed.

Lemma pin_cases (p : Z) (P : Z -> Prop) :
  0 <= p <= 5 -> P 0 -> P 1 -> P 2 -> P 3 -> P 4 -> P 5 -> P p.
Proof.
  intros H H0 H1 H2 H3 H4 H5.
  assert (C : p = 0 \/ p = 1 \/ p = 2 \/ p = 3 \/ p = 4 \/ p = 5) by lia.
  destruct C as [->|[->|[->|[->|[->| ->]]]]]; assumption.
Qed.

Ltac registers :=
  unfold pin_enabled, attachChangeInterrupt, detachChangeInterrupt,
    set_intFunc, attach0, attach2, detach0, detach2,
    PCIE0, PCIE2, PCINT1, PCINT2, PCINT3, PCINT4, PCINT5, PCINT22;
  cbn [PCICR PCMSK0 PCMSK2 intFunc Z.eqb Pos.eqb];
  rewrite ?set_testbit, ?clear_testbit by lia;
  cbn [Z.eqb Pos.eqb negb orb andb].

Section WithHandler.

Context {handler : Type}.

Lemma attach_enables_pin (p : Z) (f : option handler) (s : Pcint handler) :
  0 <= p <= 5 -> pin_enabled (attachChangeInterrupt p f s) p = true.
Proof.
  intros Hp. apply (pin_cases p (fun p =>
    pin_enabled (attachChangeInterrupt p f s) p = true) Hp);
  registers; rewrite ?orb_true_r; reflexivity.
Qed.

Lemma attach_keeps_pin (p q : Z) (f : option handler) (s : Pcint handler) :
  0 <= p <= 5 -> 0 <= q <= 5 ->
  pin_enabled s q = true ->
  pin_enabled (attachChangeInterrupt p f s) q = true.
Proof.
  intros Hp Hq. apply (pin_cases p (fun p =>
    pin_enabled s q = true ->
    pin_enabled (attachChangeInterrupt p f s) q = true) Hp);
  match goal with
  | |- _ -> pin_enabled (attachChangeInterrupt ?c f s) q = true =>
      apply (pin_cases q (fun q =>
        pin_enabled s q = true ->
        pin_enabled (attachChangeInterrupt c f s) q = true) Hq)
  end;
  registers; intros H; apply andb_true_iff in H; destruct H as [-> ->];
  reflexivity.
Qed.

Lemma detach_disables_pins (p q : Z) (s : Pcint handler) :
  1 <= p <= 5 -> 1 <= q <= 5 ->
  pin_enabled (detachChangeInterrupt p s) q = false.
Proof.
  intros Hp Hq.
  assert (Cp : p = 1 \/ p = 2 \/ p = 3 \/ p = 4 \/ p = 5) by lia.
  assert (Cq : q = 1 \/ q = 2 \/ q = 3 \/ q = 4 \/ q = 5) by lia.
  destruct Cp as [->|[->|[->|[->| ->]]]];
  destruct Cq as [->|[->|[->|[->| ->]]]];
  registers; rewrite ?andb_false_r; reflexivity.
Qed.

Lemma detach_keeps_pin_0 (p : Z) (s : Pcint handler) :
  1 <= p <= 5 ->
  pin_enabled (detachChangeInterrupt p s) 0 = pin_enabled s 0.
Proof.
  intros Hp.
  assert (Cp : p = 1 \/ p = 2 \/ p = 3 \/ p = 4 \/ p = 5) by lia.
  destruct Cp as [->|[->|[->|[->| ->]]]];
  registers; rewrite ?andb_true_r; reflexivity.
Qed.

Lemma detach_0_keeps_pins (q : Z) (s : Pcint handler) :
  1 <= q <= 5 ->
  pin_enabled (detachChangeInterrupt 0 s) q = pin_enabled s q.
Proof.
  intros Hq.
  assert (Cq : q = 1 \/ q = 2 \/ q = 3 \/ q = 4 \/ q = 5) by lia.
  destruct Cq as [->|[->|[->|[->| ->]]]];
  registers; rewrite ?andb_true_r; reflexivity.
Qed.

Lemma switch_default (A : Type) (p : Z) (a0 a1 a2 a3 a4 a5 d : A) :
  5 < p ->
  match p with
  | 0 => a0 | 1 => a1 | 2 => a2 | 3 => a3 | 4 => a4 | 5 => a5 | _ => d
  end = d.
Proof.
  intros H. destruct p as [|p|p]; [lia| |reflexivity].
  do 3 (try (destruct p as [p|p|]; try lia; try reflexivity)).
Qed.

(** X23. [attachChangeInterrupt] on one of the pins 0 to 5 enables the
    pin-change interrupt of that pin, keeps every pin enabled that was
    enabled, and makes [userFunc] the one handler of all of them. *)
Theorem attachChangeInterrupt_enables (p q : Z) (f : option handler)
    (s : Pcint handler) :
  0 <= p <= 5 -> 0 <= q <= 5 ->
  pin_enabled (attachChangeInterrupt p f s) p = true /\
  (pin_enabled s q = true ->
   pin_enabled (attachChangeInterrupt p f s) q = true) /\
  intFunc (attachChangeInterrupt p f s) = f.
Proof.
  intros Hp Hq. split; [|split].
  - apply attach_enables_pin. assumption.
  - apply attach_keeps_pin; assumption.
  - reflexivity.
Qed.

(** X24. [detachChangeInterrupt] on one of the pins 1 to 5 switches the
    whole group off: afterwards none of the pins 1 to 5 is enabled,
    whichever were attached; pin 0 stays as it was, and the handler is
    [NULL]. Detaching pin 0 leaves the pins 1 to 5 as they were, and the
    handler is [NULL] as well. *)
Theorem detachChangeInterrupt_disables_group (p q : Z) (s : Pcint handler) :
  1 <= p <= 5 -> 1 <= q <= 5 ->
  pin_enabled (detachChangeInterrupt p s) q = false /\
  pin_enabled (detachChangeInterrupt p s) 0 = pin_enabled s 0 /\
  intFunc (detachChangeInterrupt p s) = None /\
  pin_enabled (detachChangeInterrupt 0 s) q = pin_enabled s q /\
  intFunc (detachChangeInterrupt 0 s) = None.
Proof.
  intros Hp Hq. split; [|split; [|split; [|split]]].
  - apply detach_disables_pins; assumption.
  - apply detach_keeps_pin_0. assumption.
  - reflexivity.
  - apply detach_0_keeps_pins. assumption.
  - reflexivity.
Qed.

(** X25. For a pin number above 5 both functions leave the three
    pin-change registers as they are and still replace the handler:
    [attachChangeInterrupt] by [userFunc], [detachChangeInterrupt] by
    [NULL]. *)
Theorem change_interrupt_other_pin (p : Z) (f : option handler)
    (s : Pcint handler) :
  5 < p ->
  attachChangeInterrupt p f s = MkPcint (PCICR s) (PCMSK0 s) (PCMSK2 s) f /\
  detachChangeInterrupt p s = MkPcint (PCICR s) (PCMSK0 s) (PCMSK2 s) None.
Proof.
  intros Hp. unfold attachChangeInterrupt, detachChangeInterrupt.
  rewrite !switch_default by assumption. split; reflexivity.
Qed.

End WithHandler.

Lemma attachChangeInterrupt_enables_witness :
  pin_enabled (attachChangeInterrupt 3 (Some 7%nat) (MkPcint 0 0 0 None)) 3
    = true /\
  (pin_enabled (MkPcint 0 0 0 (@None nat)) 4 = true ->
   pin_enabled (attachChangeInterrupt 3 (Some 7%nat) (MkPcint 0 0 0 None)) 4
     = true) /\
  intFunc (attachChangeInterrupt 3 (Some 7%nat) (MkPcint 0 0 0 None))
    = Some 7%nat.
Proof.
  apply (attachChangeInterrupt_enables 3 4 (Some 7%nat) (MkPcint 0 0 0 None));
    lia.
Defined.

Lemma detachChangeInterrupt_disables_group_witness :
  pin_enabled (detachChangeInterrupt 1
     (attachChangeInterrupt 2 (Some 7%nat) (MkPcint 0 0 0 None))) 2 = false /\
  pin_enabled (detachChangeInterrupt 1
     (attachChangeInterrupt 2 (Some 7%nat) (MkPcint 0 0 0 None))) 0
    = pin_enabled (attachChangeInterrupt 2 (Some 7%nat) (MkPcint 0 0 0 None)) 0 /\
  intFunc (detachChangeInterrupt 1
     (attachChangeInterrupt 2 (Some 7%nat) (MkPcint 0 0 0 None))) = None /\
  pin_enabled (detachChangeInterrupt 0
     (attachChangeInterrupt 2 (Some 7%nat) (MkPcint 0 0 0 None))) 2
    = pin_enabled (attachChangeInterrupt 2 (Some 7%nat) (MkPcint 0 0 0 None)) 2 /\
  intFunc (detachChangeInterrupt 0
     (attachChangeInterrupt 2 (Some 7%nat) (MkPcint 0 0 0 None))) = None.
Proof.
  apply (detachChangeInterrupt_disables_group 1 2
           (attachChangeInterrupt 2 (Some 7%nat) (MkPcint 0 0 0 None))); lia.
Defined.

Lemma change_interrupt_other_pin_witness :
  attachChangeInterrupt 6 (Some 7%nat) (MkPcint 1 4 0 None)
    = MkPcint (PCICR (MkPcint 1 4 0 (@None nat))) (PCMSK0 (MkPcint 1 4 0 (@None nat)))
        (PCMSK2 (MkPcint 1 4 0 (@None nat))) (Some 7%nat) /\
  detachChangeInterrupt 6 (MkPcint 1 4 0 (@None nat))
    = MkPcint (PCICR (MkPcint 1 4 0 (@None nat))) (PCMSK0 (MkPcint 1 4 0 (@None nat)))
        (PCMSK2 (MkPcint 1 4 0 (@None nat))) None.
Proof.
  apply (change_interrupt_other_pin 6 (Some 7%nat) (MkPcint 1 4 0 None)).
  lia.
Defined.

End PinChangeProps.

(** * Typing over HID and the advertised name *)

Module HidProps.
Import Hid.

Lemma HIDWrite_loop_typed (write_result : nat -> Z -> Z) (count i : nat)
    (s : list Z) (t : Typing) :
  (i + count <= length s)%nat ->
  snd (HIDWrite_loop write_result count i s t)
    = snd t ++ take count (drop i s).
Proof.
  revert i t. induction count as [|count IH]; intros i t H.
  - cbn [HIDWrite_loop take]. now rewrite app_nil_r.
  - cbn [HIDWrite_loop]. rewrite IH by lia. cbn [snd].
    destruct (lookup_lt_is_Some_2 s i ltac:(lia)) as [x Hx].
    rewrite (drop_S _ _ _ Hx), nth_lookup, Hx. cbn [default take].
    now rewrite <- app_assoc.
Qed.

(** X26. [HIDWrite] passes the characters of the string to the keyboard in
    order and leaves out the last one: the loop runs while
    [i < s.length() - 1]. A string of one character types nothing. *)
Theorem HIDWrite_omits_last (write_result : nat -> Z -> Z) (s : list Z) :
  Z.of_nat (length s) <= 32768 ->
  snd (HIDWrite write_result s) = removelast s.
Proof.
  intros H. unfold HIDWrite.
  assert (E : Z.to_nat (to_int (to_unsigned (Z.of_nat (length s)) - 1))
              = Nat.pred (length s)).
  { unfold to_int, to_unsigned.
    destruct s as [|c s]; [reflexivity|].
    cbn [length Nat.pred] in *.
    rewrite (Z.mod_small (Z.of_nat (S (length s)))) by lia.
    rewrite Z.mod_small by lia. lia. }
  rewrite E, HIDWrite_loop_typed by lia.
  cbn [snd app drop]. now rewrite removelast_firstn_len.
Qed.

Lemma HIDWrite_omits_last_witness :
  snd (HIDWrite (fun _ _ => 1) [104; 105; 33]) = removelast [104; 105; 33].
Proof.
  apply (HIDWrite_omits_last (fun _ _ => 1) [104; 105; 33]). cbn. lia.
Defined.

End HidProps.

Module BeanNameProps.
Import BeanName.

Lemma terminate_eq (count i : nat) (myChar : list Z) :
  (i + count <= length myChar)%nat ->
  terminate count i myChar
    = take i myChar ++ replicate count 0 ++ drop (i + count) myChar.
Proof.
  revert i myChar. induction count as [|count IH]; intros i myChar H.
  - cbn [terminate replicate app]. rewrite Nat.add_0_r.
    now rewrite take_drop.
  - cbn [terminate]. rewrite IH by (rewrite length_insert; lia).
    rewrite drop_insert_lt by lia.
    rewrite (take_S_r (<[i:=0]> myChar) i 0)
      by (apply list_lookup_insert_eq; lia).
    rewrite take_insert_ge by lia.
    rewrite <- app_assoc. cbn [replicate app].
    replace (S i + count)%nat with (i + S count)%nat by lia. reflexivity.
Qed.

(** X27. When the configuration is read and the name is shorter than the
    buffer, [getBeanName] returns the name followed by zero bytes up to the
    end of the buffer: terminated, and with nothing left of an earlier,
    longer name. *)
Theorem getBeanName_terminated (MAX_LOCAL_NAME_SIZE result : Z)
    (local_name : list Z) (local_name_size : Z) (myChar : list Z) :
  result <> -1 ->
  0 <= local_name_size < MAX_LOCAL_NAME_SIZE ->
  length local_name = Z.to_nat MAX_LOCAL_NAME_SIZE ->
  length myChar = Z.to_nat MAX_LOCAL_NAME_SIZE ->
  getBeanName MAX_LOCAL_NAME_SIZE result local_name local_name_size myChar
    = take (Z.to_nat local_name_size) local_name
      ++ replicate (Z.to_nat (MAX_LOCAL_NAME_SIZE - local_name_size)) 0.
Proof.
  intros Hr Hs Hn Hc. unfold getBeanName.
  destruct (Z.eqb_spec (-1) result) as [E|_]; [congruence|]. cbn [negb].
  destruct (Z.ltb_spec local_name_size MAX_LOCAL_NAME_SIZE); [|lia].
  assert (Hm : length (Scratch.memcpy myChar local_name local_name_size)
               = Z.to_nat MAX_LOCAL_NAME_SIZE).
  { unfold Scratch.memcpy.
    rewrite length_app, length_take, length_drop. lia. }
  rewrite terminate_eq by lia.
  unfold Scratch.memcpy at 1.
  rewrite take_app_le by (rewrite length_take; lia).
  rewrite take_take, Nat.min_id.
  rewrite drop_ge by lia. now rewrite app_nil_r.
Qed.

Lemma getBeanName_terminated_witness :
  getBeanName 6 0 [66; 101; 97; 110; 33; 33] 4 [79; 108; 100; 101; 114; 33]
    = take (Z.to_nat 4) [66; 101; 97; 110; 33; 33]
      ++ replicate (Z.to_nat (6 - 4)) 0.
Proof.
  apply (getBeanName_terminated 6 0 [66; 101; 97; 110; 33; 33] 4
           [79; 108; 100; 101; 114; 33]).
  - lia.
  - lia.
  - reflexivity.
  - reflexivity.
Defined.

(** X28. [getBeanName] does not always return a terminated string of the
    current name. A name that fills the buffer is returned as it is, with
    no zero byte added behind it; and when the configuration cannot be read
    ([BTGetConfig] gives -1) the buffer is returned as the previous call
    left it. *)
Theorem getBeanName_unterminated (MAX_LOCAL_NAME_SIZE result : Z)
    (local_name : list Z) (local_name_size : Z) (myChar : list Z) :
  length local_name = Z.to_nat MAX_LOCAL_NAME_SIZE ->
  length myChar = Z.to_nat MAX_LOCAL_NAME_SIZE ->
  (result <> -1 -> MAX_LOCAL_NAME_SIZE <= local_name_size ->
   getBeanName MAX_LOCAL_NAME_SIZE result local_name local_name_size myChar
     = local_name) /\
  (result = -1 ->
   getBeanName MAX_LOCAL_NAME_SIZE result local_name local_name_size myChar
     = myChar).
Proof.
  intros Hn Hc. split.
  - intros Hr Hs. unfold getBeanName.
    destruct (Z.eqb_spec (-1) result) as [E|_]; [congruence|]. cbn [negb].
    destruct (Z.ltb_spec local_name_size MAX_LOCAL_NAME_SIZE); [lia|].
    rewrite Z.sub_diag. cbn [Z.to_nat terminate].
    unfold Scratch.memcpy.
    rewrite take_ge, drop_ge by lia. apply app_nil_r.
  - intros ->. unfold getBeanName. cbn [Z.eqb Pos.eqb negb].
    rewrite Z.sub_diag. reflexivity.
Qed.

Lemma getBeanName_unterminated_witness :
  (0 <> -1 -> 4 <= 4 ->
   getBeanName 4 0 [66; 101; 97; 110] 4 [79; 108; 100; 0]
     = [66; 101; 97; 110]) /\
  (0 = -1 ->
   getBeanName 4 0 [66; 101; 97; 110] 4 [79; 108; 100; 0]
     = [79; 108; 100; 0]).
Proof.
  apply (getBeanName_unterminated 4 0 [66; 101; 97; 110] 4 [79; 108; 100; 0]);
    reflexivity.
Defined.

End BeanNameProps.

(** * Advertised services *)

Module ServicesProps.
Import Services.

(** X29. When the current services cannot be read ([readGATT] does not
    return 0), each of [enableHID], [enableMidi], [enableANCS],
    [enableCustom] and [enableiBeacon] writes a set with its own service as
    the only one: every other service, the standard one included, is
    switched off, whatever was enabled. *)
Theorem enable_after_failed_read (result : Z) (read : ADV_SWITCH_ENABLED_T) :
  result <> 0 ->
  enableHID result read = MkServices 0 1 0 0 0 0 0 /\
  enableMidi result read = MkServices 0 0 1 0 0 0 0 /\
  enableANCS result read = MkServices 0 0 0 1 0 0 0 /\
  enableCustom result read = MkServices 0 0 0 0 1 0 0 /\
  enableiBeacon result read = MkServices 0 0 0 0 0 1 0.
Proof.
  intros H.
  unfold enableHID, enableMidi, enableANCS, enableCustom, enableiBeacon,
    setServices, getServices.
  destruct (Z.eqb_spec result 0) as [E|_]; [contradiction|].
  repeat split.
Qed.

Lemma enable_after_failed_read_witness :
  enableHID (-1) resetServices = MkServices 0 1 0 0 0 0 0 /\
  enableMidi (-1) resetServices = MkServices 0 0 1 0 0 0 0 /\
  enableANCS (-1) resetServices = MkServices 0 0 0 1 0 0 0 /\
  enableCustom (-1) resetServices = MkServices 0 0 0 0 1 0 0 /\
  enableiBeacon (-1) resetServices = MkServices 0 0 0 0 0 1 0.
Proof.
  apply (enable_after_failed_read (-1) resetServices). lia.
Defined.

End ServicesProps.
